(** * Inventory ledger engine of the sales dashboard (src/App.tsx)

    A shallow embedding of the helper functions at the top of [App.tsx]
    ([inferInitialStocks], [processAndValidateData], [parseCSV],
    [exportToCSV]) and of the record type of [types.ts], followed by the
    properties of the ledger that the specification states.

    Modelling conventions.
    - The ledger is modelled twice.  In [SalesData] a [number] field is an
      integer ([Z]): the ledger as it is on integer quantities, prices and
      stocks.  In [Double.SalesData] it is an IEEE 754 double
      ([spec_float] at 53 bits), as in the code; the functions of [Double]
      are the code on any numbers, decimal quantities, NaN and the
      infinities included.  The two agree on integers as long as every
      stock and every sum stays below 2^53 in magnitude (section "The
      ledger on doubles and the ledger on integers"), and part on decimal
      quantities, where the properties of the arithmetic are stated on
      [Double].
    - A [Record<string, number>] is a [gmap string Z], a [gmap string double]
      in [Double]; product names are
      assumed not to collide with the properties every JavaScript object
      inherits.
    - [new Date(s).getTime()] is the parameter [getTime] of the section; the
      dates of a ledger are assumed to parse, so that the comparator handed to
      [Array.prototype.sort] is a consistent one.  [iso_getTime] is the
      instance for date-only ISO strings.
    - A string is a sequence of code units below 256. *)

From Stdlib Require Import ZArith List String Ascii Lia Permutation Sorted QArith.
From Stdlib Require Import SpecFloat.
From stdpp Require Import gmap strings list fin_maps pretty.

Local Open Scope string_scope.
Local Open Scope list_scope.
Local Open Scope Z_scope.

(** ** The record type ([types.ts]) *)

Record SalesData := mkSalesData {
  id : string;
  tanggal : string;
  nama_produk : string;
  jumlah_terjual : Z;
  harga_beli : Z;
  harga_jual : Z;
  total_penjualan : Z;
  total_biaya : Z;
  laba : Z;
  stok_sisa : Z
}.

(** [{ ...trans, stok_sisa: v }] *)
Definition with_stok_sisa (trans : SalesData) (v : Z) : SalesData :=
  {| id := id trans;
     tanggal := tanggal trans;
     nama_produk := nama_produk trans;
     jumlah_terjual := jumlah_terjual trans;
     harga_beli := harga_beli trans;
     harga_jual := harga_jual trans;
     total_penjualan := total_penjualan trans;
     total_biaya := total_biaya trans;
     laba := laba trans;
     stok_sisa := v |}.

(** The value [processAndValidateData] returns. *)
Record Validated := mkValidated {
  processedData : list SalesData;
  error : option string
}.

(** ** [Array.prototype.sort] with a comparator

    The sort of ECMAScript is stable: [a] stays before [b] unless the
    comparator is positive on [(a, b)].  Insertion from the right, each
    element placed before the first one it does not exceed, is that order. *)

Section StableSort.
Context {A : Type} (cmp : A -> A -> Z).

Fixpoint sort_insert (a : A) (l : list A) : list A :=
  match l with
  | [] => [a]
  | b :: l' => if cmp a b <=? 0 then a :: b :: l' else b :: sort_insert a l'
  end.

Fixpoint stable_sort (l : list A) : list A :=
  match l with
  | [] => []
  | a :: l' => sort_insert a (stable_sort l')
  end.
End StableSort.

(** The double quote of the message templates. *)
Definition dquote : string := String (ascii_of_nat 34) EmptyString.

(** A date-only ISO string [YYYY-MM-DD] as milliseconds since the epoch
    (UTC midnight), the value [new Date(s).getTime()] has on such a string. *)
Definition digit_val (c : ascii) : option Z :=
  let n := Z.of_N (N_of_ascii c) in
  if (48 <=? n) && (n <=? 57) then Some (n - 48) else None.

Fixpoint digits_val (acc : Z) (s : string) : option Z :=
  match s with
  | EmptyString => Some acc
  | String c s' =>
      match digit_val c with
      | Some d => digits_val (10 * acc + d) s'
      | None => None
      end
  end.

Definition days_from_civil (y m d : Z) : Z :=
  let y' := if m <=? 2 then y - 1 else y in
  let era := y' / 400 in
  let yoe := y' - era * 400 in
  let mp := if m >? 2 then m - 3 else m + 9 in
  let doy := (153 * mp + 2) / 5 + d - 1 in
  let doe := yoe * 365 + yoe / 4 - yoe / 100 + doy in
  era * 146097 + doe - 719468.

Definition iso_getTime (s : string) : Z :=
  match digits_val 0 (substring 0 4 s),
        digits_val 0 (substring 5 2 s),
        digits_val 0 (substring 8 2 s) with
  | Some y, Some m, Some d => days_from_civil y m d * 86400000
  | _, _, _ => 0
  end.

Section Ledger.

(** [s => new Date(s).getTime()] *)
Variable getTime : string -> Z.

(** [(a, b) => new Date(a.tanggal).getTime() - new Date(b.tanggal).getTime()] *)
Definition by_tanggal (a b : SalesData) : Z :=
  getTime (tanggal a) - getTime (tanggal b).

(** *** [inferInitialStocks] *)

(** Step 1, the grouping loop: [productTransactions[name].push(trans)]. *)
Definition group_step (productTransactions : gmap string (list SalesData))
    (trans : SalesData) : gmap string (list SalesData) :=
  let name := nama_produk trans in
  <[name := default [] (productTransactions !! name) ++ [trans]]>
    productTransactions.

Definition group_by_product (transactions : list SalesData)
    : gmap string (list SalesData) :=
  fold_left group_step transactions ∅.

(** The inner loop over one product's sorted transactions. *)
Fixpoint min_stock_loop (productTrans : list SalesData)
    (stockLevel minStockLevel : Z) : Z :=
  match productTrans with
  | [] => minStockLevel
  | trans :: rest =>
      let stockLevel := stockLevel - jumlah_terjual trans in
      let minStockLevel :=
        if stockLevel <? minStockLevel then stockLevel else minStockLevel in
      min_stock_loop rest stockLevel minStockLevel
  end.

Definition inferred_stock (productTrans : list SalesData) : Z :=
  Z.abs (min_stock_loop (stable_sort by_tanggal productTrans) 0 0).

(** Step 2: one entry for every group whose product has no entry in
    [existingInitialStocks] (the [continue] of the loop), computed from
    that group alone. *)
Definition inferInitialStocks (transactions : list SalesData)
    (existingInitialStocks : gmap string Z) : gmap string Z :=
  inferred_stock <$>
    filter (fun kv => existingInitialStocks !! kv.1 = None)
           (group_by_product transactions).

(** *** [processAndValidateData] *)

Definition insufficient_stock_message (productName tanggal : string)
    (stockBeforeTransaction jumlah : Z) : string :=
  "Stok tidak mencukupi untuk " +:+ dquote +:+ productName +:+ dquote
    +:+ " pada tanggal " +:+ tanggal
    +:+ ". Stok saat itu: " +:+ pretty stockBeforeTransaction
    +:+ ", jumlah terjual: " +:+ pretty jumlah
    +:+ ". Stok tidak boleh negatif.".

(** The loop of step 3, with the early [return] of step 4. *)
Fixpoint replay_loop (sortedData : list SalesData)
    (currentStocks : gmap string Z) (processed : list SalesData)
    : Validated :=
  match sortedData with
  | [] => {| processedData := processed; error := None |}
  | trans :: rest =>
      let productName := nama_produk trans in
      let currentStocks :=
        match currentStocks !! productName with
        | None => <[productName := 0]> currentStocks
        | Some _ => currentStocks
        end in
      let stockBeforeTransaction := default 0 (currentStocks !! productName) in
      if jumlah_terjual trans =? 0 then
        let stockAfterTransaction := stok_sisa trans in
        replay_loop rest
          (<[productName := stockAfterTransaction]> currentStocks)
          (processed ++ [with_stok_sisa trans stockAfterTransaction])
      else
        let stockAfterTransaction :=
          stockBeforeTransaction - jumlah_terjual trans in
        if stockAfterTransaction <? 0 then
          {| processedData := [];
             error := Some (insufficient_stock_message productName
                              (tanggal trans) stockBeforeTransaction
                              (jumlah_terjual trans)) |}
        else
          replay_loop rest
            (<[productName := stockAfterTransaction]> currentStocks)
            (processed ++ [with_stok_sisa trans stockAfterTransaction])
  end.

Definition processAndValidateData (data : list SalesData)
    (initialStocks : gmap string Z) : Validated :=
  let sortedData := stable_sort by_tanggal data in
  replay_loop sortedData initialStocks [].

End Ledger.

(** ** The CSV codec *)

(** *** String primitives of the JavaScript library *)

Definition newline : ascii := ascii_of_nat 10.
Definition comma : ascii := ascii_of_nat 44.

(** White space and line terminators among the code units below 256. *)
Definition is_space (c : ascii) : bool :=
  let n := N_of_ascii c in
  ((9 <=? n) && (n <=? 13) || (n =? 32) || (n =? 160))%N.

Definition is_empty (s : string) : bool :=
  match s with
  | EmptyString => true
  | String _ _ => false
  end.

Fixpoint trim_start (s : string) : string :=
  match s with
  | EmptyString => EmptyString
  | String c s' => if is_space c then trim_start s' else s
  end.

Fixpoint trim_end (s : string) : string :=
  match s with
  | EmptyString => EmptyString
  | String c s' =>
      let r := trim_end s' in
      if is_space c && is_empty r then EmptyString else String c r
  end.

(** [s.trim()] *)
Definition trim (s : string) : string := trim_end (trim_start s).

(** [s.split(sep)] for a separator of one code unit. *)
Fixpoint split (sep : ascii) (s : string) : list string :=
  match s with
  | EmptyString => [EmptyString]
  | String c s' =>
      if Ascii.eqb c sep then EmptyString :: split sep s'
      else match split sep s' with
           | [] => [String c EmptyString]
           | piece :: pieces => String c piece :: pieces
           end
  end.

(** [xs.join(sep)] on strings. *)
Definition join (sep : string) (xs : list string) : string :=
  String.concat sep xs.

(** *** Numbers read from text

    The value of a decimal literal is kept exactly, as a rational; its
    rounding to a double is [to_double], further down.  NaN is the absence
    of a number. *)

Inductive number :=
  | Finite (q : Q)
  | Infinite (negative : bool).

Fixpoint take_digits (s : string) : list Z * string :=
  match s with
  | EmptyString => ([], EmptyString)
  | String c s' =>
      match digit_val c with
      | Some d => let '(ds, rest) := take_digits s' in (d :: ds, rest)
      | None => ([], s)
      end
  end.

Definition digits_to_Z (ds : list Z) : Z :=
  fold_left (fun acc d => 10 * acc + d) ds 0.

(** [ExponentPart]: [e] or [E], an optional sign, at least one digit.  When
    it is not there the exponent is 0 and nothing is consumed. *)
Definition take_exponent (s : string) : Z * string :=
  match s with
  | String c s1 =>
      if Ascii.eqb c "e" || Ascii.eqb c "E" then
        let '(negative, s2) :=
          match s1 with
          | String c' s2 =>
              if Ascii.eqb c' "-" then (true, s2)
              else if Ascii.eqb c' "+" then (false, s2)
              else (false, s1)
          | EmptyString => (false, s1)
          end in
        match take_digits s2 with
        | ([], _) => (0, s)
        | (ds, rest) =>
            ((if negative then - digits_to_Z ds else digits_to_Z ds), rest)
        end
      else (0, s)
  | EmptyString => (0, s)
  end.

(** The rational [m * 10 ^ scale]. *)
Definition decimal_value (m scale : Z) : Q :=
  if 0 <=? scale then inject_Z (m * 10 ^ scale)
  else Qmake m (Z.to_pos (10 ^ (- scale))).

(** [StrUnsignedDecimalLiteral], longest prefix; the rest of the text is
    returned with the value. *)
Definition take_unsigned (s : string) : option (number * string) :=
  if String.prefix "Infinity" s then
    Some (Infinite false, substring 8 (String.length s - 8) s)
  else
    let '(ip, r1) := take_digits s in
    match r1 with
    | String "."%char r2 =>
        let '(fp, r3) := take_digits r2 in
        match ip, fp with
        | [], [] => None
        | _, _ =>
            let '(e, r4) := take_exponent r3 in
            Some (Finite (decimal_value (digits_to_Z (ip ++ fp))
                            (e - Z.of_nat (length fp))), r4)
        end
    | _ =>
        match ip with
        | [] => None
        | _ =>
            let '(e, r4) := take_exponent r1 in
            Some (Finite (decimal_value (digits_to_Z ip) e), r4)
        end
    end.

Definition negate (n : number) : number :=
  match n with
  | Finite q => Finite (Qopp q)
  | Infinite negative => Infinite (negb negative)
  end.

(** [StrDecimalLiteral], longest prefix. *)
Definition take_literal (s : string) : option (number * string) :=
  match s with
  | String c s' =>
      if Ascii.eqb c "-" then
        match take_unsigned s' with
        | Some (n, rest) => Some (negate n, rest)
        | None => None
        end
      else if Ascii.eqb c "+" then take_unsigned s'
      else take_unsigned s
  | EmptyString => None
  end.

(** [parseFloat(s)]; [None] is NaN. *)
Definition parseFloat (s : string) : option number :=
  match take_literal (trim_start s) with
  | Some (n, _) => Some n
  | None => None
  end.

(** *** Objects built by [parseCSV] *)

Inductive value :=
  | VUndefined
  | VString (s : string)
  | VNumber (n : number).

(** The own properties of an object, in insertion order: the order
    [Object.keys] lists them in, column names not being array indices. *)
Definition object : Type := list (string * value).

(** [o[key] = v] *)
Fixpoint obj_set (key : string) (v : value) (o : object) : object :=
  match o with
  | [] => [(key, v)]
  | (k, w) :: o' =>
      if String.eqb k key then (k, v) :: o' else (k, w) :: obj_set key v o'
  end.

(** [o[key]] *)
Fixpoint obj_get (key : string) (o : object) : value :=
  match o with
  | [] => VUndefined
  | (k, w) :: o' => if String.eqb k key then w else obj_get key o'
  end.

(** [Object.keys(o)] *)
Definition obj_keys (o : object) : list string := map fst o.

Record Parsed := mkParsed {
  data : list object;
  parseError : option string
}.

Definition numeric_columns : list string :=
  ["jumlah_terjual"; "harga_beli"; "harga_jual"; "total_penjualan";
   "total_biaya"; "laba"; "stok_sisa"].

Definition requiredHeaders : list string :=
  ["tanggal"; "nama_produk"; "jumlah_terjual"; "harga_beli"; "harga_jual";
   "total_penjualan"; "total_biaya"; "laba"; "stok_sisa"].

Definition empty_file_message : string :=
  "File CSV kosong atau hanya berisi header.".

Definition missing_headers_message (missingHeaders : list string) : string :=
  "Header CSV tidak valid. Kolom yang hilang: " +:+ join ", " missingHeaders.

Definition invalid_value_message (row : nat) (key : string) : string :=
  "Nilai tidak valid pada baris " +:+ pretty row +:+ ", kolom '" +:+ key
    +:+ "'. Harap periksa file CSV Anda.".

(** [String(values[i])]: a cell the row does not have is [undefined]. *)
Definition cell_text (cell : option string) : string :=
  match cell with
  | Some s => s
  | None => "undefined"
  end.

Definition cell_value (cell : option string) : value :=
  match cell with
  | Some s => VString s
  | None => VUndefined
  end.

(** [header.forEach((h, i) => ...)] on the cells [values] of row [index],
    from column [i] on; [inl] is the message of the [Error] thrown. *)
Fixpoint fill_entry (header : list string) (i : nat) (values : list string)
    (index : nat) (entry : object) : string + object :=
  match header with
  | [] => inr entry
  | key :: header' =>
      let cell := values !! i in
      if bool_decide (key ∈ numeric_columns) then
        match parseFloat (cell_text cell) with
        | None => inl (invalid_value_message (index + 2) key)
        | Some numValue =>
            fill_entry header' (S i) values index
              (obj_set key (VNumber numValue) entry)
        end
      else
        fill_entry header' (S i) values index
          (obj_set key (cell_value cell) entry)
  end.

(** [line.split(',').map(v => v.trim())] *)
Definition cells (line : string) : list string :=
  map trim (split comma line).

(** [text.trim().split('\n').filter(line => line.trim() !== '')] *)
Definition csv_lines (text : string) : list string :=
  List.filter (fun line => negb (is_empty (trim line)))
    (split newline (trim text)).

Section Codec.

(** The identifier [`id_csv_${Date.now()}_${Math.random()}_${index}`] drawn
    for the row [index]. *)
Variable csv_id : nat -> string.

(** [lines.slice(1).map((line, index) => ...)], rows from [index] on. *)
Fixpoint parse_rows (header : list string) (rows : list string)
    (index : nat) : string + list object :=
  match rows with
  | [] => inr []
  | line :: rest =>
      match fill_entry header 0 (cells line) index
              [("id", VString (csv_id index))] with
      | inl message => inl message
      | inr entry =>
          match parse_rows header rest (S index) with
          | inl message => inl message
          | inr entries => inr (entry :: entries)
          end
      end
  end.

Definition parseCSV (text : string) : Parsed :=
  let lines := csv_lines text in
  if (length lines <? 2)%nat then
    {| data := []; parseError := Some empty_file_message |}
  else
    let header := cells (hd EmptyString lines) in
    let missingHeaders :=
      List.filter (fun rh => negb (bool_decide (rh ∈ header)))
        requiredHeaders in
    if (0 <? length missingHeaders)%nat then
      {| data := [];
         parseError := Some (missing_headers_message missingHeaders) |}
    else
      match parse_rows header (tl lines) 0 with
      | inl message => {| data := []; parseError := Some message |}
      | inr entries => {| data := entries; parseError := None |}
      end.

(** [Number.prototype.toString], used by [join] on the cells of a row. *)
Variable number_to_string : number -> string.

Definition value_to_string (v : value) : string :=
  match v with
  | VUndefined => EmptyString
  | VString s => s
  | VNumber n => number_to_string n
  end.

Definition not_id (k : string) : bool := negb (String.eqb k "id").

(** The text [exportToCSV] hands to the download; [None] when it returns
    at once on an empty ledger. *)
Definition exportToCSV (rows : list object) : option string :=
  match rows with
  | [] => None
  | first :: _ =>
      let header := join "," (List.filter not_id (obj_keys first)) in
      let lines :=
        map (fun row =>
               join "," (map (fun kv => value_to_string kv.2)
                           (List.filter (fun kv => not_id kv.1) row)))
            rows in
      Some (join (String newline EmptyString) (header :: lines))
  end.

End Codec.

(** [entry as SalesData]: the record an object is read as, when its ten
    declared properties hold values of the declared types, the numbers being
    integers. *)
Definition as_string (v : value) : option string :=
  match v with
  | VString s => Some s
  | _ => None
  end.

Definition as_integer (v : value) : option Z :=
  match v with
  | VNumber (Finite q) =>
      let r := Qred q in
      if Pos.eqb (Qden r) 1 then Some (Qnum r) else None
  | _ => None
  end.

Definition as_SalesData (o : object) : option SalesData :=
  i ← as_string (obj_get "id" o);
  d ← as_string (obj_get "tanggal" o);
  p ← as_string (obj_get "nama_produk" o);
  q ← as_integer (obj_get "jumlah_terjual" o);
  hb ← as_integer (obj_get "harga_beli" o);
  hj ← as_integer (obj_get "harga_jual" o);
  tp ← as_integer (obj_get "total_penjualan" o);
  tb ← as_integer (obj_get "total_biaya" o);
  l ← as_integer (obj_get "laba" o);
  s ← as_integer (obj_get "stok_sisa" o);
  Some (mkSalesData i d p q hb hj tp tb l s).

Definition as_ledger (entries : list object) : option (list SalesData) :=
  mapM as_SalesData entries.

(** Lines joined by a line feed. *)
Definition unlines (ls : list string) : string :=
  join (String newline EmptyString) ls.

(** ** Vocabulary of the properties *)

(** The stock a product starts from: its entry, or 0 when it has none. *)
Definition opening (stocks : gmap string Z) (p : string) : Z :=
  default 0 (stocks !! p).

(** The effect of one transaction on the stock of its product. *)
Definition apply_transaction (stock : Z) (t : SalesData) : Z :=
  if jumlah_terjual t =? 0 then stok_sisa t else stock - jumlah_terjual t.

(** The stock of a product folded over some of its transactions. *)
Definition folded_stock (start : Z) (txs : list SalesData) : Z :=
  fold_left apply_transaction txs start.

Definition of_product (p : string) (l : list SalesData) : list SalesData :=
  filter (fun t => nama_produk t = p) l.

(** The sales of a product: its records with a quantity other than 0. *)
Definition sales_of (p : string) (l : list SalesData) : list SalesData :=
  filter (fun t => nama_produk t = p ∧ jumlah_terjual t ≠ 0) l.


(** A record with its [stok_sisa] blanked: what the engine does not own. *)
Definition erase_stok_sisa (t : SalesData) : SalesData := with_stok_sisa t 0.

(** The stock table as the loop sees it through [currentStocks[name]]. *)
Definition sale_fails (currentStocks : gmap string Z) (t : SalesData) : bool :=
  negb (jumlah_terjual t =? 0)
  && (opening currentStocks (nama_produk t) - jumlah_terjual t <? 0).

Definition stock_after (currentStocks : gmap string Z) (t : SalesData) : Z :=
  apply_transaction (opening currentStocks (nama_produk t)) t.

Definition ensure_entry (currentStocks : gmap string Z) (p : string)
    : gmap string Z :=
  match currentStocks !! p with
  | None => <[p := 0]> currentStocks
  | Some _ => currentStocks
  end.

Definition advance (currentStocks : gmap string Z) (t : SalesData)
    : gmap string Z :=
  <[nama_produk t := stock_after currentStocks t]>
    (ensure_entry currentStocks (nama_produk t)).

(** The records a run of the loop pushes when no sale fails. *)
Fixpoint emitted (l : list SalesData) (currentStocks : gmap string Z)
    : list SalesData :=
  match l with
  | [] => []
  | t :: l' =>
      with_stok_sisa t (stock_after currentStocks t)
        :: emitted l' (advance currentStocks t)
  end.

(** Whether the loop runs through [l] without a failing sale. *)
Fixpoint runs (l : list SalesData) (currentStocks : gmap string Z) : bool :=
  match l with
  | [] => true
  | t :: l' =>
      negb (sale_fails currentStocks t) && runs l' (advance currentStocks t)
  end.

(** The instant a record is dated at. *)
Definition date_of (getTime : string -> Z) (t : SalesData) : Z :=
  getTime (tanggal t).

(** Example records: a sale and a stock adjustment. *)
Definition sale_record (i d p : string) (q : Z) : SalesData :=
  mkSalesData i d p q 0 0 0 0 0 0.

Definition adjustment_record (i d p : string) (new_stock : Z) : SalesData :=
  mkSalesData i d p 0 0 0 0 0 0 new_stock.

(** The order a sort by [key] establishes. *)
Definition key_le {A : Type} (key : A -> Z) (a b : A) : Prop :=
  key a <= key b.

(** The header cells and the data lines [parseCSV] works on. *)
Definition csv_header (text : string) : list string :=
  cells (hd EmptyString (csv_lines text)).

Definition csv_rows (text : string) : list string := tl (csv_lines text).

Definition header_complete (text : string) : Prop :=
  Forall (fun rh => rh ∈ csv_header text) requiredHeaders.

(** A cell under a numeric column that [parseFloat] reads as NaN: missing,
    empty, or not starting with a decimal number. *)
Definition invalid_cell (header : list string) (line : string) (j : nat)
    (key : string) : Prop :=
  header !! j = Some key /\ key ∈ numeric_columns /\
  parseFloat (cell_text (cells line !! j)) = None.

(** A numeric value in the words of the specification: the whole cell is a
    decimal number. *)
Definition is_numeric_text (s : string) : bool :=
  match take_literal s with
  | Some (_, EmptyString) => true
  | _ => false
  end.

Definition non_numeric_cell (header : list string) (line : string) (j : nat)
    (key : string) : Prop :=
  header !! j = Some key /\ key ∈ numeric_columns /\
  exists c, cells line !! j = Some c /\ is_numeric_text c = false.

(** Two rows that differ at most in the cells under a [stok_sisa] column. *)
Fixpoint cells_agree (header v1 v2 : list string) : bool :=
  match v1, v2 with
  | [], [] => true
  | c1 :: v1', c2 :: v2' =>
      (match header with
       | h :: _ => String.eqb h "stok_sisa"
       | [] => false
       end || String.eqb c1 c2)
      && cells_agree (tl header) v1' v2'
  | _, _ => false
  end.

Fixpoint rows_agree (header rows1 rows2 : list string) : bool :=
  match rows1, rows2 with
  | [], [] => true
  | l1 :: rows1', l2 :: rows2' =>
      cells_agree header (cells l1) (cells l2)
      && rows_agree header rows1' rows2'
  | _, _ => false
  end.

(** Two CSV texts that are the same but for the values in the [stok_sisa]
    column. *)
Definition same_except_stok_sisa (text1 text2 : string) : bool :=
  match csv_lines text1, csv_lines text2 with
  | h1 :: rows1, h2 :: rows2 =>
      bool_decide (cells h1 = cells h2) && rows_agree (cells h1) rows1 rows2
  | [], [] => true
  | _, _ => false
  end.

(** Two objects with the same properties but for [stok_sisa]. *)
Definition agree_except_stok_sisa (e1 e2 : object) : Prop :=
  forall k, k <> "stok_sisa" -> obj_get k e1 = obj_get k e2.

(** Import followed by replay, as the upload handler chains them; [None]
    when the text does not parse or a row is not a well-typed record. *)
Definition import_and_replay (csv_id : nat -> string)
    (getTime : string -> Z) (text : string) (initialStocks : gmap string Z)
    : option Validated :=
  match parseError (parseCSV csv_id text) with
  | Some _ => None
  | None =>
      match as_ledger (data (parseCSV csv_id text)) with
      | Some newEntries =>
          Some (processAndValidateData getTime newEntries initialStocks)
      | None => None
      end
  end.

(** An identifier scheme of the shape [parseCSV] uses, for examples. *)
Definition example_csv_id (index : nat) : string := "id_csv_" +:+ pretty index.

Definition example_header : string :=
  "tanggal,nama_produk,jumlah_terjual,harga_beli,harga_jual,total_penjualan,total_biaya,laba,stok_sisa".

(** Example texts: one data line under the required header. *)
Definition example_text (line : string) : string :=
  unlines [example_header; line].

Definition example_text_extra : string :=
  unlines [example_header +:+ ",catatan";
           "2024-01-01,A,3,2,4,12,6,6,0,promo"].

(** A rendering of integers, for examples of the export. *)
Definition example_number_to_string (n : number) : string :=
  match as_integer (VNumber n) with
  | Some z => pretty z
  | None => "NaN"
  end.

Definition example_ledger : list SalesData :=
  [sale_record "s1" "2024-01-02" "A" 3;
   adjustment_record "a1" "2024-01-01" "A" 10].

(** ** The dashboard ([App]) *)

(** *** Objects used as tables

    A [Record<string, V>] whose enumeration order the code relies on: the
    own properties in insertion order, and [Object.entries] listing first
    the names that are array indices, ascending, then the others as they
    were inserted.  A name is taken not to be one that every object
    inherits ([constructor], [toString] and the like). *)

Definition table (V : Type) : Type := list (string * V).

(** [o[k]] *)
Fixpoint table_get {V : Type} (k : string) (o : table V) : option V :=
  match o with
  | [] => None
  | (k', v) :: o' => if String.eqb k' k then Some v else table_get k o'
  end.

(** [o[k] = v] *)
Fixpoint table_set {V : Type} (k : string) (v : V) (o : table V) : table V :=
  match o with
  | [] => [(k, v)]
  | (k', w) :: o' =>
      if String.eqb k' k then (k', v) :: o' else (k', w) :: table_set k v o'
  end.

(** The number a name is when it is an array index: a decimal numeral
    without a leading zero, below 2^32 - 1. *)
Definition array_index (k : string) : option Z :=
  match k with
  | EmptyString => None
  | String c rest =>
      match digits_val 0 k with
      | Some n =>
          if Ascii.eqb c "0" && negb (is_empty rest) then None
          else if n <? 4294967295 then Some n else None
      | None => None
      end
  end.

Definition is_array_index (k : string) : bool :=
  match array_index k with
  | Some _ => true
  | None => false
  end.

Definition by_array_index {V : Type} (a b : string * V) : Z :=
  default 0 (array_index a.1) - default 0 (array_index b.1).

(** [Object.entries(o)] *)
Definition table_entries {V : Type} (o : table V) : list (string * V) :=
  stable_sort by_array_index (List.filter (fun kv => is_array_index kv.1) o)
  ++ List.filter (fun kv => negb (is_array_index kv.1)) o.

(** [Object.fromEntries(entries)] *)
Definition table_from_entries {V : Type} (entries : list (string * V))
    : table V :=
  fold_left (fun o kv => table_set kv.1 kv.2 o) entries [].

(** *** The summary of the ledger *)


Record Summary := mkSummary {
  totalPenjualan : Z;
  totalLaba : Z;
  produkTerlaris : string;
  finalStockLevels : table Z
}.

Record ChartRow := mkChartRow {
  row_name : string;
  row_totalPenjualan : Z;
  row_totalLaba : Z
}.


Section Aggregates.

Variable getTime : string -> Z.

(** The first statement of the loop over [allData]: keep, for each product,
    the record dated last, a later record winning over an earlier one of the
    same date. *)
Definition latest_step (latestStock : table SalesData) (item : SalesData)
    : table SalesData :=
  match table_get (nama_produk item) latestStock with
  | None => table_set (nama_produk item) item latestStock
  | Some kept =>
      if getTime (tanggal kept) <=? getTime (tanggal item)
      then table_set (nama_produk item) item latestStock
      else latestStock
  end.

(** The second statement: add up the quantities above 0. *)
Definition sales_step (salesByProduct : table Z) (item : SalesData)
    : table Z :=
  if 0 <? jumlah_terjual item then
    table_set (nama_produk item)
      (default 0 (table_get (nama_produk item) salesByProduct)
       + jumlah_terjual item)
      salesByProduct
  else salesByProduct.

Definition summary_loop (allData : list SalesData)
    : table SalesData * table Z :=
  fold_left
    (fun acc item => (latest_step acc.1 item, sales_step acc.2 item))
    allData ([], []).

(** [(a, b) => a[1] > b[1] ? a : b] *)
Definition larger (a b : string * Z) : string * Z :=
  if b.2 <? a.2 then a else b.

(** The first [useMemo] of [App]. *)
Definition summary (allData : list SalesData) : Summary :=
  let '(latestStock, salesByProduct) := summary_loop allData in
  let finalStockLevels :=
    table_from_entries
      (map (fun kv => (nama_produk kv.2, stok_sisa kv.2))
         (table_entries latestStock)) in
  let totalPenjualan :=
    fold_left (fun acc item => acc + total_penjualan item) allData 0 in
  let totalLaba := fold_left (fun acc item => acc + laba item) allData 0 in
  let produkTerlaris :=
    match table_entries salesByProduct with
    | first :: rest => (fold_left larger rest first).1
    | [] => "N/A"
    end in
  {| totalPenjualan := totalPenjualan;
     totalLaba := totalLaba;
     produkTerlaris := produkTerlaris;
     finalStockLevels := finalStockLevels |}.

End Aggregates.

(** [chartData] *)
Definition chart_step (salesByProduct : table (Z * Z)) (item : SalesData)
    : table (Z * Z) :=
  let sums := default (0, 0) (table_get (nama_produk item) salesByProduct) in
  table_set (nama_produk item)
    (sums.1 + total_penjualan item, sums.2 + laba item) salesByProduct.

Definition chartData (allData : list SalesData) : list ChartRow :=
  map (fun kv => mkChartRow kv.1 kv.2.1 kv.2.2)
    (table_entries (fold_left chart_step allData [])).



(** *** The state of [App] and its handlers

    The two pieces of React state the ledger lives in, the error shown, and
    the two items of [localStorage]; an item holds the value last written
    to it, the JSON text of a ledger of integer records reading back as that
    ledger. *)

Record Dashboard := mkDashboard {
  allData : list SalesData;
  initialStocks : gmap string Z;
  errorShown : option string;
  storedData : option (list SalesData);
  storedStocks : option (gmap string Z)
}.

Section Handlers.

Variable getTime : string -> Z.

(** The effect run on the first render: what is shown after the stored
    items are read. *)
Definition load (storedData : option (list SalesData))
    (storedStocks : option (gmap string Z)) : Dashboard :=
  let data := default [] storedData in
  let stocks := default ∅ storedStocks in
  if (0 <? length data)%nat then
    let validated := processAndValidateData getTime data stocks in
    match error validated with
    | Some validationError =>
        {| allData := [];
           initialStocks := stocks;
           errorShown :=
             Some ("Data yang tersimpan tidak valid: " +:+ validationError);
           storedData := storedData;
           storedStocks := storedStocks |}
    | None =>
        {| allData := processedData validated;
           initialStocks := stocks;
           errorShown := None;
           storedData := storedData;
           storedStocks := storedStocks |}
    end
  else
    {| allData := [];
       initialStocks := stocks;
       errorShown := None;
       storedData := storedData;
       storedStocks := storedStocks |}.

Definition show_error (st : Dashboard) (message : string) : Dashboard :=
  {| allData := allData st;
     initialStocks := initialStocks st;
     errorShown := Some message;
     storedData := storedData st;
     storedStocks := storedStocks st |}.

(** [reader.onload] of [handleFileUpload], from the result of [parseCSV]
    on: [newEntries] and [parseError]. *)
Definition file_loaded (st : Dashboard) (newEntries : list SalesData)
    (parseError : option string) : Dashboard :=
  match parseError with
  | Some message => show_error st message
  | None =>
      let inferredStocks :=
        inferInitialStocks getTime newEntries (initialStocks st) in
      let combinedInitialStocks := inferredStocks ∪ initialStocks st in
      let combinedData := allData st ++ newEntries in
      let validated :=
        processAndValidateData getTime combinedData combinedInitialStocks in
      match error validated with
      | Some validationError => show_error st validationError
      | None =>
          {| allData := processedData validated;
             initialStocks := combinedInitialStocks;
             errorShown := None;
             storedData := Some (processedData validated);
             storedStocks := Some combinedInitialStocks |}
      end
  end.

(** [handleAddManualEntry]: the new state and the value returned to the
    form. *)
Definition handleAddManualEntry (st : Dashboard) (newEntry : SalesData)
    : Dashboard * option string :=
  let combinedData := allData st ++ [newEntry] in
  let validated :=
    processAndValidateData getTime combinedData (initialStocks st) in
  match error validated with
  | Some validationError => (st, Some validationError)
  | None =>
      ({| allData := processedData validated;
          initialStocks := initialStocks st;
          errorShown := None;
          storedData := Some (processedData validated);
          storedStocks := storedStocks st |}, None)
  end.

Definition handleUpdateInitialStocks (st : Dashboard)
    (newStocks : gmap string Z) : Dashboard :=
  let validated := processAndValidateData getTime (allData st) newStocks in
  match error validated with
  | Some validationError =>
      show_error st ("Stok awal tidak valid: " +:+ validationError)
  | None =>
      {| allData := processedData validated;
         initialStocks := newStocks;
         errorShown := None;
         storedData := Some (processedData validated);
         storedStocks := Some newStocks |}
  end.

Definition handleDeleteRow (st : Dashboard) (idToDelete : string)
    : Dashboard :=
  let filteredData :=
    List.filter (fun item => negb (String.eqb (id item) idToDelete))
      (allData st) in
  let validated :=
    processAndValidateData getTime filteredData (initialStocks st) in
  match error validated with
  | Some validationError =>
      show_error st
        ("Gagal menghapus baris: Aksi ini akan menyebabkan data tidak valid. "
         +:+ validationError)
  | None =>
      {| allData := processedData validated;
         initialStocks := initialStocks st;
         errorShown := None;
         storedData := Some (processedData validated);
         storedStocks := storedStocks st |}
  end.

(** [handleClearData]; [confirmed] is the answer to [window.confirm]. *)
Definition handleClearData (st : Dashboard) (confirmed : bool) : Dashboard :=
  if confirmed then
    {| allData := [];
       initialStocks := ∅;
       errorShown := None;
       storedData := None;
       storedStocks := None |}
  else st.

End Handlers.

(** What the user does to the dashboard. *)
Inductive Action :=
  | FileLoaded (newEntries : list SalesData) (parseError : option string)
  | AddManualEntry (newEntry : SalesData)
  | UpdateInitialStocks (newStocks : gmap string Z)
  | DeleteRow (idToDelete : string)
  | ClearData (confirmed : bool).

Definition act (getTime : string -> Z) (st : Dashboard) (a : Action)
    : Dashboard :=
  match a with
  | FileLoaded newEntries parseError =>
      file_loaded getTime st newEntries parseError
  | AddManualEntry newEntry => (handleAddManualEntry getTime st newEntry).1
  | UpdateInitialStocks newStocks =>
      handleUpdateInitialStocks getTime st newStocks
  | DeleteRow idToDelete => handleDeleteRow getTime st idToDelete
  | ClearData confirmed => handleClearData st confirmed
  end.

(** The ledger shown is the one the replay computes from itself and the
    opening stocks shown. *)
Definition validated_state (getTime : string -> Z) (st : Dashboard) : Prop :=
  processAndValidateData getTime (allData st) (initialStocks st)
  = {| processedData := allData st; error := None |}.



Definition revenue_of (p : string) (l : list SalesData) : Z :=
  foldr (fun t acc => total_penjualan t + acc) 0 (of_product p l).

Definition profit_of (p : string) (l : list SalesData) : Z :=
  foldr (fun t acc => laba t + acc) 0 (of_product p l).

(** A table names each property once. *)
Definition table_ok {V : Type} (o : table V) : Prop := NoDup (map fst o).

(** Every record of a table of records is filed under its product. *)
Definition filed_by_product (o : table SalesData) : Prop :=
  Forall (fun kv => nama_produk kv.2 = kv.1) o.





(** *** The manual entry form ([ManualEntryForm])

    Numbers a form field is read as: [None] is NaN.  As for the cells of a
    CSV text the values are exact, without the rounding of doubles. *)

Definition is_zero (n : number) : bool :=
  match n with
  | Finite q => Qnum q =? 0
  | Infinite _ => false
  end.

(** [n < 0] *)
Definition is_negative (n : number) : bool :=
  match n with
  | Finite q => Qnum q <? 0
  | Infinite negative => negative
  end.

(** [a * b] *)
Definition number_mul (a b : option number) : option number :=
  match a, b with
  | Some (Finite x), Some (Finite y) => Some (Finite (Qmult x y))
  | Some (Infinite s), Some y | Some y, Some (Infinite s) =>
      if is_zero y then None else Some (Infinite (xorb s (is_negative y)))
  | _, _ => None
  end.

(** [a - b] *)
Definition number_sub (a b : option number) : option number :=
  match a, b with
  | Some (Finite x), Some (Finite y) => Some (Finite (Qminus x y))
  | Some (Finite _), Some (Infinite s) => Some (Infinite (negb s))
  | Some (Infinite s), Some (Finite _) => Some (Infinite s)
  | Some (Infinite s), Some (Infinite s') =>
      if Bool.eqb s s' then None else Some (Infinite s)
  | _, _ => None
  end.

Definition zero : option number := Some (Finite (inject_Z 0)).

Record FormData := mkFormData {
  form_tanggal : string;
  form_nama_produk : string;
  form_jumlah_terjual : string;
  form_harga_beli : string;
  form_harga_jual : string;
  form_stok_sisa : string;
  form_entryType : string
}.

(** The object handed to [onAddEntry]. *)
Record NewEntry := mkNewEntry {
  entry_id : string;
  entry_tanggal : string;
  entry_nama_produk : string;
  entry_jumlah_terjual : option number;
  entry_harga_beli : option number;
  entry_harga_jual : option number;
  entry_total_penjualan : option number;
  entry_total_biaya : option number;
  entry_laba : option number;
  entry_stok_sisa : option number
}.

Definition is_NaN (n : option number) : bool :=
  match n with
  | Some _ => false
  | None => true
  end.

(** [n <= 0] and [n < 0]; both are false on NaN. *)
Definition le_zero (n : option number) : bool :=
  match n with
  | Some x => is_zero x || is_negative x
  | None => false
  end.

Definition lt_zero (n : option number) : bool :=
  match n with
  | Some x => is_negative x
  | None => false
  end.

(** [handleSubmit] of the form, up to the call of [onAddEntry]: the message
    given to [setError], or the entry handed over.  [manual_id] is the
    identifier [`id_manual_${Date.now()}_${Math.random()}`] drawn. *)
Definition handleSubmit (manual_id : string) (formData : FormData)
    : string + NewEntry :=
  let isSale := String.eqb (form_entryType formData) "sale" in
  let nama_produk := trim (form_nama_produk formData) in
  if is_empty nama_produk then inl "Nama produk tidak boleh kosong."
  else
    let jumlah_terjual :=
      if isSale then parseFloat (form_jumlah_terjual formData) else zero in
    let stok_sisa :=
      if isSale then zero else parseFloat (form_stok_sisa formData) in
    let harga_beli :=
      if isSale then parseFloat (form_harga_beli formData) else zero in
    let harga_jual :=
      if isSale then parseFloat (form_harga_jual formData) else zero in
    let rejected :=
      if isSale then
        if is_NaN jumlah_terjual || is_NaN harga_beli || is_NaN harga_jual
        then Some "Pastikan semua kolom angka diisi dengan benar untuk penjualan."
        else if le_zero jumlah_terjual
        then Some "Jumlah terjual harus lebih dari 0."
        else None
      else
        if is_NaN stok_sisa
        then Some "Jumlah stok untuk penyesuaian harus berupa angka."
        else if lt_zero stok_sisa
        then Some "Jumlah stok tidak boleh negatif."
        else None in
    match rejected with
    | Some message => inl message
    | None =>
        let total_penjualan :=
          if isSale then number_mul jumlah_terjual harga_jual else zero in
        let total_biaya :=
          if isSale then number_mul jumlah_terjual harga_beli else zero in
        let laba :=
          if isSale then number_sub total_penjualan total_biaya else zero in
        inr {| entry_id := manual_id;
               entry_tanggal := form_tanggal formData;
               entry_nama_produk := nama_produk;
               entry_jumlah_terjual := jumlah_terjual;
               entry_harga_beli := harga_beli;
               entry_harga_jual := harga_jual;
               entry_total_penjualan := total_penjualan;
               entry_total_biaya := total_biaya;
               entry_laba := laba;
               entry_stok_sisa := if isSale then zero else stok_sisa |}
    end.

(** [newEntry as SalesData], for an entry all of whose numbers are
    integers. *)
Definition entry_integer (n : option number) : option Z :=
  match n with
  | Some x => as_integer (VNumber x)
  | None => None
  end.

Definition entry_as_SalesData (e : NewEntry) : option SalesData :=
  q ← entry_integer (entry_jumlah_terjual e);
  hb ← entry_integer (entry_harga_beli e);
  hj ← entry_integer (entry_harga_jual e);
  tp ← entry_integer (entry_total_penjualan e);
  tb ← entry_integer (entry_total_biaya e);
  l ← entry_integer (entry_laba e);
  s ← entry_integer (entry_stok_sisa e);
  Some (mkSalesData (entry_id e) (entry_tanggal e) (entry_nama_produk e)
          q hb hj tp tb l s).

(** *** The opening stock manager ([InitialStockManager]) *)

(** [parseInt(s, 10)]; [None] is NaN. *)
Definition parseInt10 (s : string) : option Z :=
  let unsigned (r : string) : option Z :=
    match take_digits r with
    | ([], _) => None
    | (ds, _) => Some (digits_to_Z ds)
    end in
  match trim_start s with
  | String c r =>
      if Ascii.eqb c "-" then Z.opp <$> unsigned r
      else if Ascii.eqb c "+" then unsigned r
      else unsigned (String c r)
  | EmptyString => None
  end.

(** [handleAddStock] and [handleStockChange]: the table handed to
    [onUpdateStocks], or [None] when the handler does nothing. *)
Definition handleAddStock (stocks : gmap string Z)
    (newProduct newStock : string) : option (gmap string Z) :=
  let productName := trim newProduct in
  match parseInt10 newStock with
  | Some stockAmount =>
      if negb (is_empty productName) && (0 <=? stockAmount)
      then Some (<[productName := stockAmount]> stocks)
      else None
  | None => None
  end.

Definition handleStockChange (stocks : gmap string Z)
    (productName value : string) : option (gmap string Z) :=
  match parseInt10 value with
  | Some stockAmount =>
      if 0 <=? stockAmount
      then Some (<[productName := stockAmount]> stocks)
      else None
  | None => None
  end.

(** *** What [exportToCSV] writes and [parseCSV] reads back *)

Fixpoint has_char (c : ascii) (s : string) : bool :=
  match s with
  | EmptyString => false
  | String c' s' => Ascii.eqb c' c || has_char c s'
  end.

(** A cell that comes back as it was written: nothing to trim off it and
    no separator in it. *)
Definition clean_cell (s : string) : bool :=
  String.eqb (trim s) s && negb (has_char comma s)
  && negb (has_char newline s).

Section Exportable.

Variable number_to_string : number -> string.

(** A property whose value is written as a clean cell that reads back as
    the value: a number printed back to itself under a numeric column, a
    clean text under another. *)
Definition exportable_property (kv : string * value) : Prop :=
  clean_cell kv.1 = true /\
  match kv.2 with
  | VNumber n =>
      (kv.1 ∈ numeric_columns) /\
      clean_cell (number_to_string n) = true /\
      parseFloat (number_to_string n) = Some n
  | VString s => (kv.1 ∉ numeric_columns) /\ clean_cell s = true
  | VUndefined => False
  end.

(** An entry made of an [id] and of exportable properties under the names
    [header], in that order. *)
Definition exportable_entry (header : list string) (e : object) : Prop :=
  exists i props,
    e = ("id", i) :: props /\ map fst props = header /\
    Forall exportable_property props.

End Exportable.

(** The columns of a ledger that can be written and read back: each named
    once, none named [id], none named by an array index (whose property
    [Object.keys] would list before the others), the required ones among
    them. *)
Definition exportable_header (header : list string) : Prop :=
  NoDup header /\ ("id" ∉ header) /\
  Forall (fun k => is_array_index k = false) header /\
  Forall (fun rh => rh ∈ header) requiredHeaders.

(** *** Example states and entries *)

(** A dashboard showing the example ledger after its replay, stored. *)
Definition example_shown : list SalesData :=
  [adjustment_record "a1" "2024-01-01" "A" 10;
   with_stok_sisa (sale_record "s1" "2024-01-02" "A" 3) 7].

Definition example_dashboard : Dashboard :=
  {| allData := example_shown;
     initialStocks := ∅;
     errorShown := None;
     storedData := Some example_shown;
     storedStocks := Some ∅ |}.

Definition example_form : FormData :=
  {| form_tanggal := "2024-01-05";
     form_nama_produk := " Kopi ";
     form_jumlah_terjual := "3";
     form_harga_beli := "2";
     form_harga_jual := "4";
     form_stok_sisa := EmptyString;
     form_entryType := "sale" |}.

Definition example_integer (z : Z) : value := VNumber (Finite (inject_Z z)).

Definition example_entry : object :=
  [("id", VString "s1"); ("tanggal", VString "2024-01-02");
   ("nama_produk", VString "A"); ("jumlah_terjual", example_integer 3);
   ("harga_beli", example_integer 2); ("harga_jual", example_integer 4);
   ("total_penjualan", example_integer 12);
   ("total_biaya", example_integer 6); ("laba", example_integer 6);
   ("stok_sisa", example_integer 7)].

(** Splits a [Forall] over a list given in full into one goal by element. *)
Ltac forall_each :=
  repeat first [ apply List.Forall_nil | apply List.Forall_cons ].

(** ** The ledger on doubles

    The [number] fields of the code are IEEE 754 doubles.  [spec_float] at a
    precision of 53 bits is that format, and [SFadd], [SFsub] and
    [SFcompare] are its operations, rounding to nearest, ties to even.  The
    integer model above is what this one computes on integers that stay
    below 2^53 in magnitude (the refinement lemmas below); outside that
    range, on decimal quantities to begin with, results are rounded and the
    two part. *)

Definition double : Type := spec_float.

(** The literal [0]. *)
Definition double_zero : double := S754_zero false.

(** [a + b], [a - b], [a < b], [a === b], [Math.abs(a)] *)
Definition double_add : double -> double -> double := SFadd 53 1024.
Definition double_sub : double -> double -> double := SFsub 53 1024.
Definition double_lt : double -> double -> bool := SFltb.
Definition double_eq : double -> double -> bool := SFeqb.
Definition double_abs : double -> double := SFabs.

(** The double an integer is read as: the integer itself below 2^53 in
    magnitude, the nearest double above. *)
Definition double_of_Z (z : Z) : double := binary_normalize 53 1024 z 0 false.

(** The double nearest to a rational: what a decimal literal is read as. *)
Definition double_of_Q (q : Q) : double :=
  match Qnum q with
  | Z0 => double_zero
  | Zpos n =>
      let '(m, e, l) :=
        SFdiv_core_binary 53 1024 (Zpos n) 0 (Zpos (Qden q)) 0 in
      binary_round_aux 53 1024 false m e l
  | Zneg n =>
      let '(m, e, l) :=
        SFdiv_core_binary 53 1024 (Zpos n) 0 (Zpos (Qden q)) 0 in
      binary_round_aux 53 1024 true m e l
  end.

(** The double [parseFloat] returns for the number it read (a literal [-0]
    is read as [0]). *)
Definition to_double (n : number) : double :=
  match n with
  | Finite q => double_of_Q q
  | Infinite negative => S754_infinity negative
  end.


(** The double of a positive integer below 2^53 under a sign: the mantissa
    shifted to 53 bits. *)
Definition canonical (s : bool) (p : positive) : double :=
  S754_finite s (Pos.shiftl p (Z.to_N (53 - Zpos (Pos.size p))))
    (Zpos (Pos.size p) - 53).

Definition sign_of (z : Z) : bool := z <? 0.

Module Double.

Record SalesData := mkSalesData {
  id : string;
  tanggal : string;
  nama_produk : string;
  jumlah_terjual : double;
  harga_beli : double;
  harga_jual : double;
  total_penjualan : double;
  total_biaya : double;
  laba : double;
  stok_sisa : double
}.

(** [{ ...trans, stok_sisa: v }] *)
Definition with_stok_sisa (trans : SalesData) (v : double) : SalesData :=
  {| id := id trans;
     tanggal := tanggal trans;
     nama_produk := nama_produk trans;
     jumlah_terjual := jumlah_terjual trans;
     harga_beli := harga_beli trans;
     harga_jual := harga_jual trans;
     total_penjualan := total_penjualan trans;
     total_biaya := total_biaya trans;
     laba := laba trans;
     stok_sisa := v |}.

Record Validated := mkValidated {
  processedData : list SalesData;
  error : option string
}.

Section Ledger.

Variable getTime : string -> Z.

(** [Number.prototype.toString], in the template of the error message. *)
Variable number_to_string : double -> string.

Definition by_tanggal (a b : SalesData) : Z :=
  getTime (tanggal a) - getTime (tanggal b).

(** *** [inferInitialStocks] *)

Definition group_step (productTransactions : gmap string (list SalesData))
    (trans : SalesData) : gmap string (list SalesData) :=
  let name := nama_produk trans in
  <[name := default [] (productTransactions !! name) ++ [trans]]>
    productTransactions.

Definition group_by_product (transactions : list SalesData)
    : gmap string (list SalesData) :=
  fold_left group_step transactions ∅.

Fixpoint min_stock_loop (productTrans : list SalesData)
    (stockLevel minStockLevel : double) : double :=
  match productTrans with
  | [] => minStockLevel
  | trans :: rest =>
      let stockLevel := double_sub stockLevel (jumlah_terjual trans) in
      let minStockLevel :=
        if double_lt stockLevel minStockLevel then stockLevel
        else minStockLevel in
      min_stock_loop rest stockLevel minStockLevel
  end.

Definition inferred_stock (productTrans : list SalesData) : double :=
  double_abs
    (min_stock_loop (stable_sort by_tanggal productTrans)
       double_zero double_zero).

Definition inferInitialStocks (transactions : list SalesData)
    (existingInitialStocks : gmap string double) : gmap string double :=
  inferred_stock <$>
    filter (fun kv => existingInitialStocks !! kv.1 = None)
           (group_by_product transactions).

(** *** [processAndValidateData] *)

Definition insufficient_stock_message (productName tanggal : string)
    (stockBeforeTransaction jumlah : double) : string :=
  "Stok tidak mencukupi untuk " +:+ dquote +:+ productName +:+ dquote
    +:+ " pada tanggal " +:+ tanggal
    +:+ ". Stok saat itu: " +:+ number_to_string stockBeforeTransaction
    +:+ ", jumlah terjual: " +:+ number_to_string jumlah
    +:+ ". Stok tidak boleh negatif.".

Fixpoint replay_loop (sortedData : list SalesData)
    (currentStocks : gmap string double) (processed : list SalesData)
    : Validated :=
  match sortedData with
  | [] => {| processedData := processed; error := None |}
  | trans :: rest =>
      let productName := nama_produk trans in
      let currentStocks :=
        match currentStocks !! productName with
        | None => <[productName := double_zero]> currentStocks
        | Some _ => currentStocks
        end in
      let stockBeforeTransaction :=
        default double_zero (currentStocks !! productName) in
      if double_eq (jumlah_terjual trans) double_zero then
        let stockAfterTransaction := stok_sisa trans in
        replay_loop rest
          (<[productName := stockAfterTransaction]> currentStocks)
          (processed ++ [with_stok_sisa trans stockAfterTransaction])
      else
        let stockAfterTransaction :=
          double_sub stockBeforeTransaction (jumlah_terjual trans) in
        if double_lt stockAfterTransaction double_zero then
          {| processedData := [];
             error := Some (insufficient_stock_message productName
                              (tanggal trans) stockBeforeTransaction
                              (jumlah_terjual trans)) |}
        else
          replay_loop rest
            (<[productName := stockAfterTransaction]> currentStocks)
            (processed ++ [with_stok_sisa trans stockAfterTransaction])
  end.

Definition processAndValidateData (data : list SalesData)
    (initialStocks : gmap string double) : Validated :=
  let sortedData := stable_sort by_tanggal data in
  replay_loop sortedData initialStocks [].

End Ledger.

Definition of_product (p : string) (l : list SalesData) : list SalesData :=
  filter (fun t => nama_produk t = p) l.

(** *** Vocabulary of the properties on doubles *)

(** The stock a product starts from: its entry, or 0 when it has none. *)
Definition opening (stocks : gmap string double) (p : string) : double :=
  default double_zero (stocks !! p).

(** The effect of one transaction on the stock of its product. *)
Definition apply_transaction (stock : double) (t : SalesData) : double :=
  if double_eq (jumlah_terjual t) double_zero then stok_sisa t
  else double_sub stock (jumlah_terjual t).

(** The stock of a product folded over some of its transactions. *)
Definition folded_stock (start : double) (txs : list SalesData) : double :=
  fold_left apply_transaction txs start.

Definition sale_fails (currentStocks : gmap string double) (t : SalesData)
    : bool :=
  negb (double_eq (jumlah_terjual t) double_zero)
  && double_lt (double_sub (opening currentStocks (nama_produk t))
                  (jumlah_terjual t)) double_zero.

Definition stock_after (currentStocks : gmap string double) (t : SalesData)
    : double :=
  apply_transaction (opening currentStocks (nama_produk t)) t.

Definition ensure_entry (currentStocks : gmap string double) (p : string)
    : gmap string double :=
  match currentStocks !! p with
  | None => <[p := double_zero]> currentStocks
  | Some _ => currentStocks
  end.

Definition advance (currentStocks : gmap string double) (t : SalesData)
    : gmap string double :=
  <[nama_produk t := stock_after currentStocks t]>
    (ensure_entry currentStocks (nama_produk t)).

(** Whether the loop runs through [l] without a failing sale. *)
Fixpoint runs (l : list SalesData) (currentStocks : gmap string double)
    : bool :=
  match l with
  | [] => true
  | t :: l' =>
      negb (sale_fails currentStocks t) && runs l' (advance currentStocks t)
  end.

(** The records a run of the loop pushes when no sale fails. *)
Fixpoint emitted (l : list SalesData) (currentStocks : gmap string double)
    : list SalesData :=
  match l with
  | [] => []
  | t :: l' =>
      with_stok_sisa t (stock_after currentStocks t)
        :: emitted l' (advance currentStocks t)
  end.

(** A stock less the quantities of some records, taken off one at a time
    in the order of the list. *)
Definition less_each (start : double) (l : list SalesData) : double :=
  fold_left (fun stock t => double_sub stock (jumlah_terjual t)) l start.

(** *** The summary of the ledger *)

Record Summary := mkSummary {
  totalPenjualan : double;
  totalLaba : double;
  produkTerlaris : string;
  finalStockLevels : table double
}.

(** [x || 0] on a number that may be missing: 0, -0 and NaN are falsy. *)
Definition or_zero (x : option double) : double :=
  match x with
  | Some (S754_zero _) | Some S754_nan | None => double_zero
  | Some v => v
  end.

Section Aggregates.

Variable getTime : string -> Z.

Definition latest_step (latestStock : table SalesData) (item : SalesData)
    : table SalesData :=
  match table_get (nama_produk item) latestStock with
  | None => table_set (nama_produk item) item latestStock
  | Some kept =>
      if getTime (tanggal kept) <=? getTime (tanggal item)
      then table_set (nama_produk item) item latestStock
      else latestStock
  end.

Definition sales_step (salesByProduct : table double) (item : SalesData)
    : table double :=
  if double_lt double_zero (jumlah_terjual item) then
    table_set (nama_produk item)
      (double_add (or_zero (table_get (nama_produk item) salesByProduct))
         (jumlah_terjual item))
      salesByProduct
  else salesByProduct.

Definition summary_loop (allData : list SalesData)
    : table SalesData * table double :=
  fold_left
    (fun acc item => (latest_step acc.1 item, sales_step acc.2 item))
    allData ([], []).

(** [(a, b) => a[1] > b[1] ? a : b] *)
Definition larger (a b : string * double) : string * double :=
  if double_lt b.2 a.2 then a else b.

Definition summary (allData : list SalesData) : Summary :=
  let '(latestStock, salesByProduct) := summary_loop allData in
  let finalStockLevels :=
    table_from_entries
      (map (fun kv => (nama_produk kv.2, stok_sisa kv.2))
         (table_entries latestStock)) in
  let totalPenjualan :=
    fold_left (fun acc item => double_add acc (total_penjualan item))
      allData double_zero in
  let totalLaba :=
    fold_left (fun acc item => double_add acc (laba item))
      allData double_zero in
  let produkTerlaris :=
    match table_entries salesByProduct with
    | first :: rest => (fold_left larger rest first).1
    | [] => "N/A"
    end in
  {| totalPenjualan := totalPenjualan;
     totalLaba := totalLaba;
     produkTerlaris := produkTerlaris;
     finalStockLevels := finalStockLevels |}.

End Aggregates.

(** *** [chartData] *)

Record ChartRow := mkChartRow {
  row_name : string;
  row_totalPenjualan : double;
  row_totalLaba : double
}.

Definition chart_step (salesByProduct : table (double * double))
    (item : SalesData) : table (double * double) :=
  let sums :=
    default (double_zero, double_zero)
      (table_get (nama_produk item) salesByProduct) in
  table_set (nama_produk item)
    (double_add sums.1 (total_penjualan item), double_add sums.2 (laba item))
    salesByProduct.

Definition chartData (allData : list SalesData) : list ChartRow :=
  map (fun kv => mkChartRow kv.1 kv.2.1 kv.2.2)
    (table_entries (fold_left chart_step allData [])).

(** *** The state of [App] and the upload handler *)

Record Dashboard := mkDashboard {
  allData : list SalesData;
  initialStocks : gmap string double;
  errorShown : option string;
  storedData : option (list SalesData);
  storedStocks : option (gmap string double)
}.

Definition show_error (st : Dashboard) (message : string) : Dashboard :=
  {| allData := allData st;
     initialStocks := initialStocks st;
     errorShown := Some message;
     storedData := storedData st;
     storedStocks := storedStocks st |}.

(** [reader.onload] of [handleFileUpload], from the result of [parseCSV]
    on. *)
Definition file_loaded (getTime : string -> Z)
    (number_to_string : double -> string) (st : Dashboard)
    (newEntries : list SalesData) (parseError : option string) : Dashboard :=
  match parseError with
  | Some message => show_error st message
  | None =>
      let inferredStocks :=
        inferInitialStocks getTime newEntries (initialStocks st) in
      let combinedInitialStocks := inferredStocks ∪ initialStocks st in
      let combinedData := allData st ++ newEntries in
      let validated :=
        processAndValidateData getTime number_to_string combinedData
          combinedInitialStocks in
      match error validated with
      | Some validationError => show_error st validationError
      | None =>
          {| allData := processedData validated;
             initialStocks := combinedInitialStocks;
             errorShown := None;
             storedData := Some (processedData validated);
             storedStocks := Some combinedInitialStocks |}
      end
  end.

(** [entry as SalesData], the numbers being the doubles [parseFloat]
    returned. *)
Definition as_number (v : value) : option double :=
  match v with
  | VNumber n => Some (to_double n)
  | _ => None
  end.

Definition as_SalesData (o : object) : option SalesData :=
  i ← as_string (obj_get "id" o);
  d ← as_string (obj_get "tanggal" o);
  p ← as_string (obj_get "nama_produk" o);
  q ← as_number (obj_get "jumlah_terjual" o);
  hb ← as_number (obj_get "harga_beli" o);
  hj ← as_number (obj_get "harga_jual" o);
  tp ← as_number (obj_get "total_penjualan" o);
  tb ← as_number (obj_get "total_biaya" o);
  l ← as_number (obj_get "laba" o);
  s ← as_number (obj_get "stok_sisa" o);
  Some (mkSalesData i d p q hb hj tp tb l s).

Definition as_ledger (entries : list object) : option (list SalesData) :=
  mapM as_SalesData entries.

(** Import followed by replay, as the upload handler chains them; [None]
    when the text does not parse. *)
Definition import_and_replay (csv_id : nat -> string)
    (getTime : string -> Z) (number_to_string : double -> string)
    (text : string) (initialStocks : gmap string double)
    : option Validated :=
  match parseError (parseCSV csv_id text) with
  | Some _ => None
  | None =>
      match as_ledger (data (parseCSV csv_id text)) with
      | Some newEntries =>
          Some (processAndValidateData getTime number_to_string newEntries
                  initialStocks)
      | None => None
      end
  end.

End Double.

(** A record of integers as the record of doubles the code holds. *)
Definition as_doubles (t : SalesData) : Double.SalesData :=
  {| Double.id := id t;
     Double.tanggal := tanggal t;
     Double.nama_produk := nama_produk t;
     Double.jumlah_terjual := double_of_Z (jumlah_terjual t);
     Double.harga_beli := double_of_Z (harga_beli t);
     Double.harga_jual := double_of_Z (harga_jual t);
     Double.total_penjualan := double_of_Z (total_penjualan t);
     Double.total_biaya := double_of_Z (total_biaya t);
     Double.laba := double_of_Z (laba t);
     Double.stok_sisa := double_of_Z (stok_sisa t) |}.





(** A ledger of integers of magnitude at most [B]. *)
Definition record_within (B : Z) (t : SalesData) : Prop :=
  Z.abs (jumlah_terjual t) <= B /\ Z.abs (harga_beli t) <= B /\
  Z.abs (harga_jual t) <= B /\ Z.abs (total_penjualan t) <= B /\
  Z.abs (total_biaya t) <= B /\ Z.abs (laba t) <= B /\
  Z.abs (stok_sisa t) <= B.

Definition stocks_within (B : Z) (S : gmap string Z) : Prop :=
  map_Forall (fun _ v => Z.abs v <= B) S.

(** Small enough for every stock and every sum a pass over the ledger
    computes to stay below 2^53: [n] records of magnitude at most [B] with
    [2 * (n + 1) * B < 2^53]. *)
Definition small_ledger (B : Z) (data : list SalesData) : Prop :=
  0 <= B /\ Forall (record_within B) data /\
  2 * (Z.of_nat (length data) + 1) * B < 2 ^ 53.

(** Example records with decimal quantities, and a rendering of doubles for
    the examples: integers as integers, anything else as [NaN]. *)
Definition decimal_sale (i d p : string) (q : Q) : Double.SalesData :=
  Double.mkSalesData i d p (double_of_Q q) double_zero double_zero
    double_zero double_zero double_zero double_zero.


Definition decimal_amount (i d p : string) (amount : Q) : Double.SalesData :=
  Double.mkSalesData i d p (double_of_Z 1) double_zero double_zero
    (double_of_Q amount) double_zero (double_of_Q amount) double_zero.

Definition double_to_Z (x : double) : option Z :=
  match x with
  | S754_zero _ => Some 0
  | S754_finite s m e =>
      if (0 <=? e) then Some ((if s then Zneg m else Zpos m) * 2 ^ e)
      else if Z.eqb (Zpos m mod 2 ^ (- e)) 0
      then Some ((if s then Zneg m else Zpos m) / 2 ^ (- e))
      else None
  | _ => None
  end.

Definition example_double_to_string (x : double) : string :=
  match double_to_Z x with
  | Some z => pretty z
  | None => "NaN"
  end.

(** An example ledger with amounts, out of date order. *)
Definition example_sales : list SalesData :=
  [mkSalesData "s1" "2024-01-03" "A" 3 2 4 12 6 6 0;
   adjustment_record "a1" "2024-01-01" "A" 10;
   mkSalesData "s2" "2024-01-02" "B" 1 5 9 9 5 4 0;
   adjustment_record "b1" "2024-01-01" "B" 2].

(** ** Properties of the sort *)

Section StableSortFacts.
Context {A : Type} (cmp : A -> A -> Z) (key : A -> Z).
Hypothesis cmp_key : forall a b, cmp a b = key a - key b.

Lemma sort_insert_perm a l : Permutation (sort_insert cmp a l) (a :: l).
Proof.
  induction l as [|b l IH]; simpl; [done|].
  destruct (cmp a b <=? 0); [done|].
  rewrite IH. apply perm_swap.
Qed.

Lemma stable_sort_perm l : Permutation (stable_sort cmp l) l.
Proof.
  induction l as [|a l IH]; simpl; [done|].
  by rewrite sort_insert_perm, IH.
Qed.

Lemma sort_insert_sorted a l :
  StronglySorted (key_le key) l -> StronglySorted (key_le key) (sort_insert cmp a l).
Proof.
  induction 1 as [|b l Hl IH Hb]; simpl.
  - repeat constructor.
  - rewrite cmp_key. destruct (Z.leb_spec (key a - key b) 0) as [Hab|Hab].
    + constructor; [by constructor|].
      constructor; [unfold key_le; lia|].
      eapply Forall_impl; [exact Hb|]. unfold key_le. intros; simpl in *; lia.
    + constructor; [done|].
      rewrite sort_insert_perm. constructor; [unfold key_le; lia|done].
Qed.

Lemma stable_sort_sorted l : StronglySorted (key_le key) (stable_sort cmp l).
Proof.
  induction l; simpl; [constructor|by apply sort_insert_sorted].
Qed.

(** A list already in order is left as it is. *)
Lemma stable_sort_fixpoint l :
  StronglySorted (key_le key) l -> stable_sort cmp l = l.
Proof.
  induction 1 as [|a l Hl IH Ha]; simpl; [done|].
  rewrite IH. destruct l as [|b l]; simpl; [done|].
  rewrite cmp_key. inversion Ha as [|? ? Hab _]; subst.
  unfold key_le in Hab.
  destruct (Z.leb_spec (key a - key b) 0); [done|lia].
Qed.

(** Filtering commutes with insertion into a sorted list, hence with the
    sort. *)
Lemma filter_sort_insert (P : A -> Prop) `{!forall x, Decision (P x)} a l :
  StronglySorted (key_le key) l ->
  filter P (sort_insert cmp a l) =
    if decide (P a) then sort_insert cmp a (filter P l) else filter P l.
Proof.
  induction 1 as [|b l Hl IH Hb]; simpl.
  - rewrite filter_cons, filter_nil. by destruct (decide (P a)).
  - rewrite cmp_key. destruct (Z.leb_spec (key a - key b) 0) as [Hab|Hab].
    + rewrite filter_cons. destruct (decide (P a)) as [Ha|Ha]; [|done].
      destruct (filter P (b :: l)) as [|c m] eqn:Hf; simpl; [done|].
      assert (c ∈ b :: l) as Hc.
      { assert (c ∈ filter P (b :: l)) as Hc by (rewrite Hf; left).
        by apply list_elem_of_filter in Hc as [_ ?]. }
      assert (key b <= key c).
      { apply elem_of_cons in Hc as [->|Hc]; [lia|].
        rewrite Forall_forall in Hb. by apply Hb. }
      rewrite cmp_key. destruct (Z.leb_spec (key a - key c) 0); [done|lia].
    + rewrite !(filter_cons _ b), IH.
      destruct (decide (P a)), (decide (P b)); simpl; try done.
      rewrite cmp_key. destruct (Z.leb_spec (key a - key b) 0); [lia|done].
Qed.

Lemma filter_stable_sort (P : A -> Prop) `{!forall x, Decision (P x)} l :
  filter P (stable_sort cmp l) = stable_sort cmp (filter P l).
Proof.
  induction l as [|a l IH]; simpl; [done|].
  rewrite filter_sort_insert by apply stable_sort_sorted.
  rewrite filter_cons, IH. by destruct (decide (P a)).
Qed.

(** Stability: the records of one key keep the order of the input. *)
Lemma stable_sort_stable d l :
  filter (fun a => key a = d) (stable_sort cmp l) =
  filter (fun a => key a = d) l.
Proof.
  rewrite filter_stable_sort. apply stable_sort_fixpoint.
  induction l as [|a l IH]; [rewrite filter_nil; constructor|].
  rewrite filter_cons. destruct (decide (key a = d)) as [Ha|Ha]; [|done].
  constructor; [done|].
  apply Forall_forall. intros b Hb.
  apply list_elem_of_filter in Hb as [Hb _]. unfold key_le. lia.
Qed.
End StableSortFacts.

(** ** Properties of the replay loop *)

Section ReplayFacts.

Lemma opening_ensure_entry cs p p' :
  opening (ensure_entry cs p) p' = opening cs p'.
Proof.
  unfold opening, ensure_entry. destruct (cs !! p) eqn:E; [done|].
  destruct (decide (p = p')) as [<-|Hne].
  - by rewrite lookup_insert_eq, E.
  - by rewrite lookup_insert_ne.
Qed.

Lemma opening_advance cs t p :
  opening (advance cs t) p =
    if decide (nama_produk t = p) then stock_after cs t else opening cs p.
Proof.
  unfold advance. destruct (decide (nama_produk t = p)) as [<-|Hne].
  - unfold opening. by rewrite lookup_insert_eq.
  - unfold opening at 1. rewrite lookup_insert_ne by done.
    apply opening_ensure_entry.
Qed.

(** One turn of the loop. *)
Lemma replay_loop_cons t l cs acc :
  replay_loop (t :: l) cs acc =
    if sale_fails cs t then
      {| processedData := [];
         error := Some (insufficient_stock_message (nama_produk t)
                          (tanggal t) (opening cs (nama_produk t))
                          (jumlah_terjual t)) |}
    else
      replay_loop l (advance cs t)
        (acc ++ [with_stok_sisa t (stock_after cs t)]).
Proof.
  simpl. fold (ensure_entry cs (nama_produk t)).
  fold (opening (ensure_entry cs (nama_produk t)) (nama_produk t)).
  rewrite opening_ensure_entry.
  unfold sale_fails, advance, stock_after, apply_transaction.
  destruct (jumlah_terjual t =? 0); simpl; [done|].
  by destruct (opening cs (nama_produk t) - jumlah_terjual t <? 0).
Qed.

Lemma runs_app l1 l2 cs :
  runs (l1 ++ l2) cs = runs l1 cs && runs l2 (fold_left advance l1 cs).
Proof.
  revert cs. induction l1 as [|t l1 IH]; intros cs; simpl; [done|].
  rewrite IH. by rewrite andb_assoc.
Qed.

Lemma emitted_app l1 l2 cs :
  emitted (l1 ++ l2) cs =
    emitted l1 cs ++ emitted l2 (fold_left advance l1 cs).
Proof.
  revert cs. induction l1 as [|t l1 IH]; intros cs; simpl; [done|].
  by rewrite IH.
Qed.

Lemma emitted_length l cs : length (emitted l cs) = length l.
Proof. revert cs. induction l; intros; simpl; auto. Qed.

(** A run without a failing sale returns what it pushed. *)
Lemma replay_loop_runs l cs acc :
  runs l cs = true ->
  replay_loop l cs acc =
    {| processedData := acc ++ emitted l cs; error := None |}.
Proof.
  revert cs acc. induction l as [|t l IH]; intros cs acc Hr.
  - simpl. by rewrite app_nil_r.
  - rewrite replay_loop_cons. simpl in Hr.
    apply andb_true_iff in Hr as [Hf Hr].
    apply negb_true_iff in Hf. rewrite Hf, IH by done.
    simpl. by rewrite <- app_assoc.
Qed.

(** Otherwise it stops at the first failing sale and returns nothing. *)
Lemma replay_loop_stops l cs :
  runs l cs = false ->
  exists pre t suf,
    l = pre ++ t :: suf /\ runs pre cs = true /\
    sale_fails (fold_left advance pre cs) t = true /\
    forall acc,
      replay_loop l cs acc =
        {| processedData := [];
           error := Some (insufficient_stock_message (nama_produk t)
                            (tanggal t)
                            (opening (fold_left advance pre cs)
                               (nama_produk t))
                            (jumlah_terjual t)) |}.
Proof.
  revert cs. induction l as [|t l IH]; intros cs Hr; [done|].
  simpl in Hr. destruct (sale_fails cs t) eqn:Hf.
  - exists [], t, l. repeat split; [done|].
    intros acc. by rewrite replay_loop_cons, Hf.
  - simpl in Hr. destruct (IH _ Hr) as (pre & u & suf & -> & Hp & Hu & Hres).
    exists (t :: pre), u, suf. repeat split.
    + simpl. by rewrite Hf, Hp.
    + done.
    + intros acc. rewrite replay_loop_cons, Hf. apply Hres.
Qed.

Lemma replay_loop_error l cs acc :
  error (replay_loop l cs acc) = None <-> runs l cs = true.
Proof.
  destruct (runs l cs) eqn:Hr.
  - by rewrite replay_loop_runs.
  - destruct (replay_loop_stops _ _ Hr) as (pre & t & suf & _ & _ & _ & Hres).
    rewrite Hres. simpl. split; discriminate.
Qed.

(** The table after a run holds, for each product, the stock folded over
    that product's records. *)
Lemma opening_fold_advance l cs p :
  opening (fold_left advance l cs) p =
    folded_stock (opening cs p) (of_product p l).
Proof.
  revert cs. induction l as [|t l IH]; intros cs; simpl; [done|].
  rewrite IH, opening_advance. unfold of_product. rewrite filter_cons.
  destruct (decide (nama_produk t = p)) as [Hp|Hp]; [|done].
  simpl. unfold folded_stock, stock_after. by rewrite Hp.
Qed.

Lemma stock_after_folded pre cs t :
  stock_after (fold_left advance pre cs) t =
    folded_stock (opening cs (nama_produk t))
      (of_product (nama_produk t) (pre ++ [t])).
Proof.
  unfold stock_after. rewrite opening_fold_advance.
  unfold of_product. rewrite filter_app, filter_cons_True by done.
  rewrite filter_nil. unfold folded_stock. by rewrite fold_left_app.
Qed.

Lemma sale_fails_false_nonneg cs t :
  sale_fails cs t = false ->
  (jumlah_terjual t = 0 -> 0 <= stok_sisa t) ->
  0 <= stock_after cs t.
Proof.
  unfold sale_fails, stock_after, apply_transaction. intros Hf Hadj.
  destruct (Z.eqb_spec (jumlah_terjual t) 0) as [Hq|Hq]; [auto|].
  simpl in Hf. lia.
Qed.

(** Non-negativity along a run, given that the adjustments themselves are
    not negative. *)
Lemma runs_nonnegative l cs :
  runs l cs = true ->
  (forall t, t ∈ l -> jumlah_terjual t = 0 -> 0 <= stok_sisa t) ->
  forall pre suf p, l = pre ++ suf -> of_product p pre <> [] ->
    0 <= folded_stock (opening cs p) (of_product p pre).
Proof.
  intros Hr Hadj pre. induction pre as [|t pre IH] using rev_ind;
    intros suf p -> Hne; [done|].
  rewrite <- app_assoc in Hr, Hadj. simpl in Hr, Hadj.
  unfold of_product in *. rewrite filter_app, filter_cons, filter_nil in *.
  destruct (decide (nama_produk t = p)) as [Hp|Hp].
  - rewrite runs_app in Hr. apply andb_true_iff in Hr as [_ Hr].
    simpl in Hr. apply andb_true_iff in Hr as [Hf _].
    apply negb_true_iff in Hf.
    apply sale_fails_false_nonneg in Hf.
    + rewrite stock_after_folded in Hf. unfold of_product in Hf.
      rewrite filter_app, filter_cons_True, filter_nil in Hf by done.
      by rewrite Hp in Hf.
    + apply Hadj. apply elem_of_app. right. left.
  - rewrite app_nil_r in *. eapply (IH (t :: suf)); [|done].
    by rewrite <- app_assoc.
Qed.

Lemma replay_loop_app pre l cs acc :
  runs pre cs = true ->
  replay_loop (pre ++ l) cs acc =
    replay_loop l (fold_left advance pre cs) (acc ++ emitted pre cs).
Proof.
  revert cs acc. induction pre as [|t pre IH]; intros cs acc Hr; simpl app.
  - simpl. by rewrite app_nil_r.
  - simpl in Hr. apply andb_true_iff in Hr as [Hf Hr].
    apply negb_true_iff in Hf. rewrite replay_loop_cons, Hf, IH by done.
    simpl. by rewrite <- app_assoc.
Qed.

(** What the loop computes from a record does not depend on the
    [stok_sisa] the loop itself wrote. *)
Lemma with_stok_sisa_twice t v w :
  with_stok_sisa (with_stok_sisa t v) w = with_stok_sisa t w.
Proof. done. Qed.

Lemma sale_fails_with_stok_sisa cs t v :
  sale_fails cs (with_stok_sisa t v) = sale_fails cs t.
Proof. done. Qed.

Lemma stock_after_emitted cs t :
  stock_after cs (with_stok_sisa t (stock_after cs t)) = stock_after cs t.
Proof.
  unfold stock_after, apply_transaction. simpl.
  by destruct (jumlah_terjual t =? 0).
Qed.

Lemma advance_emitted cs t :
  advance cs (with_stok_sisa t (stock_after cs t)) = advance cs t.
Proof. unfold advance. by rewrite stock_after_emitted. Qed.

Lemma emitted_emitted l cs : emitted (emitted l cs) cs = emitted l cs.
Proof.
  revert cs. induction l as [|t l IH]; intros cs; simpl; [done|].
  by rewrite stock_after_emitted, advance_emitted, with_stok_sisa_twice, IH.
Qed.

Lemma runs_emitted l cs : runs (emitted l cs) cs = runs l cs.
Proof.
  revert cs. induction l as [|t l IH]; intros cs; simpl; [done|].
  by rewrite sale_fails_with_stok_sisa, advance_emitted, IH.
Qed.

Lemma elem_of_emitted l cs t' :
  t' ∈ emitted l cs -> exists t v, t ∈ l /\ t' = with_stok_sisa t v.
Proof.
  revert cs. induction l as [|t l IH]; intros cs; simpl.
  - by intros ?%elem_of_nil.
  - intros [->|H]%elem_of_cons.
    + eexists t, _. split; [left|done].
    + destruct (IH _ H) as (u & v & ? & ?). exists u, v. split; [by right|done].
Qed.

Lemma emitted_sorted (key : string -> Z) l cs :
  StronglySorted (key_le (date_of key)) l ->
  StronglySorted (key_le (date_of key)) (emitted l cs).
Proof.
  intros Hs. revert cs. induction Hs as [|a l Hl IH Ha]; intros cs; simpl.
  - constructor.
  - constructor; [apply IH|].
    apply Forall_forall. intros t' (t & v & Ht & ->)%elem_of_emitted.
    rewrite Forall_forall in Ha. apply (Ha t Ht).
Qed.

Lemma map_erase_emitted l cs :
  map erase_stok_sisa (emitted l cs) = map erase_stok_sisa l.
Proof.
  revert cs. induction l as [|t l IH]; intros cs; simpl; [done|].
  by rewrite IH.
Qed.

Lemma map_id_emitted l cs : map id (emitted l cs) = map id l.
Proof.
  revert cs. induction l as [|t l IH]; intros cs; simpl; [done|].
  by rewrite IH.
Qed.

(** Filtering on anything but [stok_sisa] selects the same positions
    before and after the loop. *)
Lemma filter_emitted (P : SalesData -> Prop) `{!forall t, Decision (P t)}
    l cs :
  (forall t v, P (with_stok_sisa t v) <-> P t) ->
  map erase_stok_sisa (filter P (emitted l cs)) =
  map erase_stok_sisa (filter P l).
Proof.
  intros HP. revert cs. induction l as [|t l IH]; intros cs; simpl; [done|].
  rewrite !filter_cons.
  destruct (decide (P (with_stok_sisa t (stock_after cs t)))) as [H1|H1],
           (decide (P t)) as [H2|H2]; simpl; rewrite ?IH; try done.
  - by apply HP in H1.
  - by apply (HP t (stock_after cs t)) in H2.
Qed.

(** The last record pushed for a product carries the stock folded over
    all its records. *)
Lemma last_of_product_emitted l cs p r :
  last (of_product p (emitted l cs)) = Some r ->
  stok_sisa r = folded_stock (opening cs p) (of_product p l).
Proof.
  induction l as [|t l IH] using rev_ind; [done|].
  rewrite emitted_app. simpl. unfold of_product in *.
  rewrite !filter_app, !filter_cons, !filter_nil. simpl.
  destruct (decide (nama_produk t = p)) as [Hp|Hp].
  - rewrite last_snoc. intros [= <-]. simpl.
    rewrite stock_after_folded. unfold of_product.
    by rewrite filter_app, filter_cons_True, filter_nil, Hp.
  - by rewrite !app_nil_r.
Qed.



(** A prefix of the selected records is the selection of a prefix. *)
Lemma filter_prefix (P : SalesData -> Prop) `{!forall t, Decision (P t)}
    l pre suf :
  filter P l = pre ++ suf ->
  exists l1 l2, l = l1 ++ l2 /\ filter P l1 = pre /\ filter P l2 = suf.
Proof.
  revert pre. induction l as [|t l IH]; intros pre.
  - rewrite filter_nil. intros [-> ->]%eq_sym%app_eq_nil. by exists [], [].
  - rewrite filter_cons. destruct (decide (P t)) as [Ht|Ht].
    + destruct pre as [|u pre]; simpl.
      * intros <-. exists [], (t :: l). by rewrite filter_cons_True.
      * intros [= <- Hl]. destruct (IH _ Hl) as (l1 & l2 & -> & <- & <-).
        exists (t :: l1), l2. by rewrite filter_cons_True.
    + intros Hl. destruct (IH _ Hl) as (l1 & l2 & -> & <- & <-).
      exists (t :: l1), l2. by rewrite filter_cons_False.
Qed.

Lemma emitted_nonnegative l cs :
  runs l cs = true ->
  (forall t, t ∈ l -> jumlah_terjual t = 0 -> 0 <= stok_sisa t) ->
  Forall (fun t => 0 <= stok_sisa t) (emitted l cs).
Proof.
  revert cs. induction l as [|t l IH]; intros cs Hr Hadj; simpl.
  - constructor.
  - simpl in Hr. apply andb_true_iff in Hr as [Hf Hr].
    apply negb_true_iff in Hf. constructor.
    + simpl. apply sale_fails_false_nonneg; [done|]. apply Hadj. left.
    + apply IH; [done|]. intros u Hu. apply Hadj. by right.
Qed.

(** A run goes through exactly when every sale comes to a stock that
    covers it, the stock being the one folded over the earlier records of
    the product. *)
Lemma runs_covered l cs :
  (forall l1 u l2, l = l1 ++ u :: l2 -> jumlah_terjual u <> 0 ->
     0 <= folded_stock (opening cs (nama_produk u))
            (of_product (nama_produk u) l1) - jumlah_terjual u) ->
  runs l cs = true.
Proof.
  induction l as [|u l IH] using rev_ind; intros Hcov; [done|].
  rewrite runs_app. apply andb_true_iff. split.
  - apply IH. intros l1 v l2 -> Hv.
    apply (Hcov l1 v (l2 ++ [u])); [|done]. by rewrite <- app_assoc.
  - simpl. rewrite andb_true_r. apply negb_true_iff.
    unfold sale_fails. rewrite opening_fold_advance.
    destruct (Z.eqb_spec (jumlah_terjual u) 0) as [|Hq]; [done|]. simpl.
    apply Z.ltb_ge. by apply (Hcov l u []).
Qed.

End ReplayFacts.

(** ** The ledger replay engine *)

Section ReplayProperties.

Variable getTime : string -> Z.

Local Abbreviation sorted_by_date := (stable_sort (by_tanggal getTime)).

Lemma by_tanggal_key a b :
  by_tanggal getTime a b = date_of getTime a - date_of getTime b.
Proof. done. Qed.

Lemma replay_runs data S :
  error (processAndValidateData getTime data S) = None <->
  runs (sorted_by_date data) S = true.
Proof. apply replay_loop_error. Qed.

Lemma replay_success data S :
  error (processAndValidateData getTime data S) = None ->
  processAndValidateData getTime data S =
    {| processedData := emitted (sorted_by_date data) S; error := None |}.
Proof.
  intros Hr%replay_runs. unfold processAndValidateData.
  by rewrite replay_loop_runs.
Qed.

(** Non-negativity of the replayed ledger, for ledgers whose adjustment
    records carry a stock that is not negative (the precondition the replay
    does not check): after a successful replay
    the stock folded over every non-empty prefix of a product's records is
    at least 0, and so is every [stok_sisa] returned. *)
Theorem replay_nonnegative_given_adjustments data S :
  (forall t, t ∈ data -> jumlah_terjual t = 0 -> 0 <= stok_sisa t) ->
  error (processAndValidateData getTime data S) = None ->
  (forall p pre suf,
      of_product p (sorted_by_date data) = pre ++ suf -> pre <> [] ->
      0 <= folded_stock (opening S p) pre) /\
  Forall (fun t => 0 <= stok_sisa t)
    (processedData (processAndValidateData getTime data S)).
Proof.
  intros Hadj Hok. pose proof Hok as Hr%replay_runs.
  assert (forall t, t ∈ sorted_by_date data ->
                    jumlah_terjual t = 0 -> 0 <= stok_sisa t) as Hadj'.
  { intros t Ht. apply Hadj. revert Ht.
    apply elem_of_Permutation_proper. symmetry. apply stable_sort_perm. }
  split.
  - intros p pre suf Hsplit Hne.
    apply filter_prefix in Hsplit as (l1 & l2 & Hl & <- & <-).
    by eapply runs_nonnegative.
  - rewrite (replay_success _ _ Hok). simpl.
    by apply emitted_nonnegative.
Qed.

(** Atomic failure on the integer model: when, in date order, [t] is the
    first sale that the stock of its product does not cover, the call
    returns no record at all and an error built from the product, the date,
    the stock just before the sale and the quantity asked for. *)
Lemma first_uncovered_sale_fails data S pre t suf :
  sorted_by_date data = pre ++ t :: suf ->
  (forall l1 u l2, pre = l1 ++ u :: l2 -> jumlah_terjual u <> 0 ->
     0 <= folded_stock (opening S (nama_produk u))
            (of_product (nama_produk u) l1) - jumlah_terjual u) ->
  jumlah_terjual t <> 0 ->
  folded_stock (opening S (nama_produk t)) (of_product (nama_produk t) pre)
    - jumlah_terjual t < 0 ->
  processAndValidateData getTime data S =
    {| processedData := [];
       error := Some (insufficient_stock_message (nama_produk t) (tanggal t)
                        (folded_stock (opening S (nama_produk t))
                           (of_product (nama_produk t) pre))
                        (jumlah_terjual t)) |}.
Proof.
  intros Hsplit Hpre%runs_covered Hq Hneg.
  unfold processAndValidateData. rewrite Hsplit.
  rewrite replay_loop_app, replay_loop_cons by done.
  unfold sale_fails. rewrite opening_fold_advance.
  destruct (Z.eqb_spec (jumlah_terjual t) 0); [done|]. simpl.
  by destruct (Z.ltb_spec
    (folded_stock (opening S (nama_produk t))
       (of_product (nama_produk t) pre) - jumlah_terjual t) 0); [|lia].
Qed.

(** C4. Idempotence: replaying the output of a successful replay with the
    same opening stocks returns that same output. *)
Theorem replay_idempotent data S :
  error (processAndValidateData getTime data S) = None ->
  processAndValidateData getTime
    (processedData (processAndValidateData getTime data S)) S =
  processAndValidateData getTime data S.
Proof.
  intros Hok. pose proof Hok as Hr%replay_runs.
  rewrite (replay_success _ _ Hok). simpl.
  unfold processAndValidateData at 1.
  rewrite (stable_sort_fixpoint _ (date_of getTime) by_tanggal_key).
  - by rewrite !replay_loop_runs, emitted_emitted by (by rewrite ?runs_emitted).
  - apply emitted_sorted.
    apply (stable_sort_sorted _ (date_of getTime) by_tanggal_key).
Qed.


(** C7. Frame and normalisation: a successful replay returns the records
    of the input, each unchanged but for [stok_sisa], as many as there were
    and with the same identifiers, in ascending order of date, the records
    of one date in the order the input had them. *)
Theorem replay_frame data S :
  error (processAndValidateData getTime data S) = None ->
  let out := processedData (processAndValidateData getTime data S) in
  Permutation (map erase_stok_sisa out) (map erase_stok_sisa data) /\
  length out = length data /\
  Permutation (map id out) (map id data) /\
  StronglySorted (key_le (date_of getTime)) out /\
  (forall d,
      map erase_stok_sisa (filter (fun t => date_of getTime t = d) out) =
      map erase_stok_sisa (filter (fun t => date_of getTime t = d) data)).
Proof.
  intros Hok out. subst out. rewrite (replay_success _ _ Hok). simpl.
  pose proof (stable_sort_perm (by_tanggal getTime) data) as Hperm.
  repeat split.
  - rewrite map_erase_emitted. by apply Permutation_map.
  - rewrite emitted_length. by apply Permutation_length.
  - rewrite map_id_emitted. by apply Permutation_map.
  - apply emitted_sorted.
    apply (stable_sort_sorted _ (date_of getTime) by_tanggal_key).
  - intros d. rewrite filter_emitted by done.
    by rewrite (stable_sort_stable _ (date_of getTime) by_tanggal_key).
Qed.

End ReplayProperties.

(** ** Stock inference *)

Section InferenceProperties.

Variable getTime : string -> Z.

Local Abbreviation sorted_by_date := (stable_sort (by_tanggal getTime)).

(** The grouping loop collects, under each name, the records of that name
    in the order of the input. *)
Lemma group_fold_lookup l (m : gmap string (list SalesData)) p :
  fold_left group_step l m !! p =
    match of_product p l with
    | [] => m !! p
    | _ :: _ => Some (default [] (m !! p) ++ of_product p l)
    end.
Proof.
  revert m. induction l as [|t l IH]; intros m; simpl; [done|].
  rewrite IH. unfold of_product. rewrite filter_cons. unfold group_step.
  destruct (decide (nama_produk t = p)) as [Hp|Hp].
  - rewrite Hp, lookup_insert_eq. simpl.
    destruct (filter _ l); simpl; [done|]. by rewrite <- app_assoc.
  - by rewrite lookup_insert_ne.
Qed.

Lemma group_by_product_lookup T p :
  group_by_product T !! p =
    match of_product p T with
    | [] => None
    | _ :: _ => Some (of_product p T)
    end.
Proof.
  unfold group_by_product. rewrite group_fold_lookup, lookup_empty.
  by destruct (of_product p T).
Qed.

Lemma infer_lookup T known p :
  inferInitialStocks getTime T known !! p =
    match known !! p, of_product p T with
    | None, _ :: _ => Some (inferred_stock getTime (of_product p T))
    | _, _ => None
    end.
Proof.
  unfold inferInitialStocks.
  rewrite lookup_fmap, map_lookup_filter, group_by_product_lookup.
  destruct (of_product p T) as [|t l]; simpl.
  - by destruct (known !! p).
  - rewrite option_guard_decide. simpl.
    destruct (known !! p); by case_decide.
Qed.

(** C9. Inference adds only new keys: a key of the map it returns has no
    entry in the known opening stocks and names a product of the input. *)
Theorem infer_only_new_products T known k v :
  inferInitialStocks getTime T known !! k = Some v ->
  known !! k = None /\ exists t, t ∈ T /\ nama_produk t = k.
Proof.
  rewrite infer_lookup.
  destruct (known !! k); [done|].
  destruct (of_product k T) as [|t l] eqn:Hl; [done|]. intros _.
  split; [done|]. exists t.
  assert (t ∈ of_product k T) as Ht by (rewrite Hl; left).
  apply list_elem_of_filter in Ht as [? ?]. done.
Qed.

(** The lowest level the inner loop reports never exceeds the one it
    started with. *)
Lemma min_stock_loop_le l a m : min_stock_loop l a m <= m.
Proof.
  revert a m. induction l as [|t l IH]; intros a m; simpl; [lia|].
  destruct (Z.ltb_spec (a - jumlah_terjual t) m).
  - etrans; [apply IH|lia].
  - apply IH.
Qed.

(** The inner loop measures exactly what the replay of the sales needs:
    from a stock [s0 + a], with [m] the lowest level seen so far. *)
Lemma min_stock_loop_runs p l cs s0 a m :
  Forall (fun t => nama_produk t = p) l ->
  m <= a ->
  opening cs p = s0 + a ->
  runs (filter (fun t => jumlah_terjual t <> 0) l) cs = true /\ 0 <= s0 + m
  <-> 0 <= s0 + min_stock_loop l a m.
Proof.
  intros Hl. revert cs a m.
  induction Hl as [|t l Ht Hl IH]; intros cs a m Hm Hcs.
  - rewrite filter_nil. simpl. intuition.
  - rewrite filter_cons. simpl.
    destruct (decide (jumlah_terjual t <> 0)) as [Hq|Hq].
    + simpl. unfold sale_fails. rewrite Ht, Hcs.
      destruct (Z.eqb_spec (jumlah_terjual t) 0) as [|_]; [done|]. simpl.
      rewrite <- (IH (advance cs t) (a - jumlah_terjual t)).
      * destruct (Z.ltb_spec (s0 + a - jumlah_terjual t) 0),
                 (Z.ltb_spec (a - jumlah_terjual t) m); simpl;
          intuition (try discriminate; lia).
      * destruct (Z.ltb_spec (a - jumlah_terjual t) m); lia.
      * rewrite opening_advance, decide_True by done.
        unfold stock_after, apply_transaction. rewrite Ht, Hcs.
        destruct (Z.eqb_spec (jumlah_terjual t) 0); [done|lia].
    + assert (jumlah_terjual t = 0) as -> by lia.
      rewrite Z.sub_0_r.
      destruct (Z.ltb_spec a m); [lia|]. by apply IH.
Qed.

Lemma sales_of_sorted p T :
  sorted_by_date (sales_of p T) =
    filter (fun t => jumlah_terjual t <> 0) (sorted_by_date (of_product p T)).
Proof.
  rewrite (filter_stable_sort _ (date_of getTime)) by done.
  unfold sales_of, of_product. f_equal.
  rewrite list_filter_filter. apply list_filter_iff. intros t. tauto.
Qed.

(** Inference minimality on the integer model: for a product of the input
    that has no known opening stock, the inferred value is a non-negative
    integer with which the replay of the product's sales succeeds, and with
    every smaller non-negative opening stock that replay fails. *)
Lemma infer_minimal T known p :
  known !! p = None ->
  (exists t, t ∈ T /\ nama_produk t = p) ->
  exists v,
    inferInitialStocks getTime T known !! p = Some v /\ 0 <= v /\
    (forall S, S !! p = Some v ->
       error (processAndValidateData getTime (sales_of p T) S) = None) /\
    (forall S v', S !! p = Some v' -> 0 <= v' < v ->
       error (processAndValidateData getTime (sales_of p T) S) <> None).
Proof.
  intros Hknown (t & Ht & Hp).
  exists (inferred_stock getTime (of_product p T)).
  assert (Forall (fun u => nama_produk u = p)
            (sorted_by_date (of_product p T))) as Hall.
  { apply Forall_forall. intros u Hu.
    eapply elem_of_Permutation_proper in Hu; [|symmetry; apply stable_sort_perm].
    by apply list_elem_of_filter in Hu as [? _]. }
  pose proof (min_stock_loop_le (sorted_by_date (of_product p T)) 0 0) as Hle.
  unfold inferred_stock. repeat split.
  - rewrite infer_lookup, Hknown.
    destruct (of_product p T) as [|u l] eqn:Hl; [|done].
    assert (t ∈ of_product p T) as Hin by (by apply list_elem_of_filter).
    rewrite Hl in Hin. by apply elem_of_nil in Hin.
  - lia.
  - intros S HS. apply replay_runs. rewrite sales_of_sorted.
    eapply (min_stock_loop_runs p _ S _ 0 0); [done|done| |].
    + unfold opening. rewrite HS. simpl. rewrite Z.add_0_r. reflexivity.
    + lia.
  - intros S v' HS Hv' Hok%replay_runs. rewrite sales_of_sorted in Hok.
    assert (0 <= v' + min_stock_loop (sorted_by_date (of_product p T)) 0 0).
    { eapply (min_stock_loop_runs p _ S v' 0 0); [done|done| |].
      - unfold opening. rewrite HS. simpl. lia.
      - split; [done|lia]. }
    lia.
Qed.

End InferenceProperties.

(** ** The CSV codec *)

Section ObjectFacts.

Lemma obj_get_set k k' v o :
  obj_get k (obj_set k' v o) = if decide (k' = k) then v else obj_get k o.
Proof.
  induction o as [|[k0 w] o IH]; simpl.
  - destruct (String.eqb_spec k' k), (decide (k' = k)); done.
  - destruct (String.eqb_spec k0 k') as [->|Hk0]; simpl.
    + destruct (String.eqb_spec k' k), (decide (k' = k)); done.
    + rewrite IH. destruct (String.eqb_spec k0 k) as [->|]; [|done].
      by rewrite decide_False by congruence.
Qed.


End ObjectFacts.

Section RowFacts.

(** A row either fills its entry, every numeric cell being a number, or
    throws at an invalid cell, naming the row and the column. *)
Lemma fill_entry_cases header i values index entry :
  (exists e, fill_entry header i values index entry = inr e /\
     forall j key, header !! j = Some key -> key ∈ numeric_columns ->
       parseFloat (cell_text (values !! (i + j)%nat)) <> None)
  \/ (exists j key, header !! j = Some key /\ key ∈ numeric_columns /\
        parseFloat (cell_text (values !! (i + j)%nat)) = None /\
        fill_entry header i values index entry =
          inl (invalid_value_message (index + 2) key)).
Proof.
  revert i entry. induction header as [|key header IH]; intros i entry; simpl.
  - left. eexists. split; [done|]. intros j k Hj. by destruct j.
  - case_bool_decide as Hnum.
    + destruct (parseFloat (cell_text (values !! i))) as [n|] eqn:Hpf.
      * destruct (IH (S i) (obj_set key (VNumber n) entry))
          as [(e & He & Hall)|(j & k & Hj & Hk & Hbad & He)].
        -- left. exists e. split; [done|]. intros [|j] k Hj Hk.
           ++ simplify_eq/=. rewrite Nat.add_0_r. congruence.
           ++ rewrite Nat.add_succ_r. by apply (Hall j k).
        -- right. exists (S j), k. rewrite Nat.add_succ_r. done.
      * right. exists 0%nat, key. rewrite Nat.add_0_r. done.
    + destruct (IH (S i) (obj_set key (cell_value (values !! i)) entry))
        as [(e & He & Hall)|(j & k & Hj & Hk & Hbad & He)].
      * left. exists e. split; [done|]. intros [|j] k Hj Hk.
        -- by simplify_eq/=.
        -- rewrite Nat.add_succ_r. by apply (Hall j k).
      * right. exists (S j), k. rewrite Nat.add_succ_r. done.
Qed.












End RowFacts.

Section CodecProperties.

Variable csv_id : nat -> string.
Variable number_to_string : number -> string.

(** The rows either all fill their entries, or the first invalid cell in
    reading order stops the parse. *)
Lemma parse_rows_cases header rows index :
  (exists entries,
      parse_rows csv_id header rows index = inr entries /\
      length entries = length rows /\
      (forall r line, rows !! r = Some line ->
         exists e, entries !! r = Some e /\
           fill_entry header 0 (cells line) (index + r)
             [("id", VString (csv_id (index + r)%nat))] = inr e) /\
      (forall r line j key, rows !! r = Some line ->
         ~ invalid_cell header line j key))
  \/ (exists r line j key,
        rows !! r = Some line /\ invalid_cell header line j key /\
        parse_rows csv_id header rows index =
          inl (invalid_value_message (index + r + 2) key)).
Proof.
  revert index. induction rows as [|line rows IH]; intros index; simpl.
  - left. exists []. repeat split; intros; done.
  - destruct (fill_entry_cases header 0 (cells line) index
                [("id", VString (csv_id index))])
      as [(e & He & Hall)|(j & key & Hj & Hkey & Hbad & He)].
    + rewrite He.
      destruct (IH (S index))
        as [(es & Hes & Hlen & Hrows & Hok)|(r & l & j & key & Hr & Hbad & Hes)].
      * left. exists (e :: es). rewrite Hes. repeat split.
        -- simpl. by rewrite Hlen.
        -- intros [|r] l Hr; simpl in *.
           ++ simplify_eq. exists e. by rewrite Nat.add_0_r.
           ++ rewrite Nat.add_succ_r. by apply Hrows.
        -- intros [|r] l j key Hr (Hj & Hkey & Hbad); simpl in *.
           ++ simplify_eq. by apply (Hall j key).
           ++ by apply (Hok r l j key).
      * right. exists (S r), l, j, key. rewrite Hes.
        split; [done|]. split; [done|]. do 2 f_equal. lia.
    + right. exists 0%nat, line, j, key. rewrite He, Nat.add_0_r.
      repeat split; done.
Qed.

Lemma no_missing_headers (header : list string) :
  Forall (fun rh => rh ∈ header) requiredHeaders ->
  List.filter (fun rh => negb (bool_decide (rh ∈ header))) requiredHeaders = [].
Proof.
  induction 1 as [|rh l Hrh _ IH]; simpl; [done|].
  by rewrite bool_decide_eq_true_2.
Qed.

(** With a complete header and at least one data line, the result of
    [parseCSV] is that of the rows. *)
Lemma parseCSV_rows text :
  header_complete text -> csv_rows text <> [] ->
  parseCSV csv_id text =
    match parse_rows csv_id (csv_header text) (csv_rows text) 0 with
    | inl message => {| data := []; parseError := Some message |}
    | inr entries => {| data := entries; parseError := None |}
    end.
Proof.
  unfold header_complete, csv_header, csv_rows, parseCSV.
  intros Hh Hrows. destruct (csv_lines text) as [|h [|line rows]]; try done.
  by rewrite (no_missing_headers _ Hh).
Qed.

Lemma parseCSV_no_rows text :
  csv_rows text = [] ->
  parseCSV csv_id text = {| data := []; parseError := Some empty_file_message |}.
Proof.
  unfold csv_rows, parseCSV. by destruct (csv_lines text) as [|h [|line rows]].
Qed.

Lemma empty_file_message_is_not_invalid_value row key :
  empty_file_message <> invalid_value_message row key.
Proof. done. Qed.


(** C8, the invalid cells being those [parseFloat] reads as NaN.
    Numeric-cell validation of [parseCSV], for a text whose header has all
    the required columns: the row-and-column error is returned, with no
    record, exactly when some data line has an invalid cell, and it names a
    row and a column where there is one. *)
Theorem parseCSV_numeric_cells text :
  header_complete text ->
  ((exists r line j key,
       csv_rows text !! r = Some line /\
       invalid_cell (csv_header text) line j key) ->
    exists r line j key,
       csv_rows text !! r = Some line /\
       invalid_cell (csv_header text) line j key /\
       parseCSV csv_id text =
         {| data := [];
            parseError := Some (invalid_value_message (r + 2) key) |}) /\
  (forall row key,
      parseError (parseCSV csv_id text)
        = Some (invalid_value_message row key) ->
      data (parseCSV csv_id text) = [] /\
      exists r line j key',
        csv_rows text !! r = Some line /\
        invalid_cell (csv_header text) line j key').
Proof.
  intros Hh. split.
  - intros (r & line & j & key & Hr & Hbad).
    assert (csv_rows text <> []) as Hne by (by destruct (csv_rows text)).
    rewrite (parseCSV_rows _ Hh Hne).
    destruct (parse_rows_cases (csv_header text) (csv_rows text) 0)
      as [(es & _ & _ & _ & Hok)|(r' & l' & j' & key' & Hr' & Hbad' & ->)].
    + by destruct (Hok r line j key).
    + by exists r', l', j', key'.
  - intros row key. destruct (csv_rows text) as [|l0 rows] eqn:Hrows.
    + rewrite parseCSV_no_rows by done. simpl. intros Hm. exfalso.
      apply (empty_file_message_is_not_invalid_value row key). congruence.
    + rewrite parseCSV_rows by (by rewrite ?Hrows). rewrite Hrows.
      destruct (parse_rows_cases (csv_header text) (l0 :: rows) 0)
        as [(es & -> & _)|(r' & l' & j' & key' & Hr' & Hbad' & ->)];
        [done|].
      simpl. intros _. split; [done|]. by exists r', l', j', key'.
Qed.



End CodecProperties.

(** ** Import followed by replay *)

Section ImportProperties.

Variable csv_id : nat -> string.
Variable getTime : string -> Z.

Lemma cells_agree_lookup header v1 v2 j :
  cells_agree header v1 v2 = true ->
  header !! j <> Some "stok_sisa" -> v1 !! j = v2 !! j.
Proof.
  revert header v2 j. induction v1 as [|c1 v1 IH]; intros header [|c2 v2] j;
    simpl; try done.
  intros [Hc Hrest]%andb_true_iff Hj. destruct j as [|j]; simpl.
  - destruct header as [|h header]; simpl in *.
    + by apply String.eqb_eq in Hc as ->.
    + apply orb_true_iff in Hc as [Hc|Hc].
      * apply String.eqb_eq in Hc as ->. done.
      * by apply String.eqb_eq in Hc as ->.
  - apply (IH (tl header)); [done|]. by destruct header.
Qed.

Lemma rows_agree_lookup header rows1 rows2 :
  rows_agree header rows1 rows2 = true ->
  length rows1 = length rows2 /\
  forall r l1 l2, rows1 !! r = Some l1 -> rows2 !! r = Some l2 ->
    cells_agree header (cells l1) (cells l2) = true.
Proof.
  revert rows2. induction rows1 as [|l1 rows1 IH]; intros [|l2 rows2];
    simpl; try done.
  intros [Hc Hrest]%andb_true_iff. destruct (IH _ Hrest) as [Hlen Hall].
  split; [by rewrite Hlen|]. intros [|r] m1 m2; simpl.
  - by intros [= <-] [= <-].
  - apply Hall.
Qed.

(** Rows that agree outside the [stok_sisa] column fill entries that agree
    outside the [stok_sisa] property. *)
Lemma fill_entry_agree header i values1 values2 index entry1 entry2 e1 e2 :
  fill_entry header i values1 index entry1 = inr e1 ->
  fill_entry header i values2 index entry2 = inr e2 ->
  (forall j, header !! j <> Some "stok_sisa" ->
     values1 !! (i + j)%nat = values2 !! (i + j)%nat) ->
  agree_except_stok_sisa entry1 entry2 ->
  agree_except_stok_sisa e1 e2.
Proof.
  revert i entry1 entry2.
  induction header as [|key header IH]; intros i entry1 entry2; simpl.
  - by intros [= ->] [= ->].
  - intros H1 H2 Hcells Hag.
    assert (forall j, header !! j <> Some "stok_sisa" ->
              values1 !! (S i + j)%nat = values2 !! (S i + j)%nat) as Hcells'.
    { intros j Hj. specialize (Hcells (S j) Hj).
      by rewrite Nat.add_succ_r in Hcells. }
    destruct (decide (key = "stok_sisa")) as [->|Hkey].
    + rewrite bool_decide_eq_true_2 in H1, H2
        by (unfold numeric_columns; set_solver).
      destruct (parseFloat (cell_text (values1 !! i))) as [n1|]; [|done].
      destruct (parseFloat (cell_text (values2 !! i))) as [n2|]; [|done].
      apply (IH _ _ _ H1 H2 Hcells').
      intros k Hk. rewrite !obj_get_set, !decide_False by done. by apply Hag.
    + assert (values1 !! i = values2 !! i) as Hi.
      { specialize (Hcells 0%nat). rewrite Nat.add_0_r in Hcells.
        apply Hcells. simpl. congruence. }
      rewrite Hi in H1. case_bool_decide.
      * destruct (parseFloat (cell_text (values2 !! i))) as [n|]; [|done].
        apply (IH _ _ _ H1 H2 Hcells').
        intros k Hk. rewrite !obj_get_set. case_decide; [done|by apply Hag].
      * apply (IH _ _ _ H1 H2 Hcells').
        intros k Hk. rewrite !obj_get_set. case_decide; [done|by apply Hag].
Qed.

Lemma as_SalesData_agree e1 e2 t1 t2 :
  agree_except_stok_sisa e1 e2 ->
  as_SalesData e1 = Some t1 -> as_SalesData e2 = Some t2 ->
  erase_stok_sisa t1 = erase_stok_sisa t2.
Proof.
  intros Hag. unfold as_SalesData.
  rewrite (Hag "id"), (Hag "tanggal"), (Hag "nama_produk"),
    (Hag "jumlah_terjual"), (Hag "harga_beli"), (Hag "harga_jual"),
    (Hag "total_penjualan"), (Hag "total_biaya"), (Hag "laba") by done.
  intros H1 H2. simplify_option_eq. done.
Qed.

Lemma parseCSV_success text entries :
  parseCSV csv_id text = {| data := entries; parseError := None |} ->
  exists h rows,
    csv_lines text = h :: rows /\
    parse_rows csv_id (cells h) rows 0 = inr entries.
Proof.
  unfold parseCSV. destruct (csv_lines text) as [|h [|line rows]]; try done.
  destruct (_ <? 2)%nat; [done|]. destruct (0 <? _)%nat; [done|].
  cbn [hd tl]. destruct (parse_rows _ _ _ _) eqn:Hp; [done|].
  intros [= <-]. by eexists _, _.
Qed.

Lemma stable_sort_map {A} (cmp : A -> A -> Z) (f : A -> A) l :
  (forall a b, cmp (f a) (f b) = cmp a b) ->
  stable_sort cmp (map f l) = map f (stable_sort cmp l).
Proof.
  intros Hf. induction l as [|a l IH]; simpl; [done|]. rewrite IH. clear IH.
  induction (stable_sort cmp l) as [|b m IHm]; simpl; [done|].
  rewrite Hf. destruct (cmp a b <=? 0); simpl; [done|]. by rewrite IHm.
Qed.

(** The [stok_sisa] a sale comes with does not reach the result. *)
Lemma replay_loop_sales_erased l cs acc :
  Forall (fun t => jumlah_terjual t <> 0) l ->
  replay_loop (map erase_stok_sisa l) cs acc = replay_loop l cs acc.
Proof.
  intros Hl. revert cs acc. induction Hl as [|t l Ht _ IH]; intros cs acc;
    [done|].
  simpl map. rewrite !replay_loop_cons.
  assert (stock_after cs (erase_stok_sisa t) = stock_after cs t) as Hs.
  { unfold stock_after, apply_transaction. simpl.
    by destruct (Z.eqb_spec (jumlah_terjual t) 0). }
  assert (advance cs (erase_stok_sisa t) = advance cs t) as ->
    by (unfold advance; by rewrite Hs).
  rewrite Hs. change (erase_stok_sisa t) with (with_stok_sisa t 0).
  rewrite sale_fails_with_stok_sisa, with_stok_sisa_twice.
  destruct (sale_fails cs t); [done|]. apply IH.
Qed.

Lemma replay_sales_erased l S :
  Forall (fun t => jumlah_terjual t <> 0) l ->
  processAndValidateData getTime (map erase_stok_sisa l) S =
  processAndValidateData getTime l S.
Proof.
  intros Hl. unfold processAndValidateData.
  rewrite stable_sort_map by done. apply replay_loop_sales_erased.
  apply Forall_forall. intros t Ht. rewrite Forall_forall in Hl. apply Hl.
  revert Ht. apply elem_of_Permutation_proper. symmetry.
  apply stable_sort_perm.
Qed.

(** The [stok_sisa] column of sales does not influence the validated
    ledger: two texts that differ only in that column, both of which parse
    into records of integers none of which is an adjustment, replay to the
    same result under the same identifiers. *)
Lemma stok_sisa_of_sales_is_discarded text1 text2 d1 d2 l1 l2 S :
  same_except_stok_sisa text1 text2 = true ->
  parseCSV csv_id text1 = {| data := d1; parseError := None |} ->
  parseCSV csv_id text2 = {| data := d2; parseError := None |} ->
  as_ledger d1 = Some l1 ->
  as_ledger d2 = Some l2 ->
  Forall (fun t => jumlah_terjual t <> 0) l1 ->
  processAndValidateData getTime l1 S = processAndValidateData getTime l2 S.
Proof.
  intros Hsame (h1 & rows1 & Hl1 & Hp1)%parseCSV_success
    (h2 & rows2 & Hl2 & Hp2)%parseCSV_success Hd1 Hd2 Hsales.
  unfold same_except_stok_sisa in Hsame. rewrite Hl1, Hl2 in Hsame.
  apply andb_true_iff in Hsame as [Hh%bool_decide_eq_true Hrows].
  rewrite <- Hh in Hp2.
  apply rows_agree_lookup in Hrows as [Hlen Hrows].
  destruct (parse_rows_cases csv_id (cells h1) rows1 0)
    as [(es1 & He1 & Hlen1 & Hfill1 & _)|(? & ? & ? & ? & _ & _ & He1)];
    [|congruence].
  destruct (parse_rows_cases csv_id (cells h1) rows2 0)
    as [(es2 & He2 & Hlen2 & Hfill2 & _)|(? & ? & ? & ? & _ & _ & He2)];
    [|congruence].
  assert (es1 = d1) as -> by congruence.
  assert (es2 = d2) as -> by congruence.
  assert (map erase_stok_sisa l1 = map erase_stok_sisa l2) as Herase.
  { apply mapM_Some in Hd1, Hd2.
    apply list_eq_same_length with (length l1).
    - rewrite length_map. apply Forall2_length in Hd1, Hd2. congruence.
    - by rewrite length_map.
    - intros r x y _.
      change (map erase_stok_sisa ?l) with (erase_stok_sisa <$> l).
      rewrite !list_lookup_fmap.
      intros (t1 & Ht1 & ->)%fmap_Some (t2 & Ht2 & ->)%fmap_Some.
      destruct (Forall2_lookup_r _ _ _ _ _ Hd1 Ht1) as (e1 & He1' & Hc1).
      destruct (Forall2_lookup_r _ _ _ _ _ Hd2 Ht2) as (e2 & He2' & Hc2).
      assert (is_Some (rows1 !! r)) as [m1 Hm1].
      { apply lookup_lt_is_Some. rewrite <- Hlen1.
        by apply lookup_lt_Some in He1'. }
      assert (is_Some (rows2 !! r)) as [m2 Hm2].
      { apply lookup_lt_is_Some. rewrite <- Hlen2.
        by apply lookup_lt_Some in He2'. }
      destruct (Hfill1 r m1 Hm1) as (e1' & ? & Hf1).
      destruct (Hfill2 r m2 Hm2) as (e2' & ? & Hf2). simplify_eq.
      eapply as_SalesData_agree; [|done..].
      eapply fill_entry_agree; [done|done| |done].
      intros j Hj. simpl. eapply cells_agree_lookup; [|done].
      by eapply Hrows. }
  rewrite <- (replay_sales_erased l1), <- (replay_sales_erased l2); try done.
  - by rewrite Herase.
  - apply (proj1 (List.Forall_map erase_stok_sisa
                     (fun t => jumlah_terjual t <> 0) l2)).
    rewrite <- Herase. apply List.Forall_map. exact Hsales.
Qed.

End ImportProperties.

(** ** The properties at concrete inputs *)

(** C1. The replay takes the [stok_sisa] of an adjustment as the new stock
    without looking at its sign: a ledger made of one adjustment to -5, as
    the CSV import delivers it, replays without error and is returned with a
    negative [stok_sisa]. *)
Theorem replay_accepts_negative_adjustment :
  processAndValidateData iso_getTime
    [adjustment_record "id_csv_0" "2024-01-01" "A" (-5)] ∅
  = {| processedData := [adjustment_record "id_csv_0" "2024-01-01" "A" (-5)];
       error := None |}
  /\ import_and_replay example_csv_id iso_getTime
       (example_text "2024-01-01,A,0,0,0,0,0,0,-5") ∅
     = Some {| processedData :=
                 [adjustment_record "id_csv_0" "2024-01-01" "A" (-5)];
               error := None |}.
Proof. split; vm_compute; reflexivity. Qed.

Lemma replay_idempotent_witness :
  processAndValidateData iso_getTime
    (processedData (processAndValidateData iso_getTime example_ledger ∅)) ∅
  = processAndValidateData iso_getTime example_ledger ∅.
Proof.
  apply (replay_idempotent iso_getTime example_ledger ∅).
  vm_compute. reflexivity.
Defined.

Lemma replay_frame_witness :
  let out :=
    processedData (processAndValidateData iso_getTime example_ledger ∅) in
  Permutation (map erase_stok_sisa out) (map erase_stok_sisa example_ledger) /\
  length out = length example_ledger /\
  Permutation (map id out) (map id example_ledger) /\
  StronglySorted (key_le (date_of iso_getTime)) out /\
  (forall d,
      map erase_stok_sisa (filter (fun t => date_of iso_getTime t = d) out) =
      map erase_stok_sisa
        (filter (fun t => date_of iso_getTime t = d) example_ledger)).
Proof.
  apply (replay_frame iso_getTime example_ledger ∅).
  vm_compute. reflexivity.
Defined.

Lemma infer_only_new_products_witness :
  ({["B" := 0]} : gmap string Z) !! "A" = None /\
  exists t,
    t ∈ [sale_record "s1" "2024-01-02" "A" 5;
         sale_record "s2" "2024-01-01" "B" 2] /\
    nama_produk t = "A".
Proof.
  apply (infer_only_new_products iso_getTime
           [sale_record "s1" "2024-01-02" "A" 5;
            sale_record "s2" "2024-01-01" "B" 2]
           {["B" := 0]} "A" 5).
  vm_compute. reflexivity.
Defined.

(** C8, the claim as stated fails: a cell that starts with a number and
    goes on with other text is not a numeric value, and [parseCSV] takes it
    for the number it starts with instead of returning the error. *)
Lemma numeric_prefix_is_accepted :
  header_complete (example_text "2024-01-01,A,12abc,1,1,1,1,1,1") /\
  (exists r line j key,
      csv_rows (example_text "2024-01-01,A,12abc,1,1,1,1,1,1") !! r
        = Some line /\
      non_numeric_cell
        (csv_header (example_text "2024-01-01,A,12abc,1,1,1,1,1,1"))
        line j key) /\
  parseError
    (parseCSV example_csv_id (example_text "2024-01-01,A,12abc,1,1,1,1,1,1"))
  = None /\
  (obj_get "jumlah_terjual" <$>
     data (parseCSV example_csv_id
             (example_text "2024-01-01,A,12abc,1,1,1,1,1,1")))
  = [VNumber (Finite (inject_Z 12))].
Proof.
  split; [|split; [|split]].
  - unfold header_complete. apply (bool_decide_unpack _). by vm_compute.
  - exists 0%nat, "2024-01-01,A,12abc,1,1,1,1,1,1", 2%nat, "jumlah_terjual".
    split; [vm_compute; reflexivity|]. split; [vm_compute; reflexivity|].
    split; [unfold numeric_columns; set_solver|].
    exists "12abc". split; vm_compute; reflexivity.
  - vm_compute. reflexivity.
  - vm_compute. reflexivity.
Qed.

Lemma parseCSV_numeric_cells_witness :
  let text := example_text "2024-01-01,A,abc,1,1,1,1,1,1" in
  ((exists r line j key,
       csv_rows text !! r = Some line /\
       invalid_cell (csv_header text) line j key) ->
    exists r line j key,
       csv_rows text !! r = Some line /\
       invalid_cell (csv_header text) line j key /\
       parseCSV example_csv_id text =
         {| data := [];
            parseError := Some (invalid_value_message (r + 2) key) |}) /\
  (forall row key,
      parseError (parseCSV example_csv_id text)
        = Some (invalid_value_message row key) ->
      data (parseCSV example_csv_id text) = [] /\
      exists r line j key',
        csv_rows text !! r = Some line /\
        invalid_cell (csv_header text) line j key').
Proof.
  intros text. apply (parseCSV_numeric_cells example_csv_id text).
  unfold header_complete. apply (bool_decide_unpack _). by vm_compute.
Defined.


(** The entry and the export of the example with an extra column. *)
Example extra_column_is_carried :
  (obj_get "catatan" <$> data (parseCSV example_csv_id example_text_extra))
    = [VString "promo"] /\
  exportToCSV example_number_to_string
    (data (parseCSV example_csv_id example_text_extra))
  = Some (unlines
            [example_header +:+ ",catatan";
             "2024-01-01,A,3,2,4,12,6,6,0,promo"]).
Proof. split; vm_compute; reflexivity. Qed.

(** The examples of the specification. *)
Example sale_without_stock_fails :
  error (processAndValidateData iso_getTime
           [sale_record "s1" "2024-01-01" "A" 5] {["A" := 0]})
  = Some (insufficient_stock_message "A" "2024-01-01" 0 5).
Proof. vm_compute. reflexivity. Qed.

Example sale_with_inferred_stock_succeeds :
  inferInitialStocks iso_getTime [sale_record "s1" "2024-01-01" "A" 5] ∅
    = {["A" := 5]} /\
  processAndValidateData iso_getTime
    [sale_record "s1" "2024-01-01" "A" 5] {["A" := 5]}
  = {| processedData :=
         [with_stok_sisa (sale_record "s1" "2024-01-01" "A" 5) 0];
       error := None |}.
Proof. split; vm_compute; reflexivity. Qed.

Example adjustment_then_sale :
  processAndValidateData iso_getTime example_ledger ∅
  = {| processedData :=
         [adjustment_record "a1" "2024-01-01" "A" 10;
          with_stok_sisa (sale_record "s1" "2024-01-02" "A" 3) 7];
       error := None |}.
Proof. vm_compute. reflexivity. Qed.

(** Inference looks at sales only: with an adjustment in between, the
    replay of all the records of the product can fail with the inferred
    opening stock, and can succeed with less. *)
Example inference_ignores_adjustments :
  inferInitialStocks iso_getTime
    [sale_record "s1" "2024-01-01" "A" 3;
     adjustment_record "a1" "2024-01-02" "A" 1;
     sale_record "s2" "2024-01-03" "A" 2] ∅ !! "A" = Some 5 /\
  error (processAndValidateData iso_getTime
           [sale_record "s1" "2024-01-01" "A" 3;
            adjustment_record "a1" "2024-01-02" "A" 1;
            sale_record "s2" "2024-01-03" "A" 2] {["A" := 5]}) <> None /\
  inferInitialStocks iso_getTime example_ledger ∅ !! "A" = Some 3 /\
  error (processAndValidateData iso_getTime example_ledger {["A" := 0]})
    = None.
Proof. repeat split; vm_compute; (reflexivity || discriminate). Qed.

(** ** Tables *)

Section TableFacts.

Context {V : Type}.
Implicit Types (o : table V) (k : string) (v : V).

Lemma table_get_set k k' v o :
  table_get k (table_set k' v o) =
    if decide (k' = k) then Some v else table_get k o.
Proof.
  induction o as [|[k0 w] o IH]; simpl.
  - destruct (String.eqb_spec k' k), (decide (k' = k)); done.
  - destruct (String.eqb_spec k0 k') as [->|Hk0]; simpl.
    + destruct (String.eqb_spec k' k), (decide (k' = k)); done.
    + rewrite IH. destruct (String.eqb_spec k0 k) as [->|]; [|done].
      by rewrite decide_False by congruence.
Qed.

Lemma table_get_None k o : table_get k o = None <-> k ∉ map fst o.
Proof.
  induction o as [|[k0 w] o IH]; simpl.
  - split; [intros _ ?%elem_of_nil|]; done.
  - rewrite not_elem_of_cons.
    destruct (String.eqb_spec k0 k) as [->|Hne]; [|rewrite IH];
      intuition congruence.
Qed.

Lemma table_get_Some k v o :
  table_ok o -> table_get k o = Some v <-> (k, v) ∈ o.
Proof.
  unfold table_ok. induction o as [|[k0 w] o IH]; simpl.
  - intros _. split; [done|by intros ?%elem_of_nil].
  - intros [Hk0 Hnd]%NoDup_cons. rewrite elem_of_cons.
    destruct (String.eqb_spec k0 k) as [->|Hne].
    + split; [intros [= ->]; by left|].
      intros [[= ->]|Hin]; [done|]. destruct Hk0.
      apply list_elem_of_fmap. by exists (k, v).
    + rewrite (IH Hnd). split; [by right|].
      intros [[= ? ?]|?]; [congruence|done].
Qed.

Lemma table_set_keys k v o :
  map fst (table_set k v o) =
    if decide (k ∈ map fst o) then map fst o else map fst o ++ [k].
Proof.
  induction o as [|[k0 w] o IH]; cbn [table_set map fst].
  - destruct (decide (k ∈ [])) as [Hin|Hin]; [by apply elem_of_nil in Hin|done].
  - destruct (String.eqb_spec k0 k) as [->|Hne]; cbn [map fst].
    + destruct (decide (k ∈ k :: map fst o)) as [Hin|Hin]; [done|].
      destruct Hin. left.
    + rewrite IH. destruct (decide (k ∈ map fst o)) as [Hin|Hnot].
      * destruct (decide (k ∈ k0 :: map fst o)) as [Hin'|Hin']; [done|].
        destruct Hin'. by right.
      * destruct (decide (k ∈ k0 :: map fst o)) as [Hin'|Hin']; [|done].
        apply elem_of_cons in Hin' as [?|?]; [congruence|done].
Qed.

Lemma table_set_ok k v o : table_ok o -> table_ok (table_set k v o).
Proof.
  unfold table_ok. rewrite table_set_keys. intros Hnd.
  case_decide; [done|]. apply NoDup_app. split; [done|].
  split; [|apply NoDup_singleton].
  intros x Hx ->%list_elem_of_singleton. done.
Qed.

Lemma filter_index_partition (l : list (string * V)) :
  Permutation
    (List.filter (fun kv => is_array_index kv.1) l
     ++ List.filter (fun kv => negb (is_array_index kv.1)) l) l.
Proof.
  induction l as [|kv l IH]; simpl; [done|].
  destruct (is_array_index kv.1); simpl.
  - by constructor.
  - rewrite <- Permutation_middle. by constructor.
Qed.

(** [Object.entries] lists every property once, in some order. *)
Lemma table_entries_perm o : Permutation (table_entries o) o.
Proof.
  unfold table_entries. rewrite stable_sort_perm.
  apply filter_index_partition.
Qed.

Lemma table_entries_ok o : table_ok o -> table_ok (table_entries o).
Proof.
  unfold table_ok. intros Hnd.
  by rewrite (Permutation_map fst (table_entries_perm o)).
Qed.

Lemma table_get_perm k o o' :
  table_ok o -> Permutation o o' -> table_get k o = table_get k o'.
Proof.
  intros Hok Hperm.
  assert (table_ok o') as Hok'.
  { unfold table_ok in *. by rewrite <- (Permutation_map fst Hperm). }
  destruct (table_get k o') as [v|] eqn:Hget.
  - apply table_get_Some in Hget; [|done]. apply table_get_Some; [done|].
    by rewrite Hperm.
  - apply table_get_None in Hget. apply table_get_None.
    by rewrite (Permutation_map fst Hperm).
Qed.

Lemma table_get_entries k o :
  table_ok o -> table_get k (table_entries o) = table_get k o.
Proof.
  intros Hok. apply table_get_perm; [by apply table_entries_ok|].
  apply table_entries_perm.
Qed.

(** [Object.fromEntries] of entries of distinct names holds each of them. *)
Lemma table_from_entries_fold (es : list (string * V)) o k :
  table_ok es ->
  table_get k (fold_left (fun o kv => table_set kv.1 kv.2 o) es o) =
    match table_get k es with
    | Some v => Some v
    | None => table_get k o
    end.
Proof.
  unfold table_ok. revert o. induction es as [|[k1 v1] es IH]; intros o;
    simpl; [done|].
  intros [Hk1 Hnd]%NoDup_cons. rewrite (IH _ Hnd), table_get_set.
  destruct (String.eqb_spec k1 k) as [->|Hne].
  - apply table_get_None in Hk1. rewrite Hk1. by rewrite decide_True.
  - by rewrite decide_False.
Qed.

Lemma table_from_entries_get (es : list (string * V)) k :
  table_ok es -> table_get k (table_from_entries es) = table_get k es.
Proof.
  intros Hok. unfold table_from_entries.
  rewrite table_from_entries_fold by done. by destruct (table_get k es).
Qed.

Lemma table_from_entries_ok (es : list (string * V)) :
  table_ok (table_from_entries es).
Proof.
  unfold table_from_entries.
  assert (table_ok ([] : table V)) as Hnil by constructor.
  revert Hnil. generalize ([] : table V).
  induction es as [|kv es IH]; intros o Ho; simpl; [done|].
  apply IH. by apply table_set_ok.
Qed.

End TableFacts.

Lemma table_get_map {V W : Type} (f : V -> W) k (o : table V) :
  table_get k (map (fun kv => (kv.1, f kv.2)) o) = f <$> table_get k o.
Proof.
  induction o as [|[k0 w] o IH]; simpl; [done|].
  by destruct (String.eqb k0 k).
Qed.

(** ** The summary of the ledger *)

Section TallyFacts.






Lemma fold_sum (f : SalesData -> Z) l a :
  fold_left (fun acc item => acc + f item) l a
  = a + foldr (fun t acc => f t + acc) 0 l.
Proof.
  revert a. induction l as [|t l IH]; intros a; simpl; [lia|].
  rewrite IH. lia.
Qed.

Lemma foldr_sum_perm {A} (f : A -> Z) l l' :
  Permutation l l' ->
  foldr (fun t acc => f t + acc) 0 l = foldr (fun t acc => f t + acc) 0 l'.
Proof. induction 1; simpl; lia. Qed.

Lemma foldr_sum_emitted (f : SalesData -> Z) l cs :
  (forall t v, f (with_stok_sisa t v) = f t) ->
  foldr (fun t acc => f t + acc) 0 (emitted l cs)
  = foldr (fun t acc => f t + acc) 0 l.
Proof.
  intros Hf. revert cs. induction l as [|t l IH]; intros cs; simpl; [done|].
  by rewrite Hf, IH.
Qed.

End TallyFacts.

Section SummaryFacts.

Variable getTime : string -> Z.

Lemma summary_loop_split l a b :
  fold_left
    (fun acc item =>
       (latest_step getTime acc.1 item, sales_step acc.2 item)) l (a, b)
  = (fold_left (latest_step getTime) l a, fold_left sales_step l b).
Proof.
  revert a b. induction l as [|t l IH]; intros a b; simpl; [done|].
  by rewrite IH.
Qed.

Lemma table_set_Forall {V} (P : string * V -> Prop) k v (o : table V) :
  Forall P o -> P (k, v) -> (forall w, P (k, w) -> P (k, v)) ->
  Forall P (table_set k v o).
Proof.
  intros Ho Hkv _. induction Ho as [|[k0 w] o H0 Ho IH]; simpl.
  - by constructor.
  - destruct (String.eqb_spec k0 k) as [->|Hne]; by constructor.
Qed.

Lemma latest_step_invariant o t :
  table_ok o /\ filed_by_product o ->
  table_ok (latest_step getTime o t) /\
  filed_by_product (latest_step getTime o t).
Proof.
  intros [Hok Hfiled]. unfold latest_step.
  assert (table_ok (table_set (nama_produk t) t o) /\
          filed_by_product (table_set (nama_produk t) t o)) as Hset.
  { split; [by apply table_set_ok|]. by apply table_set_Forall. }
  destruct (table_get _ o); [|done].
  by destruct (_ <=? _).
Qed.

Lemma latest_fold_invariant l o :
  table_ok o /\ filed_by_product o ->
  table_ok (fold_left (latest_step getTime) l o) /\
  filed_by_product (fold_left (latest_step getTime) l o).
Proof.
  revert o. induction l as [|t l IH]; intros o Ho; simpl; [done|].
  by apply IH, latest_step_invariant.
Qed.

Lemma sorted_snoc {A} (R : A -> A -> Prop) l t :
  StronglySorted R (l ++ [t]) ->
  StronglySorted R l /\ Forall (fun x => R x t) l.
Proof.
  induction l as [|a l IH]; simpl; [by split; constructor|].
  intros Hs. apply StronglySorted_inv in Hs as [Hs Ha].
  destruct (IH Hs) as [Hl Ht]. split.
  - constructor; [done|]. apply Forall_app in Ha as [Ha _]. done.
  - constructor; [|done]. apply Forall_app in Ha as [_ Ha].
    by apply Forall_inv in Ha.
Qed.

(** On a ledger in date order the loop keeps, for each product, its last
    record. *)
Lemma latest_of_sorted l p :
  StronglySorted (key_le (date_of getTime)) l ->
  table_get p (fold_left (latest_step getTime) l []) = last (of_product p l).
Proof.
  revert p. induction l as [|t l IH] using rev_ind; intros p Hs; [done|].
  apply sorted_snoc in Hs as [Hl Hle]. rewrite Forall_forall in Hle.
  rewrite fold_left_app. simpl.
  assert (latest_step getTime (fold_left (latest_step getTime) l []) t
          = table_set (nama_produk t) t
              (fold_left (latest_step getTime) l [])) as ->.
  { unfold latest_step. rewrite IH by done.
    destruct (last (of_product (nama_produk t) l)) as [kept|] eqn:Hlast;
      [|done].
    assert (kept ∈ l) as Hin.
    { apply last_Some in Hlast as [l' Hl'].
      assert (kept ∈ of_product (nama_produk t) l) as Hk.
      { rewrite Hl'. apply elem_of_app. right. left. }
      by apply list_elem_of_filter in Hk as [_ ?]. }
    specialize (Hle kept Hin).
    unfold key_le, date_of in Hle.
    by destruct (Z.leb_spec (getTime (tanggal kept)) (getTime (tanggal t)));
      [|lia]. }
  rewrite table_get_set, IH by done.
  unfold of_product. rewrite filter_app, filter_cons, filter_nil.
  destruct (decide (nama_produk t = p)).
  - by rewrite last_snoc.
  - by rewrite app_nil_r.
Qed.

Lemma final_levels_get allData p :
  table_get p (finalStockLevels (summary getTime allData))
  = stok_sisa <$> table_get p (fold_left (latest_step getTime) allData []).
Proof.
  unfold summary, summary_loop. rewrite summary_loop_split. simpl.
  destruct (latest_fold_invariant allData [])
    as [Hok Hfiled]; [by split; constructor|].
  set (latest := fold_left (latest_step getTime) allData []) in *.
  assert (map (fun kv : string * SalesData =>
                 (nama_produk kv.2, stok_sisa kv.2)) (table_entries latest)
          = map (fun kv => (kv.1, stok_sisa kv.2)) (table_entries latest))
    as ->.
  { apply map_ext_in. intros kv Hkv%list_elem_of_In.
    rewrite table_entries_perm in Hkv.
    unfold filed_by_product in Hfiled. rewrite Forall_forall in Hfiled.
    by rewrite (Hfiled kv Hkv). }
  rewrite table_from_entries_get.
  - by rewrite table_get_map, table_get_entries.
  - unfold table_ok. rewrite map_map. simpl.
    by apply table_entries_ok.
Qed.

End SummaryFacts.

Section SummaryProperties.

Variable getTime : string -> Z.

Lemma of_product_emitted_nil p l cs :
  of_product p (emitted l cs) = [] <-> of_product p l = [].
Proof.
  pose proof (filter_emitted (fun t => nama_produk t = p) l cs
                ltac:(done)) as Heq.
  apply (f_equal length) in Heq. rewrite !length_map in Heq.
  unfold of_product. split; intros H; rewrite H in Heq; simpl in Heq.
  - by apply length_zero_iff_nil.
  - by apply length_zero_iff_nil.
Qed.

(** X1. The current stock the dashboard shows for a product, after a
    successful replay, is the stock the replay folded over all the records
    of that product; a product without a record has no level. *)
Theorem current_stock_is_replayed_stock data S p :
  error (processAndValidateData getTime data S) = None ->
  table_get p
    (finalStockLevels
       (summary getTime
          (processedData (processAndValidateData getTime data S))))
  = match of_product p (stable_sort (by_tanggal getTime) data) with
    | [] => None
    | _ :: _ =>
        Some (folded_stock (opening S p)
                (of_product p (stable_sort (by_tanggal getTime) data)))
    end.
Proof.
  intros Hok. rewrite (replay_success _ _ _ Hok). simpl.
  rewrite final_levels_get, latest_of_sorted.
  - destruct (last (of_product p (emitted _ S))) as [r|] eqn:Hlast.
    + pose proof (last_of_product_emitted _ _ _ _ Hlast) as Hr.
      destruct (of_product p (stable_sort _ data)) as [|t l] eqn:Hp.
      * apply (proj2 (of_product_emitted_nil p _ S)) in Hp.
        by rewrite Hp in Hlast.
      * simpl. by rewrite Hr.
    + apply last_None in Hlast.
      apply (proj1 (of_product_emitted_nil p _ S)) in Hlast.
      by rewrite Hlast.
  - apply emitted_sorted.
    apply (stable_sort_sorted _ (date_of getTime) (by_tanggal_key getTime)).
Qed.

(** On the integer model a successful replay leaves the two totals of the
    summary as they are on the input. *)
Lemma totals_survive_replay data S :
  error (processAndValidateData getTime data S) = None ->
  totalPenjualan
    (summary getTime (processedData (processAndValidateData getTime data S)))
  = totalPenjualan (summary getTime data) /\
  totalLaba
    (summary getTime (processedData (processAndValidateData getTime data S)))
  = totalLaba (summary getTime data).
Proof.
  intros Hok. rewrite (replay_success _ _ _ Hok). simpl.
  unfold summary. destruct (summary_loop _ (emitted _ _)) as [l1 s1].
  destruct (summary_loop _ data) as [l2 s2]. simpl.
  rewrite !fold_sum, !foldr_sum_emitted by done.
  pose proof (stable_sort_perm (by_tanggal getTime) data) as Hperm.
  split; f_equal; by apply foldr_sum_perm.
Qed.



End SummaryProperties.

(** ** The chart and the stock status *)

Section ChartProperties.

Lemma chart_fold_ok l o : table_ok o -> table_ok (fold_left chart_step l o).
Proof.
  revert o. induction l as [|t l IH]; intros o Ho; simpl; [done|].
  apply IH. by apply table_set_ok.
Qed.

Lemma chart_fold_get l o p :
  table_get p (fold_left chart_step l o) =
    match of_product p l with
    | [] => table_get p o
    | _ :: _ =>
        Some ((default (0, 0) (table_get p o)).1 + revenue_of p l,
              (default (0, 0) (table_get p o)).2 + profit_of p l)
    end.
Proof.
  revert o. induction l as [|t l IH]; intros o; simpl; [done|].
  rewrite IH. unfold chart_step, revenue_of, profit_of, of_product.
  rewrite filter_cons, table_get_set.
  destruct (decide (nama_produk t = p)) as [Hp|Hp]; [|done].
  rewrite Hp. simpl. destruct (filter _ l); simpl; f_equal; f_equal; lia.
Qed.




(** X4. The chart has one row for each product of the ledger and no other:
    the rows have distinct names, and a row is in the chart exactly when
    its name is the product of some record and its two figures are the sums
    of [total_penjualan] and of [laba] over the records of that product. *)
Theorem chart_rows_are_product_sums allData :
  NoDup (map row_name (chartData allData)) /\
  forall row,
    row ∈ chartData allData <->
    (exists t, t ∈ allData /\ nama_produk t = row_name row) /\
    row_totalPenjualan row = revenue_of (row_name row) allData /\
    row_totalLaba row = profit_of (row_name row) allData.
Proof.
  unfold chartData. set (sums := fold_left chart_step allData []).
  assert (table_ok sums) as Hok by (apply chart_fold_ok; constructor).
  split.
  - rewrite map_map. simpl. by apply table_entries_ok.
  - intros [n tp tl]. simpl.
    change (map ?f ?l) with (f <$> l). rewrite list_elem_of_fmap.
    split.
    + intros ([k [a b]] & [= -> -> ->] & Hin). simpl in *.
      rewrite table_entries_perm, <- table_get_Some in Hin by done.
      unfold sums in Hin. rewrite chart_fold_get in Hin. simpl in Hin.
      destruct (of_product k allData) as [|t l] eqn:Hp; [done|].
      injection Hin as <- <-. split; [|lia].
      exists t. assert (t ∈ of_product k allData) as Ht by (rewrite Hp; left).
      by apply list_elem_of_filter in Ht as [? ?].
    + intros ((t & Ht & Hp) & -> & ->).
      exists (n, (revenue_of n allData, profit_of n allData)).
      split; [done|].
      rewrite table_entries_perm, <- table_get_Some by done.
      unfold sums. rewrite chart_fold_get. simpl.
      destruct (of_product n allData) as [|u l] eqn:Hn; [|done].
      assert (t ∈ of_product n allData) as Hin
        by (by apply list_elem_of_filter).
      rewrite Hn in Hin. by apply elem_of_nil in Hin.
Qed.






End ChartProperties.

(** ** More on the replay loop *)

Section RunFacts.



(** More stock, or fewer sales of quantities above 0, never hurts. *)
Lemma runs_monotone (keep : SalesData -> bool) l cs cs' :
  runs l cs = true ->
  (forall p, opening cs p <= opening cs' p) ->
  (forall t, t ∈ l -> keep t = false -> 0 < jumlah_terjual t) ->
  runs (List.filter keep l) cs' = true.
Proof.
  revert cs cs'. induction l as [|t l IH]; intros cs cs' Hr Hle Hdrop;
    simpl; [done|].
  simpl in Hr. apply andb_true_iff in Hr as [Hf Hr].
  apply negb_true_iff in Hf. unfold sale_fails in Hf.
  pose proof (Hle (nama_produk t)) as Ht.
  destruct (keep t) eqn:Hk; simpl.
  - apply andb_true_iff. split.
    + apply negb_true_iff. unfold sale_fails.
      destruct (Z.eqb_spec (jumlah_terjual t) 0); [done|]. simpl in *.
      apply Z.ltb_ge. apply Z.ltb_ge in Hf. lia.
    + apply (IH (advance cs t)); [done| |intros u Hu; apply Hdrop; by right].
      intros p. rewrite !opening_advance. case_decide; [|done].
      unfold stock_after, apply_transaction.
      destruct (jumlah_terjual t =? 0); lia.
  - apply (IH (advance cs t)); [done| |intros u Hu; apply Hdrop; by right].
    assert (0 < jumlah_terjual t) as Hq by (apply Hdrop; [left|done]).
    intros p. rewrite opening_advance. case_decide as Hp; [|done].
    subst p. unfold stock_after, apply_transaction.
    destruct (Z.eqb_spec (jumlah_terjual t) 0); lia.
Qed.

Lemma list_filter_as_filter {A} (f : A -> bool) l :
  List.filter f l = filter (fun x => f x = true) l.
Proof.
  induction l as [|a l IH]; simpl; [done|]. rewrite filter_cons, IH.
  destruct (f a); by case_decide.
Qed.

Lemma filter_agree {A} (P Q : A -> Prop) `{!forall x, Decision (P x)}
    `{!forall x, Decision (Q x)} l :
  Forall (fun x => P x <-> Q x) l -> filter P l = filter Q l.
Proof.
  induction 1 as [|a l Ha _ IH]; [done|]. rewrite !filter_cons, IH.
  destruct (decide (P a)), (decide (Q a)); tauto.
Qed.



Lemma sorted_snoc_2 {A} (R : A -> A -> Prop) l t :
  StronglySorted R l -> Forall (fun x => R x t) l ->
  StronglySorted R (l ++ [t]).
Proof.
  induction 1 as [|a l Hl IH Ha]; intros Ht; simpl.
  - repeat constructor.
  - apply Forall_cons in Ht as [Hat Ht]. constructor; [by apply IH|].
    apply Forall_app. split; [done|]. by constructor.
Qed.

End RunFacts.

(** ** The handlers of the dashboard *)

Section HandlerFacts.

Variable getTime : string -> Z.

Local Abbreviation sorted_by_date := (stable_sort (by_tanggal getTime)).

(** What a successful replay returns replays to itself. *)
Lemma replay_output_validated data S :
  error (processAndValidateData getTime data S) = None ->
  processAndValidateData getTime
    (processedData (processAndValidateData getTime data S)) S
  = {| processedData := processedData (processAndValidateData getTime data S);
       error := None |}.
Proof.
  intros Hok. pose proof Hok as Hr%replay_runs.
  rewrite (replay_success _ _ _ Hok). simpl.
  unfold processAndValidateData.
  rewrite (stable_sort_fixpoint _ (date_of getTime) (by_tanggal_key getTime)).
  - rewrite replay_loop_runs by (by rewrite runs_emitted).
    by rewrite emitted_emitted.
  - apply emitted_sorted.
    apply (stable_sort_sorted _ (date_of getTime) (by_tanggal_key getTime)).
Qed.

(** A validated ledger is in date order, runs without failure and is what
    the loop pushes on it. *)
Lemma validated_state_inv st :
  validated_state getTime st ->
  sorted_by_date (allData st) = allData st /\
  StronglySorted (key_le (date_of getTime)) (allData st) /\
  runs (allData st) (initialStocks st) = true /\
  emitted (allData st) (initialStocks st) = allData st.
Proof.
  intros Hv. unfold validated_state in Hv.
  assert (error (processAndValidateData getTime (allData st)
                   (initialStocks st)) = None) as Hok by (by rewrite Hv).
  pose proof Hok as Hr%replay_runs.
  rewrite (replay_success _ _ _ Hok) in Hv. injection Hv as Hem.
  assert (StronglySorted (key_le (date_of getTime)) (allData st)) as Hs.
  { rewrite <- Hem. apply emitted_sorted.
    apply (stable_sort_sorted _ (date_of getTime) (by_tanggal_key getTime)). }
  assert (sorted_by_date (allData st) = allData st) as Hfix
    by apply (stable_sort_fixpoint _ (date_of getTime)
                (by_tanggal_key getTime) _ Hs).
  rewrite Hfix in Hr, Hem. done.
Qed.

Lemma validated_state_intro data S st :
  error (processAndValidateData getTime data S) = None ->
  allData st = processedData (processAndValidateData getTime data S) ->
  initialStocks st = S ->
  validated_state getTime st.
Proof.
  intros Hok Hd HS. unfold validated_state. rewrite Hd, HS.
  by apply replay_output_validated.
Qed.

Lemma validated_state_show_error st message :
  validated_state getTime st ->
  validated_state getTime (show_error st message).
Proof. done. Qed.

Lemma load_validated sd ss : validated_state getTime (load getTime sd ss).
Proof.
  unfold load. destruct (0 <? length _)%nat; [|done].
  destruct (error _) eqn:Hok; [done|].
  by eapply validated_state_intro.
Qed.

Lemma act_validated st a :
  validated_state getTime st -> validated_state getTime (act getTime st a).
Proof.
  intros Hv. destruct a as [newEntries [message|]|newEntry|newStocks|i|[|]];
    simpl; try done.
  - unfold file_loaded. destruct (error _) eqn:Hok; [done|].
    by eapply validated_state_intro.
  - unfold handleAddManualEntry. destruct (error _) eqn:Hok; [done|].
    by eapply validated_state_intro.
  - unfold handleUpdateInitialStocks. destruct (error _) eqn:Hok; [done|].
    by eapply validated_state_intro.
  - unfold handleDeleteRow. destruct (error _) eqn:Hok; [done|].
    by eapply validated_state_intro.
Qed.


(** X7. The ledger on screen is always a validated one: whatever the stored
    items held at the first render and whatever the user did since, replaying
    the ledger shown with the opening stocks shown returns that same ledger
    without an error. *)
Theorem ledger_shown_is_validated storedData storedStocks actions :
  validated_state getTime
    (fold_left (act getTime) actions (load getTime storedData storedStocks)).
Proof.
  generalize (load_validated storedData storedStocks).
  generalize (load getTime storedData storedStocks).
  induction actions as [|a actions IH]; intros st Hv; simpl; [done|].
  by apply IH, act_validated.
Qed.


End HandlerFacts.

Section HandlerProperties.

Variable getTime : string -> Z.

Local Abbreviation sorted_by_date := (stable_sort (by_tanggal getTime)).




(** Removing rows from a validated ledger leaves a ledger in date order. *)
Lemma filtered_ledger_sorted st (keep : SalesData -> bool) :
  validated_state getTime st ->
  sorted_by_date (List.filter keep (allData st))
  = List.filter keep (allData st).
Proof.
  intros Hv. destruct (validated_state_inv _ _ Hv) as (Hfix & _).
  rewrite list_filter_as_filter.
  rewrite <- (filter_stable_sort _ (date_of getTime) (by_tanggal_key getTime)).
  by rewrite Hfix.
Qed.

(** X10. Deleting a sale never invalidates the ledger: from a validated
    ledger, deleting the rows of an identifier all of which have a quantity
    above 0 succeeds, and the ledger shown then is made of the other rows,
    in the same order, with their stock recomputed. *)
Theorem deleting_a_sale_is_accepted st idToDelete :
  validated_state getTime st ->
  Forall (fun t => id t = idToDelete -> 0 < jumlah_terjual t) (allData st) ->
  let st' := handleDeleteRow getTime st idToDelete in
  errorShown st' = None /\
  map erase_stok_sisa (allData st')
  = map erase_stok_sisa
      (List.filter (fun item => negb (String.eqb (id item) idToDelete))
         (allData st)).
Proof.
  intros Hv Hsale st'.
  destruct (validated_state_inv _ _ Hv) as (_ & _ & Hr & _).
  set (keep := fun item : SalesData => negb (String.eqb (id item) idToDelete)).
  assert (runs (List.filter keep (allData st)) (initialStocks st) = true)
    as Hruns.
  { apply (runs_monotone keep _ (initialStocks st)); [done|done|].
    intros t Ht Hk. rewrite Forall_forall in Hsale. apply (Hsale t Ht).
    unfold keep in Hk. apply negb_false_iff in Hk. by apply String.eqb_eq. }
  assert (error (processAndValidateData getTime
                   (List.filter keep (allData st)) (initialStocks st)) = None)
    as Hok.
  { apply replay_runs. by rewrite filtered_ledger_sorted. }
  subst st'. unfold handleDeleteRow. fold keep. rewrite Hok. simpl.
  split; [done|].
  rewrite (replay_success _ _ _ Hok). simpl.
  by rewrite map_erase_emitted, filtered_ledger_sorted.
Qed.

(** X11. Raising opening stocks never invalidates the ledger: from a
    validated ledger, an update to opening stocks none of which is below
    the one it replaces succeeds and is taken over. *)
Theorem raising_stocks_is_accepted st newStocks :
  validated_state getTime st ->
  (forall p, opening (initialStocks st) p <= opening newStocks p) ->
  let st' := handleUpdateInitialStocks getTime st newStocks in
  errorShown st' = None /\
  initialStocks st' = newStocks /\
  map erase_stok_sisa (allData st') = map erase_stok_sisa (allData st).
Proof.
  intros Hv Hle st'.
  destruct (validated_state_inv _ _ Hv) as (Hfix & _ & Hr & _).
  assert (runs (allData st) newStocks = true) as Hruns.
  { pose proof (runs_monotone (fun _ => true) _ _ newStocks Hr Hle) as Hm.
    rewrite forallb_filter_id in Hm; [|by apply forallb_forall].
    by apply Hm. }
  assert (error (processAndValidateData getTime (allData st) newStocks)
          = None) as Hok by (apply replay_runs; by rewrite Hfix).
  subst st'. unfold handleUpdateInitialStocks. rewrite Hok. simpl.
  split; [done|]. split; [done|].
  rewrite (replay_success _ _ _ Hok). simpl.
  by rewrite map_erase_emitted, Hfix.
Qed.

(** X12. A sale entered with a date no earlier than any in the ledger is
    accepted exactly when the current stock of its product covers it: the
    form gets the stock error naming that stock and the state stays as it
    is, or the sale is appended with the stock that remains. *)
Theorem adding_a_latest_sale st newEntry :
  validated_state getTime st ->
  Forall (fun t => date_of getTime t <= date_of getTime newEntry)
    (allData st) ->
  jumlah_terjual newEntry <> 0 ->
  let current :=
    folded_stock (opening (initialStocks st) (nama_produk newEntry))
      (of_product (nama_produk newEntry) (allData st)) in
  handleAddManualEntry getTime st newEntry
  = if current - jumlah_terjual newEntry <? 0 then
      (st, Some (insufficient_stock_message (nama_produk newEntry)
                   (tanggal newEntry) current (jumlah_terjual newEntry)))
    else
      ({| allData :=
            allData st
            ++ [with_stok_sisa newEntry (current - jumlah_terjual newEntry)];
          initialStocks := initialStocks st;
          errorShown := None;
          storedData :=
            Some (allData st
                  ++ [with_stok_sisa newEntry
                        (current - jumlah_terjual newEntry)]);
          storedStocks := storedStocks st |}, None).
Proof.
  intros Hv Hdates Hq current.
  destruct (validated_state_inv _ _ Hv) as (_ & Hs & Hr & Hem).
  unfold handleAddManualEntry, processAndValidateData.
  rewrite (stable_sort_fixpoint _ (date_of getTime) (by_tanggal_key getTime))
    by (by apply sorted_snoc_2).
  rewrite replay_loop_app, replay_loop_cons by done. simpl app.
  unfold sale_fails, stock_after, apply_transaction.
  rewrite opening_fold_advance. fold current.
  destruct (Z.eqb_spec (jumlah_terjual newEntry) 0) as [|_]; [done|].
  simpl. rewrite Hem.
  by destruct (current - jumlah_terjual newEntry <? 0).
Qed.

(** X13. Deleting an identifier no row has changes nothing in a validated
    ledger: the ledger and the stocks stay, the error is cleared and the
    ledger is stored again. *)
Theorem deleting_a_missing_row st idToDelete :
  validated_state getTime st ->
  Forall (fun t => id t <> idToDelete) (allData st) ->
  handleDeleteRow getTime st idToDelete
  = {| allData := allData st;
       initialStocks := initialStocks st;
       errorShown := None;
       storedData := Some (allData st);
       storedStocks := storedStocks st |}.
Proof.
  intros Hv Hid. unfold handleDeleteRow.
  rewrite forallb_filter_id.
  - unfold validated_state in Hv. by rewrite Hv.
  - apply forallb_forall. intros t Ht%list_elem_of_In.
    rewrite Forall_forall in Hid. apply negb_true_iff.
    apply String.eqb_neq. by apply Hid.
Qed.

End HandlerProperties.

Section SoundEntries.

Variable getTime : string -> Z.





(** An update of the opening stocks that lowers none is taken. *)
Lemma update_to_higher_stocks st newStocks :
  validated_state getTime st ->
  (forall p, opening (initialStocks st) p <= opening newStocks p) ->
  error (processAndValidateData getTime (allData st) newStocks) = None.
Proof.
  intros Hv Hle.
  destruct (validated_state_inv _ _ Hv) as (Hfix & _ & Hr & _).
  apply replay_runs. rewrite Hfix.
  pose proof (runs_monotone (fun _ => true) _ _ newStocks Hr Hle) as Hm.
  rewrite forallb_filter_id in Hm; [|by apply forallb_forall].
  by apply Hm.
Qed.

(** X15. Giving an opening stock to a product that has none is always
    accepted: what [handleAddStock] hands over for such a product, on the
    opening stocks of a validated ledger, passes the replay and becomes the
    opening stocks shown. *)
Theorem adding_a_first_stock_is_accepted st newProduct newStock newStocks :
  validated_state getTime st ->
  initialStocks st !! trim newProduct = None ->
  handleAddStock (initialStocks st) newProduct newStock = Some newStocks ->
  let st' := handleUpdateInitialStocks getTime st newStocks in
  errorShown st' = None /\
  initialStocks st' = newStocks /\
  exists amount,
    parseInt10 newStock = Some amount /\ 0 <= amount /\
    newStocks = <[trim newProduct := amount]> (initialStocks st).
Proof.
  intros Hv Hnone Hadd st'. unfold handleAddStock in Hadd.
  destruct (parseInt10 newStock) as [amount|] eqn:Hparse; [|done].
  destruct (negb _ && (0 <=? amount)) eqn:Hguard; [|done].
  injection Hadd as <-. apply andb_true_iff in Hguard as [_ Hamount].
  apply Z.leb_le in Hamount.
  assert (error (processAndValidateData getTime (allData st)
                   (<[trim newProduct := amount]> (initialStocks st))) = None)
    as Hok.
  { apply update_to_higher_stocks; [done|]. intros p. unfold opening.
    destruct (decide (trim newProduct = p)) as [<-|Hp].
    - rewrite lookup_insert_eq, Hnone. done.
    - by rewrite lookup_insert_ne. }
  subst st'. unfold handleUpdateInitialStocks. rewrite Hok. simpl.
  split; [done|]. split; [done|]. by exists amount.
Qed.

(** X16. Editing an opening stock upwards is always accepted: what
    [handleStockChange] hands over for a value that reads as a number not
    below the opening stock of the product, on the opening stocks of a
    validated ledger, passes the replay and becomes the opening stocks
    shown, the ledger keeping its records and their order. *)
Theorem editing_a_stock_upwards_is_accepted st productName value newStocks :
  validated_state getTime st ->
  handleStockChange (initialStocks st) productName value = Some newStocks ->
  (forall amount, parseInt10 value = Some amount ->
     opening (initialStocks st) productName <= amount) ->
  let st' := handleUpdateInitialStocks getTime st newStocks in
  errorShown st' = None /\
  initialStocks st' = newStocks /\
  opening newStocks productName = default 0 (parseInt10 value) /\
  map erase_stok_sisa (allData st') = map erase_stok_sisa (allData st).
Proof.
  intros Hv Hchange Hle st'. unfold handleStockChange in Hchange.
  destruct (parseInt10 value) as [amount|] eqn:Hparse; [|done].
  destruct (0 <=? amount) eqn:Hguard; [|done].
  injection Hchange as <-. specialize (Hle amount eq_refl).
  assert (error (processAndValidateData getTime (allData st)
                   (<[productName := amount]> (initialStocks st))) = None)
    as Hok.
  { apply update_to_higher_stocks; [done|]. intros p. unfold opening.
    destruct (decide (productName = p)) as [<-|Hp].
    - rewrite lookup_insert_eq. exact Hle.
    - by rewrite lookup_insert_ne. }
  destruct (validated_state_inv _ _ Hv) as (Hfix & _).
  subst st'. unfold handleUpdateInitialStocks. rewrite Hok. simpl.
  split; [done|]. split; [done|]. split.
  - unfold opening. by rewrite lookup_insert_eq.
  - rewrite (replay_success _ _ _ Hok). simpl.
    by rewrite map_erase_emitted, Hfix.
Qed.

End SoundEntries.

(** ** The manual entry form *)

Section FormProperties.

Lemma as_integer_sign x z :
  as_integer (VNumber x) = Some z ->
  (is_negative x = false -> 0 <= z) /\
  (is_zero x = false -> z <> 0).
Proof.
  destruct x as [q|s]; [|done]. unfold as_integer, is_negative, is_zero.
  cbv zeta.
  destruct (Pos.eqb_spec (Qden (Qred q)) 1) as [Hden|]; [|done].
  intros [= <-]. pose proof (Qred_correct q) as Heq.
  unfold Qeq in Heq. rewrite Hden in Heq.
  split.
  - intros Hneg%Z.ltb_ge. nia.
  - intros Hz%Z.eqb_neq. nia.
Qed.

Lemma entry_integer_zero z : entry_integer zero = Some z -> z = 0.
Proof. by intros [= <-]. Qed.

Lemma entry_as_SalesData_inv e t :
  entry_as_SalesData e = Some t ->
  id t = entry_id e /\ tanggal t = entry_tanggal e /\
  nama_produk t = entry_nama_produk e /\
  entry_integer (entry_jumlah_terjual e) = Some (jumlah_terjual t) /\
  entry_integer (entry_harga_beli e) = Some (harga_beli t) /\
  entry_integer (entry_harga_jual e) = Some (harga_jual t) /\
  entry_integer (entry_total_penjualan e) = Some (total_penjualan t) /\
  entry_integer (entry_total_biaya e) = Some (total_biaya t) /\
  entry_integer (entry_laba e) = Some (laba t) /\
  entry_integer (entry_stok_sisa e) = Some (stok_sisa t).
Proof.
  unfold entry_as_SalesData. intros Ht. simplify_option_eq. done.
Qed.

(** X17. What the form hands over, read as a record, is a sale of a
    quantity above 0 or an adjustment to a stock that is not negative, under
    a product name that is trimmed and not empty; an adjustment carries no
    price and no amount. *)
Theorem form_entries_are_sound manual_id formData e t :
  handleSubmit manual_id formData = inr e ->
  entry_as_SalesData e = Some t ->
  nama_produk t = trim (form_nama_produk formData) /\
  nama_produk t <> EmptyString /\
  id t = manual_id /\ tanggal t = form_tanggal formData /\
  if String.eqb (form_entryType formData) "sale"
  then 0 < jumlah_terjual t /\ stok_sisa t = 0
  else jumlah_terjual t = 0 /\ 0 <= stok_sisa t /\
       harga_beli t = 0 /\ harga_jual t = 0 /\
       total_penjualan t = 0 /\ total_biaya t = 0 /\ laba t = 0.
Proof.
  unfold handleSubmit.
  destruct (is_empty (trim (form_nama_produk formData))) eqn:Hname; [done|].
  assert (trim (form_nama_produk formData) <> EmptyString) as Hne
    by (by destruct (trim _)).
  intros He Ht.
  apply entry_as_SalesData_inv in Ht
    as (Hid & Hd & Hp & Hq & Hhb & Hhj & Htp & Htb & Hl & Hs).
  destruct (String.eqb (form_entryType formData) "sale") eqn:Hsale.
  - destruct (parseFloat (form_jumlah_terjual formData)) as [q|]; [|done].
    destruct (is_NaN (Some q) || _ || _); [done|].
    cbn [le_zero] in He.
    destruct (is_zero q || is_negative q) eqn:Hsign; [done|].
    apply orb_false_iff in Hsign as [Hz Hn].
    injection He as <-.
    cbn [entry_id entry_tanggal entry_nama_produk entry_jumlah_terjual
         entry_stok_sisa] in *.
    apply entry_integer_zero in Hs.
    destruct (as_integer_sign _ _ Hq) as [H1 H2].
    specialize (H1 Hn). specialize (H2 Hz). rewrite Hp.
    split; [done|]. split; [done|]. split; [done|]. split; [done|].
    split; [lia|done].
  - destruct (parseFloat (form_stok_sisa formData)) as [s|]; [|done].
    cbn [is_NaN lt_zero] in He.
    destruct (is_negative s) eqn:Hsign; [done|].
    injection He as <-.
    cbn [entry_id entry_tanggal entry_nama_produk entry_jumlah_terjual
         entry_harga_beli entry_harga_jual entry_total_penjualan
         entry_total_biaya entry_laba entry_stok_sisa] in *.
    apply entry_integer_zero in Hq, Hhb, Hhj, Htp, Htb, Hl.
    destruct (as_integer_sign _ _ Hs) as [H1 _]. rewrite Hp.
    split; [done|]. split; [done|]. split; [done|]. split; [done|].
    split; [done|]. split; [by apply H1|]. done.
Qed.

End FormProperties.

(** ** Writing a CSV text and reading it back *)

Section StringFacts.

Lemma has_char_append c a b :
  has_char c (a +:+ b) = has_char c a || has_char c b.
Proof.
  induction a as [|x a IH]; simpl; [done|]. by rewrite IH, orb_assoc.
Qed.

Lemma split_clean sep a : has_char sep a = false -> split sep a = [a].
Proof.
  induction a as [|c a IH]; simpl; [done|].
  intros [Hc Ha]%orb_false_iff. rewrite Hc, (IH Ha). done.
Qed.

Lemma split_append sep a rest :
  has_char sep a = false ->
  split sep (a +:+ String sep rest) = a :: split sep rest.
Proof.
  induction a as [|c a IH]; simpl.
  - by rewrite Ascii.eqb_refl.
  - intros [Hc Ha]%orb_false_iff. by rewrite Hc, (IH Ha).
Qed.

(** Splitting undoes joining, when no piece holds the separator. *)
Lemma split_concat sep cs :
  cs <> [] -> Forall (fun c => has_char sep c = false) cs ->
  split sep (String.concat (String sep EmptyString) cs) = cs.
Proof.
  intros Hne Hcs. induction Hcs as [|c cs Hc Hcs IH]; [done|].
  destruct cs as [|c' cs].
  - by apply split_clean.
  - change (String.concat (String sep EmptyString) (c :: c' :: cs))
      with (c +:+ String sep
              (String.concat (String sep EmptyString) (c' :: cs))).
    rewrite split_append by done. f_equal. by apply IH.
Qed.

Lemma has_char_concat c sep cs :
  has_char c sep = false -> Forall (fun x => has_char c x = false) cs ->
  has_char c (String.concat sep cs) = false.
Proof.
  intros Hsep Hcs. induction Hcs as [|x cs Hx Hcs IH]; [done|].
  destruct cs as [|y cs]; [done|].
  change (String.concat sep (x :: y :: cs))
    with (x +:+ sep +:+ String.concat sep (y :: cs)).
  rewrite !has_char_append, Hx, Hsep. exact IH.
Qed.

Lemma trim_start_length s :
  (String.length (trim_start s) <= String.length s)%nat.
Proof.
  induction s as [|c s IH]; simpl; [done|].
  destruct (is_space c); simpl; lia.
Qed.

Lemma trim_end_length s :
  (String.length (trim_end s) <= String.length s)%nat.
Proof.
  induction s as [|c s IH]; simpl; [done|].
  destruct (is_space c && is_empty (trim_end s)); simpl; lia.
Qed.

(** A string that trimming leaves alone has nothing to trim at either
    end. *)
Lemma trimmed_ends s :
  trim s = s -> trim_start s = s /\ trim_end s = s.
Proof.
  unfold trim. intros Ht.
  assert (trim_start s = s) as Hs.
  { destruct s as [|c s]; [done|]. simpl in *.
    destruct (is_space c); [|done].
    pose proof (trim_end_length (trim_start s)) as H1.
    pose proof (trim_start_length s) as H2.
    rewrite Ht in H1. simpl in H1. lia. }
  by rewrite Hs in Ht.
Qed.

Lemma trim_start_append a b :
  a <> EmptyString -> trim_start a = a ->
  trim_start (a +:+ b) = a +:+ b.
Proof.
  destruct a as [|c a]; [done|]. intros _. simpl.
  destruct (is_space c); [|done]. intros Ha.
  pose proof (trim_start_length a) as Hl. rewrite Ha in Hl. simpl in Hl. lia.
Qed.

Lemma trim_end_cons c s :
  trim_end (String c s)
  = if is_space c && is_empty (trim_end s) then EmptyString
    else String c (trim_end s).
Proof. reflexivity. Qed.

Lemma trim_end_append a b :
  is_empty (trim_end b) = false ->
  trim_end (a +:+ b) = a +:+ trim_end b.
Proof.
  intros Hb. induction a as [|c a IH]; [done|].
  change (trim_end (String c a +:+ b))
    with (let r := trim_end (a +:+ b) in
          if is_space c && is_empty r then EmptyString else String c r).
  change (String c a +:+ trim_end b) with (String c (a +:+ trim_end b)).
  cbv zeta. rewrite IH.
  assert (is_empty (a +:+ trim_end b) = false) as ->.
  { destruct a, (trim_end b); done. }
  by rewrite andb_false_r.
Qed.

(** Behind a comma, joined cells with nothing to trim at their end have
    nothing to trim at their end. *)
Lemma trim_end_comma_concat cs :
  Forall (fun c => trim_end c = c) cs ->
  trim_end (String comma (String.concat "," cs))
  = String comma (String.concat "," cs).
Proof.
  intros Hcs. induction Hcs as [|c cs Hc Hcs IH]; [done|].
  destruct cs as [|c' cs].
  - simpl. rewrite Hc. done.
  - change (String.concat "," (c :: c' :: cs))
      with (c +:+ String comma (String.concat "," (c' :: cs))).
    change (String comma (c +:+ ?x)) with (String comma c +:+ x).
    rewrite trim_end_append; by rewrite IH.
Qed.

(** A line of two cells or more, none with anything to trim, has nothing
    to trim and is not blank. *)
Lemma line_trimmed c cs :
  cs <> [] -> Forall (fun x => trim x = x) (c :: cs) ->
  trim (String.concat "," (c :: cs)) = String.concat "," (c :: cs) /\
  is_empty (String.concat "," (c :: cs)) = false.
Proof.
  intros Hne Hall.
  assert (Forall (fun x => trim_end x = x) cs) as Hends.
  { apply Forall_inv_tail in Hall. eapply Forall_impl; [exact Hall|].
    by intros x [_ ?]%trimmed_ends. }
  apply Forall_inv in Hall. apply trimmed_ends in Hall as [Hc1 Hc2].
  destruct cs as [|c' cs]; [done|].
  change (String.concat "," (c :: c' :: cs))
    with (c +:+ String comma (String.concat "," (c' :: cs))).
  split.
  - unfold trim.
    assert (trim_start (c +:+ String comma (String.concat "," (c' :: cs)))
            = c +:+ String comma (String.concat "," (c' :: cs))) as ->.
    { destruct c as [|x c]; [done|]. by apply trim_start_append. }
    rewrite trim_end_append; by rewrite trim_end_comma_concat.
  - by destruct c.
Qed.

(** Lines with nothing to trim, none blank, joined by line feeds: nothing
    to trim. *)
Lemma trim_end_lines ls :
  ls <> [] ->
  Forall (fun l => trim_end l = l /\ is_empty l = false) ls ->
  trim_end (unlines ls) = unlines ls /\ is_empty (unlines ls) = false.
Proof.
  intros Hne Hls. induction Hls as [|l ls [Hl Hl'] Hls IH]; [done|].
  destruct ls as [|l2 ls]; [done|].
  destruct IH as [IH1 IH2]; [done|].
  change (unlines (l :: l2 :: ls))
    with (l +:+ String newline (unlines (l2 :: ls))).
  assert (trim_end (String newline (unlines (l2 :: ls)))
          = String newline (unlines (l2 :: ls))) as Hnl.
  { by rewrite trim_end_cons, IH1, IH2, andb_false_r. }
  split.
  - rewrite trim_end_append; by rewrite Hnl.
  - by destruct l.
Qed.

Lemma trim_lines l ls :
  Forall (fun l => trim l = l /\ is_empty l = false) (l :: ls) ->
  trim (unlines (l :: ls)) = unlines (l :: ls).
Proof.
  intros Hls.
  assert (Forall (fun l => trim_end l = l /\ is_empty l = false) (l :: ls))
    as Hends.
  { eapply Forall_impl; [exact Hls|].
    by intros x [[_ ?]%trimmed_ends ?]. }
  apply Forall_inv in Hls as [[Hl _]%trimmed_ends Hl'].
  unfold trim.
  assert (trim_start (unlines (l :: ls)) = unlines (l :: ls)) as ->.
  { destruct ls as [|l2 ls]; [done|].
    change (unlines (l :: l2 :: ls))
      with (l +:+ String newline (unlines (l2 :: ls))).
    apply trim_start_append; [by destruct l|done]. }
  by apply trim_end_lines.
Qed.

(** The lines [parseCSV] finds in a text made of such lines are those
    lines. *)
Lemma csv_lines_unlines l ls :
  Forall (fun l => trim l = l /\ is_empty l = false /\
                   has_char newline l = false) (l :: ls) ->
  csv_lines (unlines (l :: ls)) = l :: ls.
Proof.
  intros Hls. unfold csv_lines.
  rewrite trim_lines
    by (eapply Forall_impl; [exact Hls|]; by intros x (? & ? & _)).
  unfold unlines, join. rewrite split_concat; [|done|].
  - apply forallb_filter_id, forallb_forall.
    intros x Hx%list_elem_of_In. rewrite Forall_forall in Hls.
    destruct (Hls x Hx) as (-> & -> & _). done.
  - eapply Forall_impl; [exact Hls|]. by intros x (_ & _ & ?).
Qed.

End StringFacts.

Section RoundTrip.

Variable csv_id : nat -> string.
Variable number_to_string : number -> string.

Local Abbreviation cell_of :=
  (fun kv : string * value => value_to_string number_to_string kv.2).

Lemma clean_cell_inv s :
  clean_cell s = true ->
  trim s = s /\ has_char comma s = false /\ has_char newline s = false.
Proof.
  unfold clean_cell.
  intros [[Ht Hc%negb_true_iff]%andb_true_iff Hn%negb_true_iff]%andb_true_iff.
  by apply String.eqb_eq in Ht.
Qed.

(** A line of two clean cells or more is found again as a line, and its
    cells are the cells written. *)
Lemma clean_line cs :
  (2 <= length cs)%nat -> Forall (fun c => clean_cell c = true) cs ->
  let line := join "," cs in
  (trim line = line /\ is_empty line = false /\
   has_char newline line = false) /\
  cells line = cs.
Proof.
  intros Hlen Hcs line. subst line. unfold join.
  assert (Forall (fun c => trim c = c) cs) as Ht.
  { eapply Forall_impl; [exact Hcs|]. by intros c (? & _)%clean_cell_inv. }
  assert (Forall (fun c => has_char comma c = false) cs) as Hc.
  { eapply Forall_impl; [exact Hcs|].
    by intros c (_ & ? & _)%clean_cell_inv. }
  assert (Forall (fun c => has_char newline c = false) cs) as Hn.
  { eapply Forall_impl; [exact Hcs|].
    by intros c (_ & _ & ?)%clean_cell_inv. }
  destruct cs as [|c [|c' cs]]; [simpl in Hlen; lia ..|].
  destruct (line_trimmed c (c' :: cs)) as [H1 H2]; [done|done|].
  repeat split; [done|done| |].
  - by apply has_char_concat.
  - unfold cells. rewrite (split_concat comma) by done.
    clear -Ht. induction Ht as [|x l Hx _ IH]; [done|].
    simpl. by rewrite Hx, IH.
Qed.

Lemma obj_set_fresh k v (o : object) :
  k ∉ obj_keys o -> obj_set k v o = o ++ [(k, v)].
Proof.
  induction o as [|[k' w] o IH]; simpl; [done|].
  intros [Hk Ho]%not_elem_of_cons.
  destruct (String.eqb_spec k' k) as [->|_]; [done|]. by rewrite IH.
Qed.

(** Reading the cells written for exportable properties puts the
    properties back, after what the entry held. *)
Lemma fill_entry_written props : forall pre index entry,
  NoDup (obj_keys entry ++ map fst props) ->
  Forall (exportable_property number_to_string) props ->
  fill_entry (map fst props) (length pre) (pre ++ map cell_of props)
    index entry
  = inr (entry ++ props).
Proof.
  induction props as [|[k v] props IH]; intros pre index entry Hnd Hall.
  - simpl. by rewrite app_nil_r.
  - apply Forall_cons in Hall as [[_ Hkv] Hall]. simpl in Hkv.
    assert (k ∉ obj_keys entry) as Hfresh.
    { apply NoDup_app in Hnd as (_ & Hd & _). intros Hin.
      apply (Hd k Hin). simpl. apply elem_of_cons. by left. }
    assert (NoDup (obj_keys (entry ++ [(k, v)]) ++ map fst props)) as Hnd'.
    { unfold obj_keys in *. rewrite map_app. simpl.
      by rewrite <- app_assoc. }
    assert ((pre ++ map cell_of ((k, v) :: props)) !! length pre
            = Some (value_to_string number_to_string v)) as Hcell.
    { rewrite lookup_app_r by lia. by rewrite Nat.sub_diag. }
    assert (pre ++ map cell_of ((k, v) :: props)
            = (pre ++ [value_to_string number_to_string v])
                ++ map cell_of props) as Hvalues.
    { by rewrite <- app_assoc. }
    change (map fst ((k, v) :: props)) with (k :: map fst props).
    cbn [fill_entry]. rewrite Hcell. cbn [cell_text cell_value].
    specialize (IH (pre ++ [value_to_string number_to_string v]) index
                  (entry ++ [(k, v)]) Hnd' Hall).
    rewrite length_app in IH. simpl in IH.
    rewrite Nat.add_1_r, <- Hvalues, <- app_assoc in IH. simpl in IH.
    case_bool_decide as Hnum.
    + destruct v as [|s|n]; [done|by destruct Hkv|].
      destruct Hkv as (_ & _ & Hparse). simpl. rewrite Hparse.
      by rewrite obj_set_fresh.
    + destruct v as [|s|n]; [done| |by destruct Hkv].
      simpl. by rewrite obj_set_fresh.
Qed.

Lemma filter_not_id (l : list string) :
  "id" ∉ l -> List.filter not_id l = l.
Proof.
  induction l as [|k l IH]; simpl; [done|].
  intros [Hk Hl]%not_elem_of_cons. unfold not_id at 1.
  destruct (String.eqb_spec k "id") as [->|_]; [done|].
  simpl. by rewrite IH.
Qed.

Lemma filter_not_id_properties (props : object) :
  "id" ∉ map fst props ->
  List.filter (fun kv : string * value => not_id kv.1) props = props.
Proof.
  induction props as [|[k v] l IH]; simpl; [done|].
  intros [Hk Hl]%not_elem_of_cons. unfold not_id at 1.
  destruct (String.eqb_spec k "id") as [->|_]; [done|].
  simpl. by rewrite IH.
Qed.

Lemma written_cells props :
  Forall (exportable_property number_to_string) props ->
  Forall (fun c => clean_cell c = true) (map cell_of props) /\
  Forall (fun c => clean_cell c = true) (map fst props).
Proof.
  induction 1 as [|[k v] props [Hk Hv] _ [IH1 IH2]]; [done|].
  simpl in *. split; constructor; try done.
  destruct v as [|s|n]; [done|by destruct Hv|by destruct Hv as (_ & ? & _)].
Qed.

Lemma required_headers_two header :
  Forall (fun rh => rh ∈ header) requiredHeaders -> (2 <= length header)%nat.
Proof.
  intros Hreq.
  assert ("tanggal" ∈ header) as H1.
  { rewrite Forall_forall in Hreq. apply Hreq. set_solver. }
  assert ("nama_produk" ∈ header) as H2.
  { rewrite Forall_forall in Hreq. apply Hreq. set_solver. }
  destruct header as [|a [|b header]]; simpl; [|exfalso|lia].
  - by apply elem_of_nil in H1.
  - apply list_elem_of_singleton in H1, H2. congruence.
Qed.

(** The rows [parseCSV] reads from the lines written for exportable
    entries are the entries, under fresh identifiers. *)
Lemma parse_rows_written header es : forall index,
  NoDup header -> "id" ∉ header -> (2 <= length header)%nat ->
  Forall (exportable_entry number_to_string header) es ->
  parse_rows csv_id header
    (map (fun row =>
            join "," (map cell_of
                        (List.filter (fun kv => not_id kv.1) row))) es)
    index
  = inr (imap (fun j e => ("id", VString (csv_id (index + j))) :: tl e) es).
Proof.
  induction es as [|e es IH]; intros index Hnd Hid Hlen Hall; [done|].
  apply Forall_cons in Hall as [(i & props & -> & Hkeys & Hprops) Hall].
  destruct (written_cells props Hprops) as [Hcells _].
  assert (List.filter (fun kv : string * value => not_id kv.1)
            (("id", i) :: props) = props) as Hfilter.
  { cbn [List.filter fst]. unfold not_id at 1. simpl negb.
    apply filter_not_id_properties. by rewrite Hkeys. }
  cbn [map parse_rows]. rewrite Hfilter.
  destruct (clean_line (map cell_of props)) as [_ ->];
    [by rewrite length_map, <- (length_map fst), Hkeys|done|].
  pose proof (fill_entry_written props [] index
                [("id", VString (csv_id index))]) as Hfill.
  simpl in Hfill. rewrite Hkeys in Hfill. rewrite Hfill; [| |done].
  - rewrite (IH (S index)) by done. cbn [imap tl].
    rewrite Nat.add_0_r. do 2 f_equal.
    apply imap_ext. intros j e _. simpl.
    by rewrite <- Nat.add_succ_r.
  - apply NoDup_cons. done.
Qed.

(** X18. A ledger written by [exportToCSV] and read back by [parseCSV]:
    when the entries hold, after [id], the same columns, none named by an
    array index, the required ones among them, and every value is written
    as a clean cell that reads back as the value, the text parses without
    an error into the same entries, property for property and in the same
    order, each under the identifier drawn for its row. *)
Theorem export_then_parse header es :
  es <> [] -> exportable_header header ->
  Forall (exportable_entry number_to_string header) es ->
  exists text,
    exportToCSV number_to_string es = Some text /\
    parseCSV csv_id text
    = {| data := imap (fun index e =>
                         ("id", VString (csv_id index)) :: tl e) es;
         parseError := None |}.
Proof.
  intros Hne (Hnd & Hid & _ & Hreq) Hall.
  destruct es as [|e1 rest]; [done|]. clear Hne.
  pose proof (required_headers_two header Hreq) as Hlen.
  eexists. split; [reflexivity|].
  pose proof (Forall_inv Hall) as (i & props & He1 & Hkeys & Hprops).
  assert (List.filter not_id (obj_keys e1) = header) as ->.
  { subst e1. unfold obj_keys. cbn [map fst List.filter].
    unfold not_id at 1. simpl negb. cbv iota. rewrite Hkeys.
    by apply filter_not_id. }
  destruct (written_cells props Hprops) as [_ Hheader].
  rewrite Hkeys in Hheader.
  destruct (clean_line header Hlen Hheader) as [Hline Hcells].
  match goal with
  | |- context [join "," header :: ?l] => set (lines := l)
  end.
  assert (Forall (fun l => trim l = l /\ is_empty l = false /\
                           has_char newline l = false) lines) as Hlines.
  { subst lines. apply Forall_map. eapply Forall_impl; [exact Hall|].
    intros e (i' & props' & -> & Hkeys' & Hprops'). simpl.
    cbn [List.filter fst]. unfold not_id at 1. simpl negb. cbv iota.
    rewrite !filter_not_id_properties by (by rewrite Hkeys').
    destruct (written_cells props' Hprops') as [Hc _].
    destruct (clean_line (map cell_of props')) as [Hgoal _];
      [by rewrite length_map, <- (length_map fst), Hkeys'|done|].
    exact Hgoal. }
  unfold parseCSV.
  change (join (String newline EmptyString) (join "," header :: lines))
    with (unlines (join "," header :: lines)).
  rewrite csv_lines_unlines by (by constructor).
  assert ((length (join "," header :: lines) <? 2)%nat = false) as ->.
  { subst lines. by apply Nat.ltb_ge; simpl; lia. }
  cbv zeta. cbn [hd tl]. rewrite Hcells.
  assert (List.filter (fun rh => negb (bool_decide (rh ∈ header)))
            requiredHeaders = []) as ->.
  { clear -Hreq. induction Hreq as [|rh l Hrh _ IH]; [done|].
    simpl. by rewrite bool_decide_true, IH. }
  simpl Nat.ltb. cbv iota. subst lines.
  rewrite (parse_rows_written header (e1 :: rest) 0) by done.
  done.
Qed.

End RoundTrip.

(** ** The properties at work on examples *)

Lemma current_stock_is_replayed_stock_witness :
  table_get "A"
    (finalStockLevels
       (summary iso_getTime
          (processedData
             (processAndValidateData iso_getTime example_ledger ∅))))
  = match of_product "A"
            (stable_sort (by_tanggal iso_getTime) example_ledger) with
    | [] => None
    | _ :: _ =>
        Some (folded_stock (opening ∅ "A")
                (of_product "A"
                   (stable_sort (by_tanggal iso_getTime) example_ledger)))
    end.
Proof.
  apply (current_stock_is_replayed_stock iso_getTime example_ledger ∅ "A").
  vm_compute. reflexivity.
Defined.


Lemma deleting_a_sale_is_accepted_witness :
  let st' := handleDeleteRow iso_getTime example_dashboard "s1" in
  errorShown st' = None /\
  map erase_stok_sisa (allData st')
  = map erase_stok_sisa
      (List.filter (fun item => negb (String.eqb (id item) "s1"))
         (allData example_dashboard)).
Proof.
  apply (deleting_a_sale_is_accepted iso_getTime example_dashboard "s1").
  - vm_compute. reflexivity.
  - forall_each; simpl; [discriminate|lia].
Defined.

Lemma raising_stocks_is_accepted_witness :
  let st' :=
    handleUpdateInitialStocks iso_getTime example_dashboard {["A" := 5]} in
  errorShown st' = None /\
  initialStocks st' = {["A" := 5]} /\
  map erase_stok_sisa (allData st')
  = map erase_stok_sisa (allData example_dashboard).
Proof.
  apply (raising_stocks_is_accepted iso_getTime example_dashboard
           {["A" := 5]}).
  - vm_compute. reflexivity.
  - intros p. unfold opening. simpl. rewrite lookup_empty. simpl.
    destruct ({["A" := 5]} !! p) as [v|] eqn:Hv; [|simpl; lia].
    apply lookup_singleton_Some in Hv as [_ <-]. simpl. lia.
Defined.

Lemma adding_a_latest_sale_witness :
  let newEntry := sale_record "s2" "2024-01-03" "A" 2 in
  let current :=
    folded_stock (opening (initialStocks example_dashboard)
                    (nama_produk newEntry))
      (of_product (nama_produk newEntry) (allData example_dashboard)) in
  handleAddManualEntry iso_getTime example_dashboard newEntry
  = if current - jumlah_terjual newEntry <? 0 then
      (example_dashboard,
       Some (insufficient_stock_message (nama_produk newEntry)
               (tanggal newEntry) current (jumlah_terjual newEntry)))
    else
      ({| allData :=
            allData example_dashboard
            ++ [with_stok_sisa newEntry (current - jumlah_terjual newEntry)];
          initialStocks := initialStocks example_dashboard;
          errorShown := None;
          storedData :=
            Some (allData example_dashboard
                  ++ [with_stok_sisa newEntry
                        (current - jumlah_terjual newEntry)]);
          storedStocks := storedStocks example_dashboard |}, None).
Proof.
  intros newEntry.
  apply (adding_a_latest_sale iso_getTime example_dashboard newEntry).
  - vm_compute. reflexivity.
  - forall_each; vm_compute; discriminate.
  - discriminate.
Defined.

Lemma deleting_a_missing_row_witness :
  handleDeleteRow iso_getTime example_dashboard "s9"
  = {| allData := allData example_dashboard;
       initialStocks := initialStocks example_dashboard;
       errorShown := None;
       storedData := Some (allData example_dashboard);
       storedStocks := storedStocks example_dashboard |}.
Proof.
  apply (deleting_a_missing_row iso_getTime example_dashboard "s9").
  - vm_compute. reflexivity.
  - forall_each; discriminate.
Defined.


Lemma adding_a_first_stock_is_accepted_witness :
  let newStocks : gmap string Z := <["B" := 12]> ∅ in
  let st' :=
    handleUpdateInitialStocks iso_getTime example_dashboard newStocks in
  errorShown st' = None /\
  initialStocks st' = newStocks /\
  exists amount,
    parseInt10 "12" = Some amount /\ 0 <= amount /\
    newStocks = <[trim " B " := amount]> (initialStocks example_dashboard).
Proof.
  intros newStocks.
  apply (adding_a_first_stock_is_accepted iso_getTime example_dashboard
           " B " "12" newStocks).
  - vm_compute. reflexivity.
  - reflexivity.
  - vm_compute. reflexivity.
Defined.

Lemma form_entries_are_sound_witness :
  let t := mkSalesData "m1" "2024-01-05" "Kopi" 3 2 4 12 6 6 0 in
  nama_produk t = trim (form_nama_produk example_form) /\
  nama_produk t <> EmptyString /\
  id t = "m1" /\ tanggal t = form_tanggal example_form /\
  if String.eqb (form_entryType example_form) "sale"
  then 0 < jumlah_terjual t /\ stok_sisa t = 0
  else jumlah_terjual t = 0 /\ 0 <= stok_sisa t /\
       harga_beli t = 0 /\ harga_jual t = 0 /\
       total_penjualan t = 0 /\ total_biaya t = 0 /\ laba t = 0.
Proof.
  intros t.
  eapply (form_entries_are_sound "m1" example_form _ t).
  - reflexivity.
  - vm_compute. reflexivity.
Defined.

Lemma export_then_parse_witness :
  exists text,
    exportToCSV example_number_to_string [example_entry] = Some text /\
    parseCSV example_csv_id text
    = {| data := imap (fun index e =>
                         ("id", VString (example_csv_id index)) :: tl e)
                   [example_entry];
         parseError := None |}.
Proof.
  apply (export_then_parse example_csv_id example_number_to_string
           requiredHeaders [example_entry]).
  - discriminate.
  - split; [|split; [|split]].
    + apply (bool_decide_unpack _). vm_compute. reflexivity.
    + apply (bool_decide_unpack _). vm_compute. reflexivity.
    + forall_each; reflexivity.
    + apply (bool_decide_unpack _). vm_compute. reflexivity.
  - constructor; [|constructor].
    exists (VString "s1"), (tl example_entry).
    split; [reflexivity|]. split; [reflexivity|].
    repeat (apply Forall_cons; split;
            [split; [reflexivity|];
             first [ split; [apply (bool_decide_unpack _); vm_compute;
                             reflexivity|];
                     split; vm_compute; reflexivity
                   | split; [apply (bool_decide_unpack _); vm_compute;
                             reflexivity|];
                     vm_compute; reflexivity ]|]).
    constructor.
Defined.

Lemma editing_a_stock_upwards_is_accepted_witness :
  let newStocks : gmap string Z := <["A" := 4]> ∅ in
  let st' :=
    handleUpdateInitialStocks iso_getTime example_dashboard newStocks in
  errorShown st' = None /\
  initialStocks st' = newStocks /\
  opening newStocks "A" = default 0 (parseInt10 "4") /\
  map erase_stok_sisa (allData st')
  = map erase_stok_sisa (allData example_dashboard).
Proof.
  intros newStocks.
  apply (editing_a_stock_upwards_is_accepted iso_getTime example_dashboard
           "A" "4" newStocks).
  - vm_compute. reflexivity.
  - vm_compute. reflexivity.
  - intros amount [= <-]. vm_compute. discriminate.
Defined.

(** ** Doubles on integers

    Exactness of the operations of [SpecFloat] on the doubles of integers
    below 2^53 in magnitude. *)

Section FloatFacts.

Lemma iter_pos_iter {A : Type} (f : A -> A) n x :
  SpecFloat.iter_pos f n x = Pos.iter f x n.
Proof.
  revert x. induction n as [n IH|n IH|]; intros x; simpl.
  - by rewrite !IH, <- !Pos.iter_swap.
  - by rewrite !IH.
  - done.
Qed.

Lemma digits2_pos_size p : digits2_pos p = Pos.size p.
Proof. induction p; simpl; congruence. Qed.

Lemma size_shiftl p n :
  Zpos (Pos.size (Pos.shiftl p n)) = Zpos (Pos.size p) + Z.of_N n.
Proof.
  destruct n as [|n]; unfold Pos.shiftl; [simpl; lia|].
  induction n as [|n IH] using Pos.peano_ind.
  - simpl. lia.
  - rewrite Pos.iter_succ. cbn [Pos.size]. lia.
Qed.

Lemma shiftl_shiftl p n m :
  Pos.shiftl (Pos.shiftl p n) m = Pos.shiftl p (n + m).
Proof.
  destruct n as [|n], m as [|m]; unfold Pos.shiftl; simpl; try done.
  by rewrite (Pos.add_comm n m), Pos.iter_add.
Qed.

Lemma shiftl_Z p n : Zpos (Pos.shiftl p n) = Zpos p * 2 ^ Z.of_N n.
Proof.
  destruct n as [|n]; unfold Pos.shiftl; [simpl; lia|].
  induction n as [|n IH] using Pos.peano_ind.
  - simpl. lia.
  - rewrite Pos.iter_succ, Pos2Z.inj_xO, IH. cbn [Z.of_N].
    rewrite Pos2Z.inj_succ, Z.pow_succ_r by lia. lia.
Qed.

Lemma shr_exact m n :
  Pos.iter shr_1 {| shr_m := Zpos (Pos.iter xO m n); shr_r := false;
                    shr_s := false |} n
  = {| shr_m := Zpos m; shr_r := false; shr_s := false |}.
Proof.
  induction n as [|n IH] using Pos.peano_ind; [done|].
  by rewrite Pos.iter_succ_r, Pos.iter_succ.
Qed.

Lemma size_bound p : Zpos p < 2 ^ 53 <-> Zpos (Pos.size p) <= 53.
Proof.
  pose proof (Pos.size_gt p) as Hgt. pose proof (Pos.size_le p) as Hle.
  apply Pos2Z.pos_lt_pos in Hgt. apply Pos2Z.pos_le_pos in Hle.
  rewrite Pos2Z.inj_pow in Hgt, Hle. rewrite (Pos2Z.inj_xO p) in Hle.
  split; intros H.
  - destruct (Z.le_gt_cases (Zpos (Pos.size p)) 53) as [|Hgt']; [done|].
    assert (2 ^ 54 <= 2 ^ Zpos (Pos.size p)) by (apply Z.pow_le_mono_r; lia).
    lia.
  - assert (2 ^ Zpos (Pos.size p) <= 2 ^ 53) by (apply Z.pow_le_mono_r; lia).
    lia.
Qed.

(** A mantissa of 53 bits followed by zeros is rounded to itself. *)
Lemma binary_round_aux_exact s p n e :
  Zpos (Pos.size p) = 53 ->
  -1074 <= e + Z.of_N n <= 971 ->
  binary_round_aux 53 1024 s (Zpos (Pos.shiftl p n)) e loc_Exact
  = S754_finite s p (e + Z.of_N n).
Proof.
  intros Hp He. unfold binary_round_aux, shr_fexp.
  cbn [Zdigits2]. rewrite digits2_pos_size, size_shiftl, Hp.
  assert (fexp 53 1024 (53 + Z.of_N n + e) - e = Z.of_N n) as ->.
  { unfold fexp, emin. lia. }
  assert (shr (shr_record_of_loc (Zpos (Pos.shiftl p n)) loc_Exact) e
            (Z.of_N n)
          = ({| shr_m := Zpos p; shr_r := false; shr_s := false |},
             e + Z.of_N n)) as ->.
  { destruct n as [|n]; [by rewrite Z.add_0_r|].
    unfold shr, Pos.shiftl. cbn [Z.of_N shr_record_of_loc].
    by rewrite iter_pos_iter, shr_exact. }
  cbn [shr_m loc_of_shr_record round_nearest_even Zdigits2].
  rewrite digits2_pos_size, Hp.
  assert (fexp 53 1024 (53 + (e + Z.of_N n)) - (e + Z.of_N n) = 0) as ->.
  { unfold fexp, emin. lia. }
  cbn [shr shr_record_of_loc shr_m].
  destruct (Z.leb_spec (e + Z.of_N n) (1024 - 53)); [done|lia].
Qed.

(** Rounding a positive integer below 2^53, given with trailing zeros, is
    exact. *)
Lemma binary_round_exact s p n :
  Zpos p < 2 ^ 53 ->
  binary_round 53 1024 s (Pos.shiftl p n) (- Z.of_N n) = canonical s p.
Proof.
  intros Hp%size_bound. unfold binary_round, canonical.
  rewrite digits2_pos_size.
  set (d := Zpos (Pos.size p)) in *.
  assert (0 < d) as Hd by (unfold d; lia).
  assert (fexp 53 1024 (Zpos (Pos.size (Pos.shiftl p n)) + - Z.of_N n)
          = d - 53) as ->.
  { rewrite size_shiftl. unfold fexp, emin. fold d. lia. }
  set (p' := Pos.shiftl p (Z.to_N (53 - d))).
  assert (Zpos (Pos.size p') = 53) as Hp'.
  { unfold p'. rewrite size_shiftl. fold d. lia. }
  unfold shl_align.
  destruct (d - 53 - - Z.of_N n) as [|j|j] eqn:Hj.
  - assert (Pos.shiftl p n = Pos.shiftl p' 0) as ->.
    { unfold p'. rewrite shiftl_shiftl. f_equal. lia. }
    rewrite binary_round_aux_exact by (cbn [Z.of_N]; lia).
    f_equal. cbn [Z.of_N]. lia.
  - assert (Pos.shiftl p n = Pos.shiftl p' (N.pos j)) as ->.
    { unfold p'. rewrite shiftl_shiftl. f_equal. lia. }
    rewrite binary_round_aux_exact by (cbn [Z.of_N]; lia).
    f_equal. cbn [Z.of_N]. lia.
  - assert (PosDef.Pos.iter xO (Pos.shiftl p n) j = Pos.shiftl p' 0) as ->.
    { change (PosDef.Pos.iter xO (Pos.shiftl p n) j)
        with (Pos.shiftl (Pos.shiftl p n) (N.pos j)).
      unfold p'. rewrite !shiftl_shiftl. f_equal. lia. }
    rewrite binary_round_aux_exact by (cbn [Z.of_N]; lia).
    f_equal. cbn [Z.of_N]. lia.
Qed.

Lemma of_Z_pos p : Zpos p < 2 ^ 53 -> double_of_Z (Zpos p) = canonical false p.
Proof. intros Hp. apply (binary_round_exact false p 0 Hp). Qed.

Lemma of_Z_neg p : Zpos p < 2 ^ 53 -> double_of_Z (Zneg p) = canonical true p.
Proof. intros Hp. apply (binary_round_exact true p 0 Hp). Qed.

(** Normalising an integer below 2^53 in magnitude, given with trailing
    zeros, is exact. *)
Lemma binary_normalize_exact v n :
  Z.abs v < 2 ^ 53 ->
  binary_normalize 53 1024 (v * 2 ^ Z.of_N n) (- Z.of_N n) false = double_of_Z v.
Proof.
  intros Hv. destruct v as [|p|p]; [done|..].
  - rewrite <- shiftl_Z. cbn [binary_normalize].
    rewrite binary_round_exact by done. by rewrite of_Z_pos.
  - change (Z.neg p) with (- Zpos p). rewrite Z.mul_opp_l, <- shiftl_Z.
    change (- Zpos (Pos.shiftl p n)) with (Zneg (Pos.shiftl p n)).
    change (- Zpos p) with (Zneg p). cbn [binary_normalize].
    rewrite binary_round_exact by done. by rewrite of_Z_neg.
Qed.

Lemma shl_align_fst m e e' :
  e' <= e -> fst (shl_align m e e') = Pos.shiftl m (Z.to_N (e - e')).
Proof.
  intros He. unfold shl_align.
  destruct (e' - e) as [|j|j] eqn:Hj; [| lia |].
  - by replace (e - e') with 0 by lia.
  - replace (e - e') with (Zpos j) by lia. done.
Qed.

(** The mantissa of the double of an integer, aligned to an exponent. *)
Lemma aligned_mantissa s p e :
  Zpos p < 2 ^ 53 -> e <= Zpos (Pos.size p) - 53 ->
  match canonical s p with
  | S754_finite s' m e0 =>
      cond_Zopp s' (Zpos (fst (shl_align m e0 e)))
      = cond_Zopp s (Zpos p) * 2 ^ (- e)
  | _ => False
  end.
Proof.
  intros Hp%size_bound He. unfold canonical.
  rewrite shl_align_fst, shiftl_shiftl, shiftl_Z by done.
  replace (Z.of_N (Z.to_N (53 - Zpos (Pos.size p))
                   + Z.to_N (Zpos (Pos.size p) - 53 - e))) with (- e) by lia.
  destruct s; simpl; lia.
Qed.

Lemma of_Z_canon z :
  z <> 0 -> Z.abs z < 2 ^ 53 -> double_of_Z z = canonical (sign_of z) (Z.to_pos (Z.abs z)).
Proof.
  intros Hz Hlt. destruct z as [|p|p]; [done|..].
  - by apply of_Z_pos.
  - by apply of_Z_neg.
Qed.

Lemma cond_Zopp_sign z :
  z <> 0 -> cond_Zopp (sign_of z) (Zpos (Z.to_pos (Z.abs z))) = z.
Proof. by destruct z. Qed.

Lemma canonical_exponent_nonpos p :
  Zpos p < 2 ^ 53 -> Zpos (Pos.size p) - 53 <= 0.
Proof. intros Hp%size_bound. lia. Qed.

(** Subtraction and addition are exact on integers, as long as the operands
    and the result stay below 2^53 in magnitude. *)
Lemma double_sub_exact a b :
  Z.abs a < 2 ^ 53 -> Z.abs b < 2 ^ 53 -> Z.abs (a - b) < 2 ^ 53 ->
  double_sub (double_of_Z a) (double_of_Z b) = double_of_Z (a - b).
Proof.
  intros Ha Hb Hab. unfold double_sub.
  destruct (Z.eq_dec a 0) as [->|Hna]; destruct (Z.eq_dec b 0) as [->|Hnb].
  - done.
  - rewrite (of_Z_canon b), (of_Z_canon (0 - b)) by lia.
    unfold canonical. cbn [SFsub double_of_Z binary_normalize].
    replace (Z.abs (0 - b)) with (Z.abs b) by lia.
    f_equal. unfold sign_of. destruct (Z.ltb_spec b 0), (Z.ltb_spec (0 - b) 0);
      simpl; try done; lia.
  - rewrite Z.sub_0_r. rewrite (of_Z_canon a) by done. done.
  - pose proof (aligned_mantissa (sign_of a) (Z.to_pos (Z.abs a))) as Ha'.
    pose proof (aligned_mantissa (sign_of b) (Z.to_pos (Z.abs b))) as Hb'.
    rewrite (of_Z_canon a), (of_Z_canon b) by done.
    unfold canonical in *. cbn [SFsub].
    set (ea := Zpos (Pos.size (Z.to_pos (Z.abs a))) - 53) in *.
    set (eb := Zpos (Pos.size (Z.to_pos (Z.abs b))) - 53) in *.
    assert (ea <= 0) by (apply canonical_exponent_nonpos; lia).
    assert (eb <= 0) by (apply canonical_exponent_nonpos; lia).
    rewrite Ha', Hb' by lia. rewrite !cond_Zopp_sign by done.
    rewrite <- Z.mul_sub_distr_r.
    replace (- Z.min ea eb) with (Z.of_N (Z.to_N (- Z.min ea eb))) by lia.
    replace (Z.min ea eb) with (- Z.of_N (Z.to_N (- Z.min ea eb))) at 2 by lia.
    by apply binary_normalize_exact.
Qed.

Lemma double_add_exact a b :
  Z.abs a < 2 ^ 53 -> Z.abs b < 2 ^ 53 -> Z.abs (a + b) < 2 ^ 53 ->
  double_add (double_of_Z a) (double_of_Z b) = double_of_Z (a + b).
Proof.
  intros Ha Hb Hab. unfold double_add.
  destruct (Z.eq_dec a 0) as [->|Hna]; destruct (Z.eq_dec b 0) as [->|Hnb].
  - done.
  - rewrite Z.add_0_l. rewrite (of_Z_canon b) by done. done.
  - rewrite Z.add_0_r. rewrite (of_Z_canon a) by done. done.
  - pose proof (aligned_mantissa (sign_of a) (Z.to_pos (Z.abs a))) as Ha'.
    pose proof (aligned_mantissa (sign_of b) (Z.to_pos (Z.abs b))) as Hb'.
    rewrite (of_Z_canon a), (of_Z_canon b) by done.
    unfold canonical in *. cbn [SFadd].
    set (ea := Zpos (Pos.size (Z.to_pos (Z.abs a))) - 53) in *.
    set (eb := Zpos (Pos.size (Z.to_pos (Z.abs b))) - 53) in *.
    assert (ea <= 0) by (apply canonical_exponent_nonpos; lia).
    assert (eb <= 0) by (apply canonical_exponent_nonpos; lia).
    rewrite Ha', Hb' by lia. rewrite !cond_Zopp_sign by done.
    rewrite <- Z.mul_add_distr_r.
    replace (- Z.min ea eb) with (Z.of_N (Z.to_N (- Z.min ea eb))) by lia.
    replace (Z.min ea eb) with (- Z.of_N (Z.to_N (- Z.min ea eb))) at 2 by lia.
    by apply binary_normalize_exact.
Qed.

Lemma size_lt_lt p q :
  Zpos (Pos.size p) < Zpos (Pos.size q) -> Zpos p < Zpos q.
Proof.
  intros Hlt.
  pose proof (Pos.size_gt p) as Hgt. pose proof (Pos.size_le q) as Hle.
  apply Pos2Z.pos_lt_pos in Hgt. apply Pos2Z.pos_le_pos in Hle.
  rewrite Pos2Z.inj_pow in Hgt, Hle. rewrite (Pos2Z.inj_xO q) in Hle.
  assert (2 ^ (Zpos (Pos.size p) + 1) <= 2 ^ Zpos (Pos.size q))
    by (apply Z.pow_le_mono_r; lia).
  rewrite Z.pow_add_r in * by lia. lia.
Qed.

(** Comparing the doubles of two positive integers compares the integers. *)
Lemma canonical_compare p q :
  Zpos p < 2 ^ 53 -> Zpos q < 2 ^ 53 ->
  match Zpos (Pos.size p) - 53 ?= Zpos (Pos.size q) - 53 with
  | Lt => Lt
  | Gt => Gt
  | Eq =>
      Pos.compare_cont Eq
        (Pos.shiftl p (Z.to_N (53 - Zpos (Pos.size p))))
        (Pos.shiftl q (Z.to_N (53 - Zpos (Pos.size q))))
  end = (Zpos p ?= Zpos q).
Proof.
  intros Hp Hq.
  destruct (Z.compare_spec (Zpos (Pos.size p) - 53) (Zpos (Pos.size q) - 53))
    as [He|He|He].
  - assert (Pos.size p = Pos.size q) as -> by lia.
    change (Pos.compare_cont Eq ?x ?y) with (Zpos x ?= Zpos y).
    rewrite !shiftl_Z.
    assert (0 < 2 ^ Z.of_N (Z.to_N (53 - Z.pos (Pos.size q))))
      by (apply Z.pow_pos_nonneg; lia).
    destruct (Z.compare_spec (Zpos p) (Zpos q)) as [Hc|Hc|Hc].
    + apply Z.compare_eq_iff. by rewrite Hc.
    + apply Z.compare_lt_iff. by apply Z.mul_lt_mono_pos_r.
    + apply Z.compare_gt_iff. by apply Z.mul_lt_mono_pos_r.
  - symmetry. apply Z.compare_lt_iff. apply size_lt_lt. lia.
  - symmetry. apply Z.compare_gt_iff. apply size_lt_lt. lia.
Qed.

Lemma SFcompare_exact a b :
  Z.abs a < 2 ^ 53 -> Z.abs b < 2 ^ 53 ->
  SFcompare (double_of_Z a) (double_of_Z b) = Some (a ?= b).
Proof.
  intros Ha Hb.
  destruct (Z.eq_dec a 0) as [->|Hna]; destruct (Z.eq_dec b 0) as [->|Hnb].
  - done.
  - rewrite (of_Z_canon b) by done. by destruct b.
  - rewrite (of_Z_canon a) by done. by destruct a.
  - rewrite (of_Z_canon a), (of_Z_canon b) by done.
    destruct a as [|p|p], b as [|q|q]; try done; unfold canonical, sign_of;
      cbn [Z.ltb Z.compare SFcompare Z.abs Z.to_pos].
    + by rewrite canonical_compare.
    + change (Z.to_pos (Z.abs (Z.neg p))) with p.
      change (Z.to_pos (Z.abs (Z.neg q))) with q.
      change (p ?= q)%positive with (Zpos p ?= Zpos q).
      rewrite <- (canonical_compare p q) by done.
      by destruct (Zpos (Pos.size p) - 53 ?= Zpos (Pos.size q) - 53).
Qed.

Lemma double_lt_exact a b :
  Z.abs a < 2 ^ 53 -> Z.abs b < 2 ^ 53 ->
  double_lt (double_of_Z a) (double_of_Z b) = (a <? b).
Proof.
  intros Ha Hb. unfold double_lt, SFltb, Z.ltb. by rewrite SFcompare_exact.
Qed.

Lemma double_eq_exact a b :
  Z.abs a < 2 ^ 53 -> Z.abs b < 2 ^ 53 ->
  double_eq (double_of_Z a) (double_of_Z b) = (a =? b).
Proof.
  intros Ha Hb. unfold double_eq, SFeqb. rewrite SFcompare_exact by done.
  destruct (Z.compare_spec a b) as [->|Hlt|Hlt]; symmetry.
  - apply Z.eqb_refl.
  - apply Z.eqb_neq. lia.
  - apply Z.eqb_neq. lia.
Qed.


End FloatFacts.

(** ** The ledger on doubles and the ledger on integers

    On a small ledger of integers the code, run on doubles, computes what
    the integer model computes. *)

Section DoubleRefinement.

Variable getTime : string -> Z.
Variable number_to_string : double -> string.

Lemma stable_sort_fmap {A B : Type} (cmpA : A -> A -> Z)
    (cmpB : B -> B -> Z) (f : A -> B) l :
  (forall a b, cmpB (f a) (f b) = cmpA a b) ->
  stable_sort cmpB (map f l) = map f (stable_sort cmpA l).
Proof.
  intros Hf. induction l as [|a l IH]; simpl; [done|]. rewrite IH. clear IH.
  induction (stable_sort cmpA l) as [|b m IHm]; simpl; [done|].
  rewrite Hf. destruct (cmpA a b <=? 0); simpl; [done|]. by rewrite IHm.
Qed.

Lemma sort_as_doubles l :
  stable_sort (Double.by_tanggal getTime) (map as_doubles l)
  = map as_doubles (stable_sort (by_tanggal getTime) l).
Proof. by apply stable_sort_fmap. Qed.

Lemma stocks_within_opening M cs p :
  0 <= M -> stocks_within M cs -> Z.abs (opening cs p) <= M.
Proof.
  intros HM Hcs. unfold opening. destruct (cs !! p) as [v|] eqn:Hv; simpl.
  - by apply (Hcs p v).
  - lia.
Qed.

Lemma stocks_within_weaken M M' cs :
  M <= M' -> stocks_within M cs -> stocks_within M' cs.
Proof. intros HM Hcs p v Hv. specialize (Hcs p v Hv). simpl in *. lia. Qed.

Lemma stock_after_within M B cs t :
  0 <= M -> 0 <= B -> stocks_within M cs -> record_within B t ->
  Z.abs (stock_after cs t) <= M + B.
Proof.
  intros HM HB Hcs (Hq & _ & _ & _ & _ & _ & Hs).
  pose proof (stocks_within_opening M cs (nama_produk t) HM Hcs).
  unfold stock_after, apply_transaction.
  destruct (jumlah_terjual t =? 0); lia.
Qed.

Lemma advance_within M B cs t :
  0 <= M -> 0 <= B -> stocks_within M cs -> record_within B t ->
  stocks_within (M + B) (advance cs t).
Proof.
  intros HM HB Hcs Ht. unfold advance. apply map_Forall_insert_2.
  - by apply stock_after_within.
  - unfold ensure_entry. destruct (cs !! nama_produk t).
    + apply (stocks_within_weaken M); [lia|done].
    + apply map_Forall_insert_2; [simpl; lia|].
      apply (stocks_within_weaken M); [lia|done].
Qed.

Lemma opening_as_doubles cs p :
  default double_zero ((double_of_Z <$> cs) !! p) = double_of_Z (opening cs p).
Proof. unfold opening. rewrite lookup_fmap. by destruct (cs !! p). Qed.

Lemma ensure_entry_as_doubles cs p :
  match (double_of_Z <$> cs) !! p with
  | None => <[p := double_zero]> (double_of_Z <$> cs)
  | Some _ => double_of_Z <$> cs
  end = double_of_Z <$> ensure_entry cs p.
Proof.
  unfold ensure_entry. rewrite lookup_fmap.
  destruct (cs !! p); simpl; [done|]. by rewrite fmap_insert.
Qed.

Lemma with_stok_sisa_as_doubles t v :
  Double.with_stok_sisa (as_doubles t) (double_of_Z v)
  = as_doubles (with_stok_sisa t v).
Proof. done. Qed.

(** One turn of the loop on doubles, told on the integers. *)
Lemma double_replay_loop_cons M B t l cs acc :
  0 <= M -> 0 <= B -> M + B < 2 ^ 53 ->
  stocks_within M cs -> record_within B t ->
  Double.replay_loop number_to_string (as_doubles t :: l)
    (double_of_Z <$> cs) acc
  = if sale_fails cs t then
      {| Double.processedData := [];
         Double.error :=
           Some (Double.insufficient_stock_message number_to_string
                   (nama_produk t) (tanggal t)
                   (double_of_Z (opening cs (nama_produk t)))
                   (double_of_Z (jumlah_terjual t))) |}
    else
      Double.replay_loop number_to_string l
        (double_of_Z <$> advance cs t)
        (acc ++ [as_doubles (with_stok_sisa t (stock_after cs t))]).
Proof.
  intros HM HB Hlt Hcs Ht.
  pose proof (stocks_within_opening M cs (nama_produk t) HM Hcs) as Hop.
  pose proof (stock_after_within M B cs t HM HB Hcs Ht) as Hafter.
  destruct Ht as (Hq & _ & _ & _ & _ & _ & Hs).
  cbn [Double.replay_loop]. cbn [as_doubles Double.nama_produk
    Double.jumlah_terjual Double.stok_sisa Double.tanggal].
  rewrite ensure_entry_as_doubles, opening_as_doubles, opening_ensure_entry.
  change double_zero with (double_of_Z 0).
  rewrite double_eq_exact by (simpl; lia).
  unfold sale_fails, advance, stock_after, apply_transaction in *.
  destruct (jumlah_terjual t =? 0) eqn:Hadj; cbn [negb andb].
  - by rewrite fmap_insert.
  - rewrite double_sub_exact by lia.
    rewrite double_lt_exact by (simpl; lia).
    destruct (opening cs (nama_produk t) - jumlah_terjual t <? 0); [done|].
    by rewrite fmap_insert.
Qed.

Lemma double_replay_loop_refines B l : forall M cs acc,
  0 <= M -> 0 <= B -> M + Z.of_nat (length l) * B < 2 ^ 53 ->
  stocks_within M cs -> Forall (record_within B) l ->
  match error (replay_loop l cs acc) with
  | None =>
      Double.replay_loop number_to_string (map as_doubles l)
        (double_of_Z <$> cs) (map as_doubles acc)
      = {| Double.processedData :=
             map as_doubles (processedData (replay_loop l cs acc));
           Double.error := None |}
  | Some _ =>
      Double.processedData
        (Double.replay_loop number_to_string (map as_doubles l)
           (double_of_Z <$> cs) (map as_doubles acc)) = [] /\
      Double.error
        (Double.replay_loop number_to_string (map as_doubles l)
           (double_of_Z <$> cs) (map as_doubles acc)) <> None
  end.
Proof.
  induction l as [|t l IH]; intros M cs acc HM HB Hlt Hcs Hl; [done|].
  apply Forall_cons in Hl as [Ht Hl].
  rewrite length_cons, Nat2Z.inj_succ in Hlt.
  cbn [map]. rewrite replay_loop_cons.
  rewrite (double_replay_loop_cons M B) by (done || nia).
  destruct (sale_fails cs t); [done|].
  specialize (IH (M + B) (advance cs t)
                (acc ++ [with_stok_sisa t (stock_after cs t)])).
  rewrite map_app in IH. apply IH; [lia|done|nia| |done].
  by apply advance_within.
Qed.

(** The replay on doubles of a ledger of integers that stays below 2^53:
    the records the integer replay returns, or an error where it has one. *)
Lemma double_replay_refines M B data S :
  0 <= M -> Forall (record_within B) data -> stocks_within M S ->
  M + Z.of_nat (length data) * B < 2 ^ 53 ->
  match error (processAndValidateData getTime data S) with
  | None =>
      Double.processAndValidateData getTime number_to_string
        (map as_doubles data) (double_of_Z <$> S)
      = {| Double.processedData :=
             map as_doubles
               (processedData (processAndValidateData getTime data S));
           Double.error := None |}
  | Some _ =>
      Double.processedData
        (Double.processAndValidateData getTime number_to_string
           (map as_doubles data) (double_of_Z <$> S)) = [] /\
      Double.error
        (Double.processAndValidateData getTime number_to_string
           (map as_doubles data) (double_of_Z <$> S)) <> None
  end.
Proof.
  intros HM Hdata HS Hsmall.
  unfold processAndValidateData, Double.processAndValidateData.
  rewrite sort_as_doubles.
  destruct data as [|t0 data0] eqn:Hd; [done|]. rewrite <- Hd in *.
  assert (0 <= B) as HB.
  { rewrite Hd in Hdata. apply Forall_cons in Hdata as [(Hq & _) _]. lia. }
  pose proof (stable_sort_perm (by_tanggal getTime) data) as Hperm.
  apply (double_replay_loop_refines B _ M S []); [done|done| |done|].
  - by rewrite (Permutation_length Hperm).
  - by rewrite Hperm.
Qed.

(** The same, for a small ledger and stocks as small as its numbers. *)
Lemma double_replay_small B data S :
  small_ledger B data -> stocks_within B S ->
  match error (processAndValidateData getTime data S) with
  | None =>
      Double.processAndValidateData getTime number_to_string
        (map as_doubles data) (double_of_Z <$> S)
      = {| Double.processedData :=
             map as_doubles
               (processedData (processAndValidateData getTime data S));
           Double.error := None |}
  | Some _ =>
      Double.processedData
        (Double.processAndValidateData getTime number_to_string
           (map as_doubles data) (double_of_Z <$> S)) = [] /\
      Double.error
        (Double.processAndValidateData getTime number_to_string
           (map as_doubles data) (double_of_Z <$> S)) <> None
  end.
Proof.
  intros (HB & Hdata & Hsmall) HS.
  apply (double_replay_refines B B); try done. nia.
Qed.







End DoubleRefinement.

(** ** The replay loop on doubles *)

Section DoubleReplayFacts.

Variable getTime : string -> Z.
Variable number_to_string : double -> string.

Lemma double_opening_ensure_entry cs p p' :
  Double.opening (Double.ensure_entry cs p) p' = Double.opening cs p'.
Proof.
  unfold Double.opening, Double.ensure_entry.
  destruct (cs !! p) eqn:E; [done|].
  destruct (decide (p = p')) as [<-|Hne].
  - by rewrite lookup_insert_eq, E.
  - by rewrite lookup_insert_ne.
Qed.

Lemma double_opening_advance cs t p :
  Double.opening (Double.advance cs t) p =
    if decide (Double.nama_produk t = p) then Double.stock_after cs t
    else Double.opening cs p.
Proof.
  unfold Double.advance.
  destruct (decide (Double.nama_produk t = p)) as [<-|Hne].
  - unfold Double.opening. by rewrite lookup_insert_eq.
  - unfold Double.opening at 1. rewrite lookup_insert_ne by done.
    apply double_opening_ensure_entry.
Qed.

(** One turn of the loop. *)
Lemma double_loop_turn t l cs acc :
  Double.replay_loop number_to_string (t :: l) cs acc =
    if Double.sale_fails cs t then
      {| Double.processedData := [];
         Double.error :=
           Some (Double.insufficient_stock_message number_to_string
                   (Double.nama_produk t) (Double.tanggal t)
                   (Double.opening cs (Double.nama_produk t))
                   (Double.jumlah_terjual t)) |}
    else
      Double.replay_loop number_to_string l (Double.advance cs t)
        (acc ++ [Double.with_stok_sisa t (Double.stock_after cs t)]).
Proof.
  cbn [Double.replay_loop].
  fold (Double.ensure_entry cs (Double.nama_produk t)).
  fold (Double.opening (Double.ensure_entry cs (Double.nama_produk t))
          (Double.nama_produk t)).
  rewrite double_opening_ensure_entry.
  unfold Double.sale_fails, Double.advance, Double.stock_after,
    Double.apply_transaction.
  destruct (double_eq (Double.jumlah_terjual t) double_zero);
    cbn [negb andb]; [done|].
  by destruct (double_lt _ double_zero).
Qed.



(** The table after a run holds, for each product, the stock folded over
    that product's records. *)
Lemma double_opening_fold_advance l cs p :
  Double.opening (fold_left Double.advance l cs) p =
    Double.folded_stock (Double.opening cs p) (Double.of_product p l).
Proof.
  revert cs. induction l as [|t l IH]; intros cs; simpl; [done|].
  rewrite IH, double_opening_advance. unfold Double.of_product.
  rewrite filter_cons.
  destruct (decide (Double.nama_produk t = p)) as [Hp|Hp]; [|done].
  simpl. unfold Double.folded_stock, Double.stock_after. by rewrite Hp.
Qed.


Lemma double_emitted_app l1 l2 cs :
  Double.emitted (l1 ++ l2) cs =
    Double.emitted l1 cs
      ++ Double.emitted l2 (fold_left Double.advance l1 cs).
Proof.
  revert cs. induction l1 as [|t l1 IH]; intros cs; simpl; [done|].
  by rewrite IH.
Qed.

(** A run without a failing sale returns what it pushed. *)
Lemma double_loop_runs l cs acc :
  Double.runs l cs = true ->
  Double.replay_loop number_to_string l cs acc =
    {| Double.processedData := acc ++ Double.emitted l cs;
       Double.error := None |}.
Proof.
  revert cs acc. induction l as [|t l IH]; intros cs acc Hr.
  - simpl. by rewrite app_nil_r.
  - rewrite double_loop_turn. simpl in Hr.
    apply andb_true_iff in Hr as [Hf Hr].
    apply negb_true_iff in Hf. rewrite Hf, IH by done.
    simpl. by rewrite <- app_assoc.
Qed.

(** Otherwise it returns an error. *)
Lemma double_loop_stops l cs acc :
  Double.runs l cs = false ->
  Double.error (Double.replay_loop number_to_string l cs acc) <> None.
Proof.
  revert cs acc. induction l as [|t l IH]; intros cs acc Hr; [done|].
  rewrite double_loop_turn. simpl in Hr.
  destruct (Double.sale_fails cs t); [done|]. by apply IH.
Qed.

Lemma double_replay_runs data S :
  Double.error
    (Double.processAndValidateData getTime number_to_string data S) = None ->
  Double.processAndValidateData getTime number_to_string data S =
    {| Double.processedData :=
         Double.emitted (stable_sort (Double.by_tanggal getTime) data) S;
       Double.error := None |}.
Proof.
  unfold Double.processAndValidateData. intros Hok.
  destruct (Double.runs (stable_sort (Double.by_tanggal getTime) data) S)
    eqn:Hr.
  - by rewrite double_loop_runs.
  - by apply (double_loop_stops _ _ []) in Hr.
Qed.

(** The last record pushed for a product carries the stock folded over
    all its records. *)
Lemma double_last_of_product_emitted l cs p r :
  last (Double.of_product p (Double.emitted l cs)) = Some r ->
  Double.stok_sisa r =
    Double.folded_stock (Double.opening cs p) (Double.of_product p l).
Proof.
  induction l as [|t l IH] using rev_ind; [done|].
  rewrite double_emitted_app. simpl. unfold Double.of_product in *.
  rewrite !filter_app, !filter_cons, !filter_nil. simpl.
  destruct (decide (Double.nama_produk t = p)) as [Hp|Hp].
  - rewrite last_snoc. intros [= <-]. simpl.
    unfold Double.stock_after. rewrite double_opening_fold_advance.
    unfold Double.folded_stock. rewrite fold_left_app. simpl.
    unfold Double.of_product. by rewrite Hp.
  - by rewrite !app_nil_r.
Qed.

Lemma double_folded_stock_sales s l :
  Forall (fun t => double_eq (Double.jumlah_terjual t) double_zero = false)
    l ->
  Double.folded_stock s l = Double.less_each s l.
Proof.
  intros Hl. revert s. induction Hl as [|t l Ht Hl IH]; intros s; [done|].
  unfold Double.folded_stock, Double.less_each in *. simpl. rewrite IH.
  unfold Double.apply_transaction. by rewrite Ht.
Qed.

Lemma double_folded_stock_after_adjustment s pre a post :
  double_eq (Double.jumlah_terjual a) double_zero = true ->
  Double.folded_stock s (pre ++ a :: post) =
    Double.folded_stock (Double.stok_sisa a) post.
Proof.
  intros Ha. unfold Double.folded_stock. rewrite fold_left_app. simpl.
  unfold Double.apply_transaction at 2. by rewrite Ha.
Qed.

(** Conservation in double arithmetic, whatever the quantities: after a
    successful replay the [stok_sisa] of the last record of a product is
    its opening stock less the quantity of each of its sales, taken off one
    at a time in date order, when the product has no adjustment, and
    otherwise the stock its last adjustment set less the quantity of each
    sale after that adjustment. *)
Lemma conservation_in_double_arithmetic data S p final :
  Double.error
    (Double.processAndValidateData getTime number_to_string data S) = None ->
  last (Double.of_product p
          (Double.processedData
             (Double.processAndValidateData getTime number_to_string
                data S))) = Some final ->
  (Forall (fun t => double_eq (Double.jumlah_terjual t) double_zero = false)
      (Double.of_product p (stable_sort (Double.by_tanggal getTime) data)) ->
    Double.stok_sisa final =
      Double.less_each (Double.opening S p)
        (Double.of_product p
           (stable_sort (Double.by_tanggal getTime) data))) /\
  (forall pre a post,
      Double.of_product p (stable_sort (Double.by_tanggal getTime) data)
        = pre ++ a :: post ->
      double_eq (Double.jumlah_terjual a) double_zero = true ->
      Forall (fun t =>
                double_eq (Double.jumlah_terjual t) double_zero = false)
        post ->
      Double.stok_sisa final = Double.less_each (Double.stok_sisa a) post).
Proof.
  intros Hok. rewrite (double_replay_runs _ _ Hok). simpl.
  intros Hlast%double_last_of_product_emitted. rewrite Hlast. split.
  - apply double_folded_stock_sales.
  - intros pre a post -> Ha Hpost.
    by rewrite double_folded_stock_after_adjustment,
      double_folded_stock_sales.
Qed.


End DoubleReplayFacts.

(** ** The ledger properties on doubles *)

Section DoubleProperties.

Variable getTime : string -> Z.
Variable number_to_string : double -> string.

Local Abbreviation sorted_by_date := (stable_sort (by_tanggal getTime)).


(** A replay on doubles that succeeds on a small ledger of integers is
    the integer replay, which succeeds. *)
Lemma double_replay_success B data S :
  small_ledger B data -> stocks_within B S ->
  Double.error
    (Double.processAndValidateData getTime number_to_string
       (map as_doubles data) (double_of_Z <$> S)) = None ->
  error (processAndValidateData getTime data S) = None /\
  Double.processedData
    (Double.processAndValidateData getTime number_to_string
       (map as_doubles data) (double_of_Z <$> S))
  = map as_doubles (processedData (processAndValidateData getTime data S)).
Proof.
  intros Hsmall HS Hok.
  pose proof (double_replay_small getTime number_to_string B data S Hsmall HS)
    as Href.
  destruct (error (processAndValidateData getTime data S)).
  - by destruct Href as [_ Herr].
  - by rewrite Href.
Qed.





Lemma double_fold_add B (f : SalesData -> Z)
    (g : Double.SalesData -> double) l :
  (forall t, g (as_doubles t) = double_of_Z (f t)) ->
  0 <= B -> Forall (fun t => Z.abs (f t) <= B) l ->
  forall a M, Z.abs a <= M ->
    M + Z.of_nat (length l) * B < 2 ^ 53 ->
    fold_left (fun acc item => double_add acc (g item)) (map as_doubles l)
      (double_of_Z a)
    = double_of_Z (fold_left (fun acc item => acc + f item) l a).
Proof.
  intros Hg HB Hl. induction Hl as [|t l Ht Hl IH]; intros a M Ha Hlt; [done|].
  rewrite length_cons, Nat2Z.inj_succ in Hlt. cbn [map fold_left].
  rewrite Hg, double_add_exact by nia.
  apply (IH _ (M + B)); lia.
Qed.

Lemma double_summary_totals l :
  Double.totalPenjualan (Double.summary getTime l)
  = fold_left (fun acc item => double_add acc (Double.total_penjualan item))
      l double_zero /\
  Double.totalLaba (Double.summary getTime l)
  = fold_left (fun acc item => double_add acc (Double.laba item))
      l double_zero.
Proof.
  unfold Double.summary. by destruct (Double.summary_loop getTime l).
Qed.

Lemma summary_totals l :
  totalPenjualan (summary getTime l)
  = fold_left (fun acc item => acc + total_penjualan item) l 0 /\
  totalLaba (summary getTime l)
  = fold_left (fun acc item => acc + laba item) l 0.
Proof. unfold summary. by destruct (summary_loop getTime l). Qed.

(** The totals of the summary on doubles, for small ledgers of integers. *)
Lemma double_totals_refine B l :
  0 <= B ->
  Forall (fun t => Z.abs (total_penjualan t) <= B /\ Z.abs (laba t) <= B) l ->
  Z.of_nat (length l) * B < 2 ^ 53 ->
  Double.totalPenjualan (Double.summary getTime (map as_doubles l))
  = double_of_Z (totalPenjualan (summary getTime l)) /\
  Double.totalLaba (Double.summary getTime (map as_doubles l))
  = double_of_Z (totalLaba (summary getTime l)).
Proof.
  intros HB Hl Hlt.
  destruct (double_summary_totals (map as_doubles l)) as [-> ->].
  destruct (summary_totals l) as [-> ->].
  change double_zero with (double_of_Z 0). split.
  - apply (double_fold_add B total_penjualan Double.total_penjualan l)
      with (M := 0); [done|done| |simpl; lia|lia].
    eapply Forall_impl; [exact Hl|]. by intros t [? _].
  - apply (double_fold_add B laba Double.laba l) with (M := 0);
      [done|done| |simpl; lia|lia].
    eapply Forall_impl; [exact Hl|]. by intros t [_ ?].
Qed.

Lemma emitted_Forall (P : SalesData -> Prop) l cs :
  (forall t v, P t -> P (with_stok_sisa t v)) ->
  Forall P l -> Forall P (emitted l cs).
Proof.
  intros HP Hl. revert cs. induction Hl as [|t l Ht Hl IH]; intros cs; simpl.
  - constructor.
  - constructor; [by apply HP|apply IH].
Qed.

(** X2, for small ledgers of integers.  A successful replay leaves the two
    totals of the summary as they are on the input, when the amounts are
    integers and the ledger is small enough for the sums to stay below
    2^53. *)
Theorem totals_of_integers_survive_replay B data S :
  small_ledger B data -> stocks_within B S ->
  Double.error
    (Double.processAndValidateData getTime number_to_string
       (map as_doubles data) (double_of_Z <$> S)) = None ->
  Double.totalPenjualan
    (Double.summary getTime
       (Double.processedData
          (Double.processAndValidateData getTime number_to_string
             (map as_doubles data) (double_of_Z <$> S))))
  = Double.totalPenjualan (Double.summary getTime (map as_doubles data)) /\
  Double.totalLaba
    (Double.summary getTime
       (Double.processedData
          (Double.processAndValidateData getTime number_to_string
             (map as_doubles data) (double_of_Z <$> S))))
  = Double.totalLaba (Double.summary getTime (map as_doubles data)).
Proof.
  intros Hsmall HS Hok.
  destruct (double_replay_success B data S Hsmall HS Hok) as [HokZ Hout].
  destruct Hsmall as (HB & Hdata & Hsmall).
  rewrite Hout.
  assert (Forall (fun t => Z.abs (total_penjualan t) <= B /\
                           Z.abs (laba t) <= B) data) as Hamounts.
  { eapply Forall_impl; [exact Hdata|].
    by intros t (_ & _ & _ & ? & _ & ? & _). }
  pose proof (stable_sort_perm (by_tanggal getTime) data) as Hperm.
  destruct (double_totals_refine B data HB Hamounts) as [-> ->]; [nia|].
  destruct (double_totals_refine B
              (processedData (processAndValidateData getTime data S)) HB)
    as [-> ->].
  - rewrite (replay_success _ _ _ HokZ). simpl.
    apply emitted_Forall; [by intros t v|]. by rewrite Hperm.
  - rewrite (replay_success _ _ _ HokZ). simpl.
    rewrite emitted_length, (Permutation_length Hperm). nia.
  - by destruct (totals_survive_replay getTime data S HokZ) as [-> ->].
Qed.

(** *** The chart *)














End DoubleProperties.

(** ** The properties on doubles at concrete inputs *)

(** C3. The stock inferred for a new product does not always carry its
    sales: for the sales 0.2 and 0.5 of a product, as the CSV import
    delivers them, the inference returns 0.7, and the replay from 0.7
    stops at the second sale, the stock left by the first being
    0.49999999999999994. *)
Theorem inferred_stock_fails_its_own_replay
    (number_to_string : double -> string) :
  let newEntries :=
    [decimal_sale "id_csv_0" "2024-01-01" "A" (2 # 10);
     decimal_sale "id_csv_1" "2024-01-02" "A" (5 # 10)] in
  Double.as_ledger
    (data (parseCSV example_csv_id
             (unlines [example_header; "2024-01-01,A,0.2,0,0,0,0,0,0";
                       "2024-01-02,A,0.5,0,0,0,0,0,0"])))
  = Some newEntries /\
  Double.inferInitialStocks iso_getTime newEntries ∅
  = {["A" := double_of_Q (7 # 10)]} /\
  Double.processAndValidateData iso_getTime number_to_string newEntries
    (Double.inferInitialStocks iso_getTime newEntries ∅ ∪ ∅)
  = {| Double.processedData := [];
       Double.error :=
         Some (Double.insufficient_stock_message number_to_string "A"
                 "2024-01-02"
                 (double_sub (double_of_Q (7 # 10)) (double_of_Q (2 # 10)))
                 (double_of_Q (5 # 10))) |} /\
  double_lt
    (double_sub (double_sub (double_of_Q (7 # 10)) (double_of_Q (2 # 10)))
       (double_of_Q (5 # 10)))
    double_zero = true.
Proof. repeat split; vm_compute; reflexivity. Qed.

(** A stock adjustment followed by a sale of the same product: the sale is
    checked against the stock the adjustment carries, whatever the stock
    was before. *)
Lemma adjust_then_sell (number_to_string : double -> string) a s S :
  Double.nama_produk s = Double.nama_produk a ->
  double_eq (Double.jumlah_terjual a) double_zero = true ->
  double_eq (Double.jumlah_terjual s) double_zero = false ->
  Double.replay_loop number_to_string [a; s] S [] =
    if double_lt (double_sub (Double.stok_sisa a) (Double.jumlah_terjual s))
         double_zero
    then {| Double.processedData := [];
            Double.error :=
              Some (Double.insufficient_stock_message number_to_string
                      (Double.nama_produk s) (Double.tanggal s)
                      (Double.stok_sisa a) (Double.jumlah_terjual s)) |}
    else {| Double.processedData :=
              [Double.with_stok_sisa a (Double.stok_sisa a);
               Double.with_stok_sisa s
                 (double_sub (Double.stok_sisa a)
                    (Double.jumlah_terjual s))];
            Double.error := None |}.
Proof.
  intros Hp Ha Hs. rewrite !double_loop_turn.
  assert (Double.stock_after S a = Double.stok_sisa a) as Hafter.
  { unfold Double.stock_after, Double.apply_transaction. by rewrite Ha. }
  assert (Double.opening (Double.advance S a) (Double.nama_produk s)
          = Double.stok_sisa a) as Hop.
  { rewrite double_opening_advance, Hp, Hafter.
    by destruct (decide (Double.nama_produk a = Double.nama_produk a)). }
  assert (Double.stock_after (Double.advance S a) s
          = double_sub (Double.stok_sisa a) (Double.jumlah_terjual s))
    as Hafter'.
  { unfold Double.stock_after, Double.apply_transaction. by rewrite Hs, Hop. }
  unfold Double.sale_fails. rewrite Ha, Hs, Hop, Hafter, Hafter'.
  cbn [negb andb].
  destruct (double_lt _ double_zero); [done|].
  cbn [Double.replay_loop app]. done.
Qed.

(** C5. The [stok_sisa] column of a CSV text reaches the validated ledger:
    on a line whose quantity is 0 the cell is the stock the replay sets.
    Of two texts that differ only in that cell, 10 against 2, whatever the
    identifiers drawn and whatever the opening stocks, one is imported with
    the stocks 10 and 7 and the other is rejected at its sale of 3. *)
Theorem stok_sisa_of_a_csv_row_sets_the_stock
    (csv_id1 csv_id2 : nat -> string) (number_to_string : double -> string)
    (S : gmap string double) :
  let text1 :=
    unlines [example_header; "2024-01-01,A,0,0,0,0,0,0,10";
             "2024-01-02,A,3,2,4,12,6,6,0"] in
  let text2 :=
    unlines [example_header; "2024-01-01,A,0,0,0,0,0,0,2";
             "2024-01-02,A,3,2,4,12,6,6,0"] in
  same_except_stok_sisa text1 text2 = true /\
  ((fun v => (map Double.stok_sisa (Double.processedData v), Double.error v))
     <$> Double.import_and_replay csv_id1 iso_getTime number_to_string
           text1 S)
  = Some ([double_of_Z 10; double_of_Z 7], None) /\
  ((fun v => (map Double.stok_sisa (Double.processedData v), Double.error v))
     <$> Double.import_and_replay csv_id2 iso_getTime number_to_string
           text2 S)
  = Some ([], Some (Double.insufficient_stock_message number_to_string "A"
                      "2024-01-02" (double_of_Z 2) (double_of_Z 3))).
Proof.
  intros text1 text2. split; [vm_compute; reflexivity|].
  unfold Double.import_and_replay, Double.processAndValidateData.
  split.
  - replace (parseError (parseCSV csv_id1 text1)) with (@None string)
      by (vm_compute; reflexivity).
    match goal with
    | |- context [Double.as_ledger ?d] =>
        let r := eval vm_compute in (Double.as_ledger d) in
        replace (Double.as_ledger d) with r by (vm_compute; reflexivity)
    end.
    match goal with
    | |- context [stable_sort ?c ?l] =>
        let r := eval vm_compute in (stable_sort c l) in
        replace (stable_sort c l) with r by (vm_compute; reflexivity)
    end.
    rewrite adjust_then_sell by (vm_compute; reflexivity).
    vm_compute. reflexivity.
  - replace (parseError (parseCSV csv_id2 text2)) with (@None string)
      by (vm_compute; reflexivity).
    match goal with
    | |- context [Double.as_ledger ?d] =>
        let r := eval vm_compute in (Double.as_ledger d) in
        replace (Double.as_ledger d) with r by (vm_compute; reflexivity)
    end.
    match goal with
    | |- context [stable_sort ?c ?l] =>
        let r := eval vm_compute in (stable_sort c l) in
        replace (stable_sort c l) with r by (vm_compute; reflexivity)
    end.
    rewrite adjust_then_sell by (vm_compute; reflexivity).
    vm_compute. reflexivity.
Qed.


(** ** The properties on doubles at work on examples *)



Lemma totals_of_integers_survive_replay_witness :
  Double.totalPenjualan
    (Double.summary iso_getTime
       (Double.processedData
          (Double.processAndValidateData iso_getTime example_double_to_string
             (map as_doubles example_sales) (double_of_Z <$> ∅))))
  = Double.totalPenjualan
      (Double.summary iso_getTime (map as_doubles example_sales)) /\
  Double.totalLaba
    (Double.summary iso_getTime
       (Double.processedData
          (Double.processAndValidateData iso_getTime example_double_to_string
             (map as_doubles example_sales) (double_of_Z <$> ∅))))
  = Double.totalLaba
      (Double.summary iso_getTime (map as_doubles example_sales)).
Proof.
  apply (totals_of_integers_survive_replay iso_getTime
           example_double_to_string 100 example_sales ∅).
  - split; [lia|]. split; [|vm_compute; reflexivity].
    forall_each; repeat split; simpl; lia.
  - apply map_Forall_empty.
  - vm_compute. reflexivity.
Defined.


(** The totals of the example ledger. *)
Example totals_of_the_example :
  Double.totalPenjualan
    (Double.summary iso_getTime (map as_doubles example_sales))
  = double_of_Z 21 /\
  Double.totalLaba
    (Double.summary iso_getTime (map as_doubles example_sales))
  = double_of_Z 10.
Proof. split; vm_compute; reflexivity. Qed.

(** On decimal amounts the sums depend on the order they are taken in.  The
    amounts 0.1, 0.2 and 0.3, dated the third, the first and the second of
    a month, total 0.6000000000000001 as entered and 0.6 once the replay
    has put them in date order. *)
Example totals_move_on_decimals :
  let data :=
    [decimal_amount "s1" "2024-01-03" "A" (1 # 10);
     decimal_amount "s2" "2024-01-01" "A" (2 # 10);
     decimal_amount "s3" "2024-01-02" "A" (3 # 10)] in
  let result :=
    Double.processAndValidateData iso_getTime example_double_to_string data
      {["A" := double_of_Z 10]} in
  Double.error result = None /\
  Double.totalPenjualan (Double.summary iso_getTime data)
  = S754_finite false 5404319552844596 (-53) /\
  Double.totalPenjualan
    (Double.summary iso_getTime (Double.processedData result))
  = double_of_Q (6 # 10) /\
  double_of_Q (6 # 10) = S754_finite false 5404319552844595 (-53).
Proof. repeat split; vm_compute; reflexivity. Qed.

(** The amounts 0.1 and 1.1 of one product and 0.1 of another total 1.3,
    and the two rows of the chart add up to 1.3000000000000003. *)
Example chart_misses_the_total_on_decimals :
  let data :=
    [decimal_amount "s1" "2024-01-01" "A" (1 # 10);
     decimal_amount "s2" "2024-01-02" "B" (1 # 10);
     decimal_amount "s3" "2024-01-03" "A" (11 # 10)] in
  Double.totalPenjualan (Double.summary iso_getTime data)
  = double_of_Q (13 # 10) /\
  double_of_Q (13 # 10) = S754_finite false 5854679515581645 (-52) /\
  foldr (fun row acc => double_add (Double.row_totalPenjualan row) acc)
    double_zero (Double.chartData data)
  = S754_finite false 5854679515581646 (-52).
Proof. repeat split; vm_compute; reflexivity. Qed.

